(** * ZenLedger: the storage service and the analytics of the ledger

    A shallow embedding of [src/services/storageService.ts], of the balance
    computation of [src/App.tsx] ([currentBalance]) and of its analytics
    component ([GenuineFiscalInsights]), with the properties the
    specification states about them; and of the state, the views and the
    handlers of the component of [src/App.tsx] ([sync], [filteredMsgs], the
    forms and the buttons), with further properties of the service and of
    the component.

    Conventions of the embedding.
    - [localStorage] is a finite map from keys to stored texts, threaded
      through every operation; an exception (for an [async] function: a
      rejected promise) is an explicit outcome.
    - [Date.now()] and [Math.random()] are read from the host: every
      operation takes the values it reads as arguments.
    - A JavaScript [number] is an element of a number system given by the
      class [Number], whose instance [binary64] is the arithmetic the
      program runs on (IEEE 754 doubles).  What holds only where no sum
      rounds is stated for amounts that are whole numbers of bounded size
      ([whole_amounts]).  Time stamps are the whole numbers of milliseconds
      [Date.now()] returns, and are kept in [Z].
    - Strings are sequences of 8-bit code units; [trim] and [toLowerCase] are
      those of JavaScript on ASCII text.  The token [btoa] makes and the
      text [toLocaleDateString] renders are kept as what they encode.
    - Arrays are objects on a heap where a claim is about their mutation
      (the analytics engine); elsewhere a list stands for the elements. *)

From Stdlib Require Import ZArith Floats Uint63 Ascii String.
From stdpp Require Import base option list strings pretty gmap fin_maps sorting.

Local Open Scope Z_scope.
Local Open Scope string_scope.

(** ** Numbers *)

Class Number := {
  num : Type;
  zero : num;
  one : num;
  add : num -> num -> num;
  sub : num -> num -> num;
  mul : num -> num -> num;
  div : num -> num -> num;
  sqrt : num -> num;
  (** [a < b] *)
  ltb : num -> num -> bool;
  (** [Math.max(a, b)] *)
  max : num -> num -> num;
  (** a number is truthy unless it is [0], [-0] or [NaN] *)
  truthy : num -> bool;
  (** the number a whole count (of milliseconds, of elements) denotes *)
  of_Z : Z -> num
}.

Declare Scope num_scope.
Delimit Scope num_scope with num.
Infix "⊕" := add (at level 50, left associativity) : num_scope.
Infix "⊖" := sub (at level 50, left associativity) : num_scope.
Infix "⊗" := mul (at level 40, left associativity) : num_scope.
Infix "⊘" := div (at level 40, left associativity) : num_scope.
Infix "<.?" := ltb (at level 70, no associativity) : num_scope.
Notation "a >.? b" := (ltb b a) (at level 70, no associativity) : num_scope.

(** IEEE 754 binary64, the numbers of the JavaScript host.  A whole number
    below 2^63 in magnitude is converted with the rounding of the
    primitive; [Math.max] returns NaN when an argument is NaN. *)
Definition float_of_Z (z : Z) : float :=
  if (z <? 0)%Z then PrimFloat.opp (PrimFloat.of_uint63 (Uint63.of_Z (- z)))
  else PrimFloat.of_uint63 (Uint63.of_Z z).

Definition float_max (a b : float) : float :=
  if PrimFloat.is_nan a || PrimFloat.is_nan b then PrimFloat.nan
  else if PrimFloat.ltb a b then b else a.

#[export] Instance binary64 : Number | 10 := {
  num := float;
  zero := PrimFloat.zero;
  one := PrimFloat.one;
  add := PrimFloat.add;
  sub := PrimFloat.sub;
  mul := PrimFloat.mul;
  div := PrimFloat.div;
  sqrt := PrimFloat.sqrt;
  ltb := PrimFloat.ltb;
  max := float_max;
  truthy := fun x => negb (PrimFloat.is_nan x || PrimFloat.is_zero x);
  of_Z := float_of_Z
}.

(** ** Strings *)

Definition is_whitespace (c : ascii) : bool :=
  let n := nat_of_ascii c in
  ((9 <=? n)%nat && (n <=? 13)%nat) || (n =? 32)%nat.

Fixpoint trimStart (s : string) : string :=
  match s with
  | String c s' => if is_whitespace c then trimStart s' else s
  | EmptyString => EmptyString
  end.

Fixpoint trimEnd (s : string) : string :=
  match s with
  | String c s' =>
      match trimEnd s' with
      | EmptyString => if is_whitespace c then EmptyString else String c EmptyString
      | r => String c r
      end
  | EmptyString => EmptyString
  end.

Definition trim (s : string) : string := trimEnd (trimStart s).

(** A text that does not begin with white space. *)
Definition starts_clean (s : string) : Prop :=
  match s with
  | String c _ => is_whitespace c = false
  | EmptyString => True
  end.

Definition lower (c : ascii) : ascii :=
  let n := nat_of_ascii c in
  if (65 <=? n)%nat && (n <=? 90)%nat then ascii_of_nat (n + 32) else c.

Fixpoint toLowerCase (s : string) : string :=
  match s with
  | String c s' => String (lower c) (toLowerCase s')
  | EmptyString => EmptyString
  end.

(** ** Types ([src/types.ts]) *)

Inductive UserRole := HOST | MEMBER.
Inductive TransactionType := CREDIT | DEBIT.
Inductive TransactionCategory :=
  ALLOWANCE | FOOD | GAMES | EDUCATION | ENTERTAINMENT | SAVINGS | GIFT | OTHER.
Inductive RequestStatus := PENDING | APPROVED | REJECTED.

#[export] Instance UserRole_eq_dec : EqDecision UserRole.
Proof. solve_decision. Defined.
#[export] Instance TransactionType_eq_dec : EqDecision TransactionType.
Proof. solve_decision. Defined.
#[export] Instance TransactionCategory_eq_dec : EqDecision TransactionCategory.
Proof. solve_decision. Defined.
#[export] Instance RequestStatus_eq_dec : EqDecision RequestStatus.
Proof. solve_decision. Defined.

(** [btoa(text)]: the token is kept as the text it encodes. *)
Inductive Token := btoa (text : string).

Module User.
Record t := {
  id : string;
  familyId : string;
  name : string;
  username : string;
  password : option string;
  role : UserRole;
  parentId : option string;
  isActive : bool
}.
End User.

Module Transaction.
Section WithNumber.
Context {N : Number}.
Record t := {
  id : string;
  userId : string;
  amount : num;
  type : TransactionType;
  category : TransactionCategory;
  description : string;
  timestamp : Z
}.
End WithNumber.
End Transaction.

Module MoneyRequest.
Section WithNumber.
Context {N : Number}.
Record t := {
  id : string;
  childId : string;
  amount : num;
  reason : string;
  status : RequestStatus;
  timestamp : Z
}.
(** [r.status = s] *)
Definition set_status (s : RequestStatus) (r : t) : t :=
  {| id := id r; childId := childId r; amount := amount r; reason := reason r;
     status := s; timestamp := timestamp r |}.
End WithNumber.
End MoneyRequest.

Module FamilyMessage.
Record t := {
  id : string;
  familyId : string;
  fromId : string;
  fromRole : UserRole;
  toId : string;
  text : string;
  timestamp : Z;
  isRead : bool;
  replyToId : option string
}.
End FamilyMessage.

Module Session.
Record t := {
  token : Token;
  userId : string;
  familyId : string;
  role : UserRole;
  exp : Z;
  cloudSync : option bool
}.
End Session.

(** [{ success: true, data }] and [{ success: false, error }] *)
Inductive ServiceResponse (T : Type) :=
| Success (data : T)
| Failure (error : string).
Arguments Success {T} data.
Arguments Failure {T} error.

(** ** Effects

    A computation runs on a state [S] ([localStorage], or the heap of
    arrays) and ends with a value or with an exception (a rejected promise
    for an [async] function); in both cases with the state it leaves. *)

Inductive Exception := SyntaxError | TypeError.

Inductive Completion (S A : Type) :=
| Return (a : A) (s : S)
| Throw (e : Exception) (s : S).
Arguments Return {S A} a s.
Arguments Throw {S A} e s.

Definition Run (S A : Type) : Type := S -> Completion S A.

Definition ret {S A} (a : A) : Run S A := fun s => Return a s.

Definition bind {S A B} (m : Run S A) (k : A -> Run S B) : Run S B :=
  fun s => match m s with
           | Return a s' => k a s'
           | Throw e s' => Throw e s'
           end.

Definition throw {S A} (e : Exception) : Run S A := fun s => Throw e s.

(** [try { body } catch { handler }] *)
Definition try_catch {S A} (body handler : Run S A) : Run S A :=
  fun s => match body s with
           | Return a s' => Return a s'
           | Throw _ s' => handler s'
           end.

(** The state a completion leaves, and its value if it has one. *)
Definition state_of {S A} (c : Completion S A) : S :=
  match c with Return _ s => s | Throw _ s => s end.

Definition value_of {S A} (c : Completion S A) : option A :=
  match c with Return a _ => Some a | Throw _ _ => None end.

Declare Scope js_scope.
Delimit Scope js_scope with js.
Notation "x <- m ;; k" := (bind m (fun x => k))
  (at level 100, m at next level, right associativity) : js_scope.
Notation "m ;;; k" := (bind m (fun _ => k))
  (at level 100, right associativity) : js_scope.

(** ** The browser's [localStorage] *)

Section Storage.
Context {N : Number}.

(** A stored text.  The texts [JSON.stringify] writes are kept as the values
    they encode, which is what [JSON.parse] gives back; ['true'] is the text
    of [Bool true]; [Malformed s] is a text [s] that is not JSON, as on a
    corrupted medium ([JSON.parse] throws a [SyntaxError] on it; the empty
    text is one of them). *)
Inductive Item :=
| Users (users : list User.t)
| Transactions (txs : list Transaction.t)
| Requests (requests : list MoneyRequest.t)
| Messages (messages : list FamilyMessage.t)
| SessionDoc (session : Session.t)
| Bool (b : bool)
| Malformed (s : string).

Definition Js (A : Type) : Type := Run (gmap string Item) A.

Definition getItem (key : string) : Js (option Item) :=
  fun ls => Return (ls !! key) ls.

Definition setItem (key : string) (value : Item) : Js unit :=
  fun ls => Return tt (<[key := value]> ls).

Definition removeItem (key : string) : Js unit :=
  fun ls => Return tt (delete key ls).

(** [!raw]: [null] and the empty text are falsy. *)
Definition falsy (raw : option Item) : bool :=
  match raw with
  | None | Some (Malformed EmptyString) => true
  | Some _ => false
  end.

(** [raw || '[]'], where [empty] is the text ['[]']. *)
Definition or_empty (empty : Item) (raw : option Item) : Item :=
  match raw with
  | Some it => if falsy raw then empty else it
  | None => empty
  end.

(** [JSON.parse(text)], used at the type [shape] selects.  A text that is
    not JSON throws; a document of another shape than the caller expects is
    never written under the caller's key, and counts as a [TypeError]. *)
Definition JSON_parse {A} (shape : Item -> option A) (text : Item) : Js A :=
  match text with
  | Malformed _ => throw SyntaxError
  | _ => match shape text with
         | Some a => ret a
         | None => throw TypeError
         end
  end.

Definition as_users (it : Item) : option (list User.t) :=
  match it with Users l => Some l | _ => None end.
Definition as_transactions (it : Item) : option (list Transaction.t) :=
  match it with Transactions l => Some l | _ => None end.
Definition as_requests (it : Item) : option (list MoneyRequest.t) :=
  match it with Requests l => Some l | _ => None end.
Definition as_messages (it : Item) : option (list FamilyMessage.t) :=
  match it with Messages l => Some l | _ => None end.
Definition as_session (it : Item) : option Session.t :=
  match it with SessionDoc s => Some s | _ => None end.

End Storage.

(** ** The storage service ([src/services/storageService.ts]) *)

Section StorageService.
Context {N : Number}.
Local Open Scope js_scope.

Definition USERS_KEY : string := "zenledger_v21_users".
Definition TRANSACTIONS_KEY : string := "zenledger_v21_transactions".
Definition REQUESTS_KEY : string := "zenledger_v21_requests".
Definition MESSAGES_KEY : string := "zenledger_v21_messages".
Definition SESSION_KEY : string := "zenledger_v21_session".

Definition SESSION_DURATION : Z := 86400000.

(** [users.find(u => u.familyId === fid && u.username === username)] *)
Definition same_handle (fid username : string) (u : User.t) : bool :=
  (User.familyId u =? fid)%string && (User.username u =? username)%string.

(** [now] is the value of [Date.now()]. *)
Definition signupCluster (familyId handle pass : string) (now : Z)
  : Js (ServiceResponse User.t) :=
  raw <- getItem USERS_KEY;;
  users <- JSON_parse as_users (or_empty (Users []) raw);;
  let fid := toLowerCase (trim familyId) in
  let username := toLowerCase (trim handle) in
  if List.find (same_handle fid username) users is Some _ then
    ret (Failure "Identity handle already provisioned in this cluster.")
  else
    let newUser := {|
      User.id := "u_" +:+ pretty now;
      User.familyId := fid;
      User.name := handle;
      User.username := username;
      User.password := Some pass;
      User.role := HOST;
      User.parentId := None;
      User.isActive := true
    |} in
    setItem USERS_KEY (Users (users ++ [newUser]));;;
    ret (Success newUser).

(** [random] is the text [Math.random().toString(36).substr(2, 9)]. *)
Definition provisionMember (session : Session.t) (username pass : string)
    (random : string) : Js (ServiceResponse User.t) :=
  if negb (bool_decide (Session.role session = HOST)) then
    ret (Failure "Authorization restricted to Host Nodes.")
  else
    raw <- getItem USERS_KEY;;
    users <- JSON_parse as_users (or_empty (Users []) raw);;
    let handle := toLowerCase (trim username) in
    if List.find (same_handle (Session.familyId session) handle) users is Some _
    then ret (Failure "Member handle already provisioned.")
    else
      let newMember := {|
        User.id := "u_" +:+ random;
        User.familyId := Session.familyId session;
        User.name := username;
        User.username := handle;
        User.password := Some pass;
        User.role := MEMBER;
        User.parentId := Some (Session.userId session);
        User.isActive := true
      |} in
      setItem USERS_KEY (Users (users ++ [newMember]));;;
      ret (Success newMember).

(** [u.familyId === fid && u.username === username && u.password === pass] *)
Definition same_credentials (fid username pass : string) (u : User.t) : bool :=
  same_handle fid username u && bool_decide (User.password u = Some pass).

(** [now_token] and [now_exp] are the two readings of [Date.now()]. *)
Definition login (familyId handle pass : string) (now_token now_exp : Z)
  : Js (ServiceResponse Session.t) :=
  let fid := toLowerCase (trim familyId) in
  let username := toLowerCase (trim handle) in
  raw <- getItem USERS_KEY;;
  users <- JSON_parse as_users (or_empty (Users []) raw);;
  match List.find (same_credentials fid username pass) users with
  | None => ret (Failure "Access Denied. Invalid credentials or Cluster ID.")
  | Some user =>
      let session := {|
        Session.token := btoa (User.id user +:+ ":" +:+ pretty now_token);
        Session.userId := User.id user;
        Session.familyId := User.familyId user;
        Session.role := User.role user;
        Session.exp := now_exp + SESSION_DURATION;
        Session.cloudSync := None
      |} in
      setItem SESSION_KEY (SessionDoc session);;;
      ret (Success session)
  end.

Definition getUsers : Js (list User.t) :=
  raw <- getItem USERS_KEY;;
  JSON_parse as_users (or_empty (Users []) raw).

Definition getTransactions : Js (list Transaction.t) :=
  raw <- getItem TRANSACTIONS_KEY;;
  JSON_parse as_transactions (or_empty (Transactions []) raw).

Definition getRequests : Js (list MoneyRequest.t) :=
  raw <- getItem REQUESTS_KEY;;
  JSON_parse as_requests (or_empty (Requests []) raw).

Definition getMessages : Js (list FamilyMessage.t) :=
  raw <- getItem MESSAGES_KEY;;
  JSON_parse as_messages (or_empty (Messages []) raw).

(** [toId] is [None] when the argument is left out (default ['cluster']). *)
Definition sendMessage (session : Session.t) (text : string)
    (toId : option string) (now_id now_timestamp : Z)
  : Js (ServiceResponse FamilyMessage.t) :=
  raw <- getItem MESSAGES_KEY;;
  messages <- JSON_parse as_messages (or_empty (Messages []) raw);;
  let newMessage := {|
    FamilyMessage.id := "msg_" +:+ pretty now_id;
    FamilyMessage.familyId := Session.familyId session;
    FamilyMessage.fromId := Session.userId session;
    FamilyMessage.fromRole := Session.role session;
    FamilyMessage.toId := default "cluster" toId;
    FamilyMessage.text := text;
    FamilyMessage.timestamp := now_timestamp;
    FamilyMessage.isRead := false;
    FamilyMessage.replyToId := None
  |} in
  setItem MESSAGES_KEY (Messages (newMessage :: messages));;;
  ret (Success newMessage).

Definition saveTransaction (session : Session.t) (tx : Transaction.t)
  : Js (ServiceResponse Transaction.t) :=
  raw <- getItem TRANSACTIONS_KEY;;
  txs <- JSON_parse as_transactions (or_empty (Transactions []) raw);;
  setItem TRANSACTIONS_KEY (Transactions (tx :: txs));;;
  ret (Success tx).

Definition createRequest (session : Session.t) (amount : num) (reason : string)
    (now_id now_timestamp : Z) : Js (ServiceResponse MoneyRequest.t) :=
  raw <- getItem REQUESTS_KEY;;
  requests <- JSON_parse as_requests (or_empty (Requests []) raw);;
  let newRequest := {|
    MoneyRequest.id := "req_" +:+ pretty now_id;
    MoneyRequest.childId := Session.userId session;
    MoneyRequest.amount := amount;
    MoneyRequest.reason := reason;
    MoneyRequest.status := PENDING;
    MoneyRequest.timestamp := now_timestamp
  |} in
  setItem REQUESTS_KEY (Requests (newRequest :: requests));;;
  ret (Success newRequest).

(** [requests.findIndex(p)]: [None] stands for [-1]. *)
Fixpoint findIndex {A} (p : A -> bool) (l : list A) : option nat :=
  match l with
  | [] => None
  | x :: l' => if p x then Some 0%nat else S <$> findIndex p l'
  end.

Definition updateRequestStatus (session : Session.t) (requestId : string)
    (status : RequestStatus) : Js (ServiceResponse bool) :=
  if negb (bool_decide (Session.role session = HOST)) then
    ret (Failure "Unauthorized.")
  else
    raw <- getItem REQUESTS_KEY;;
    requests <- JSON_parse as_requests (or_empty (Requests []) raw);;
    match findIndex (fun r => (MoneyRequest.id r =? requestId)%string) requests with
    | None => ret (Failure "Not found.")
    | Some idx =>
        setItem REQUESTS_KEY
          (Requests (alter (MoneyRequest.set_status status) idx requests));;;
        ret (Success true)
    end.

(** [now] is the value of [Date.now()]; [None] is [null]. *)
Definition getStoredSession (now : Z) : Js (option Session.t) :=
  raw <- getItem SESSION_KEY;;
  match raw with
  | None => ret None
  | Some text =>
      if falsy raw then ret None
      else
        try_catch
          (session <- JSON_parse as_session text;;
           if (now >? Session.exp session)%Z then
             removeItem SESSION_KEY;;;
             ret None
           else ret (Some session))
          (ret None)
  end.

Definition logout : Js unit := removeItem SESSION_KEY.

Definition onboarded_key (userId : string) : string := "onboarded_" +:+ userId.

(** [localStorage.getItem(key) === 'true'] *)
Definition getOnboardingStatus (userId : string) : Js bool :=
  raw <- getItem (onboarded_key userId);;
  ret (match raw with Some (Bool true) => true | _ => false end).

Definition setOnboardingStatus (userId : string) : Js unit :=
  setItem (onboarded_key userId) (Bool true).

End StorageService.

(** ** Balances ([src/App.tsx]) *)

Section Ledger.
Context {N : Number}.
Local Open Scope num_scope.

(** [(acc, t) => t.type === CREDIT ? acc + t.amount : acc - t.amount] *)
Definition apply_tx (acc : num) (t : Transaction.t) : num :=
  if bool_decide (Transaction.type t = CREDIT)
  then acc ⊕ Transaction.amount t
  else acc ⊖ Transaction.amount t.

(** [txs.filter(t => t.userId === userId)] *)
Definition memberTxs (txs : list Transaction.t) (userId : string)
  : list Transaction.t :=
  List.filter (fun t => (Transaction.userId t =? userId)%string) txs.

(** [currentBalance]: [session] is [None] when nobody is logged in. *)
Definition currentBalance (txs : list Transaction.t) (session : option Session.t)
  : num :=
  match session with
  | None => zero
  | Some session =>
      fold_left apply_tx (memberTxs txs (Session.userId session)) zero
  end.

(** [memberTxs.filter(t => t.type === kind).reduce((sum, t) => sum + t.amount, 0)]:
    [totalCredits] and [totalDebits] of the member cards. *)
Definition total_of (kind : TransactionType) (txs : list Transaction.t) : num :=
  fold_left (fun sum t => sum ⊕ Transaction.amount t)
    (List.filter (fun t => bool_decide (Transaction.type t = kind)) txs) zero.

Definition totalCredits (txs : list Transaction.t) (userId : string) : num :=
  total_of CREDIT (memberTxs txs userId).

Definition totalDebits (txs : list Transaction.t) (userId : string) : num :=
  total_of DEBIT (memberTxs txs userId).

End Ledger.

(** ** The analytics engine ([GenuineFiscalInsights], [src/App.tsx]) *)

(** [new Date(ms).toLocaleDateString()]: the text depends on the locale of
    the host, and is kept as the time it renders. *)
Inductive DateString := toLocaleDateString (ms : Z).

Module Point.
Section WithNumber.
Context {N : Number}.
Record t := { timestamp : Z; balance : num; date : DateString }.
End WithNumber.
End Point.

Module Stats.
Section WithNumber.
Context {N : Number}.
Record t := { mean : num; median : num; stdDev : num; transactionCount : nat }.
End WithNumber.
End Stats.

Module Insights.
Section WithNumber.
Context {N : Number}.
Record t := {
  burnRate : num;
  liquidityIndex : num;
  categoryTotals : list (TransactionCategory * num);
  timeSeries : list Point.t;
  stats : Stats.t
}.
End WithNumber.
End Insights.

Section Analytics.
Context {N : Number}.
Local Open Scope num_scope.

(** [array.sort(compare)] is stable: for a consistent comparison its result
    is the one permutation that is sorted and keeps equal elements in their
    order.  [after a b] is [compare(a, b) > 0]. *)
Fixpoint place {A} (after : A -> A -> bool) (x : A) (l : list A) : list A :=
  match l with
  | [] => [x]
  | y :: l' => if after x y then y :: place after x l' else x :: l
  end.

Definition sorted {A} (after : A -> A -> bool) (l : list A) : list A :=
  foldr (place after) [] l.

(** [(a, b) => a.timestamp - b.timestamp] *)
Definition by_timestamp (a b : Transaction.t) : bool :=
  (Transaction.timestamp a - Transaction.timestamp b >? 0)%Z.

(** [(a, b) => a - b] *)
Definition by_value (a b : num) : bool := (a ⊖ b) >.? zero.

(** The reducer of [timeSeries]; [acc.push(p)] adds [p] at the end. *)
Definition push_point (acc : list Point.t) (tx : Transaction.t) : list Point.t :=
  let lastBalance :=
    match last acc with Some p => Point.balance p | None => zero end in
  let newBalance :=
    if bool_decide (Transaction.type tx = CREDIT)
    then lastBalance ⊕ Transaction.amount tx
    else lastBalance ⊖ Transaction.amount tx in
  acc ++ [{| Point.timestamp := Transaction.timestamp tx;
             Point.balance := newBalance;
             Point.date := toLocaleDateString (Transaction.timestamp tx) |}].

(** [[...transactions].sort(...).reduce(..., [])], on the elements. *)
Definition timeSeries (transactions : list Transaction.t) : list Point.t :=
  fold_left push_point (sorted by_timestamp transactions) [].

(** [acc[category] = (acc[category] || 0) + amount], on an object whose keys
    are kept in the order they were added. *)
Fixpoint bump (category : TransactionCategory) (amount : num)
    (acc : list (TransactionCategory * num)) : list (TransactionCategory * num) :=
  match acc with
  | [] => [(category, zero ⊕ amount)]
  | (c, v) :: acc' =>
      if bool_decide (c = category)
      then (c, (if truthy v then v else zero) ⊕ amount) :: acc'
      else (c, v) :: bump category amount acc'
  end.

Definition categoryTotals (debits : list Transaction.t)
  : list (TransactionCategory * num) :=
  fold_left (fun acc t => bump (Transaction.category t) (Transaction.amount t) acc)
    debits [].

(** [Math.min(...timestamps)], for a list that is not empty. *)
Definition Math_min (timestamps : list Z) : Z :=
  match timestamps with
  | [] => 0
  | t :: l => fold_left Z.min l t
  end.

Definition totalDebits_of (debits : list Transaction.t) : num :=
  fold_left (fun sum t => sum ⊕ Transaction.amount t) debits zero.

(** [now] stands for both readings of [Date.now()]: the first is in a branch
    that is not taken, as [timestamps] is not empty where this is used. *)
Definition burnRate (debits : list Transaction.t) (timestamps : list Z) (now : Z)
  : num :=
  let firstTx := if (0 <? length timestamps)%nat then Math_min timestamps else now in
  let daysSinceStart :=
    max one (of_Z (now - firstTx) ⊘ of_Z (1000 * 60 * 60 * 24)) in
  totalDebits_of debits ⊘ daysSinceStart.

Definition liquidityIndex (balance burnRate : num) : num :=
  if (balance >.? zero) && (burnRate >.? zero) then balance ⊘ burnRate else zero.

Definition count (amounts : list num) : num := of_Z (Z.of_nat (length amounts)).

Definition mean (amounts : list num) : num :=
  fold_left add amounts zero ⊘ count amounts.

(** [sortedAmounts[i]]; every index used below is within the array. *)
Definition at_index (l : list num) (i : nat) : num := default zero (l !! i).

Definition median (sortedAmounts : list num) : num :=
  let n := length sortedAmounts in
  if (n mod 2 =? 0)%nat
  then (at_index sortedAmounts (n / 2 - 1) ⊕ at_index sortedAmounts (n / 2))
       ⊘ of_Z 2
  else at_index sortedAmounts (n / 2).

(** [Math.pow(amt - mean, 2)] is taken to be the product of the difference
    with itself. *)
Definition variance (amounts : list num) : num :=
  let m := mean amounts in
  fold_left (fun acc amt => acc ⊕ (amt ⊖ m) ⊗ (amt ⊖ m)) amounts zero
  ⊘ count amounts.

(** *** The arrays of the engine

    An array is an object: [sort] changes it in place, and [filter], [map]
    and the spread [[...a]] make a new one.  The heap maps references to the
    arrays they denote; the argument [transactions] of the component is a
    reference into it. *)
Inductive Array :=
| TxArray (l : list Transaction.t)
| NumArray (l : list num)
| TimeArray (l : list Z).

Definition Mem (A : Type) : Type := Run (gmap nat Array) A.

Local Open Scope js_scope.

Definition alloc (a : Array) : Mem nat :=
  fun h => let r := fresh (dom h) in Return r (<[r := a]> h).

Definition store (r : nat) (a : Array) : Mem unit :=
  fun h => Return tt (<[r := a]> h).

Definition deref (r : nat) : Mem Array :=
  fun h => match h !! r with
           | Some a => Return a h
           | None => Throw TypeError h
           end.

Definition txs_at (r : nat) : Mem (list Transaction.t) :=
  a <- deref r;; if a is TxArray l then ret l else throw TypeError.

Definition nums_at (r : nat) : Mem (list num) :=
  a <- deref r;; if a is NumArray l then ret l else throw TypeError.

Definition times_at (r : nat) : Mem (list Z) :=
  a <- deref r;; if a is TimeArray l then ret l else throw TypeError.

(** [a.filter(p)] *)
Definition Array_filter (p : Transaction.t -> bool) (r : nat) : Mem nat :=
  l <- txs_at r;; alloc (TxArray (List.filter p l)).

(** [a.map(t => t.timestamp)] and [a.map(t => t.amount)] *)
Definition Array_timestamps (r : nat) : Mem nat :=
  l <- txs_at r;; alloc (TimeArray (map Transaction.timestamp l)).

Definition Array_amounts (r : nat) : Mem nat :=
  l <- txs_at r;; alloc (NumArray (map Transaction.amount l)).

(** [[...a]] *)
Definition spread (r : nat) : Mem nat := a <- deref r;; alloc a.

(** [a.sort(compare)] sorts [a] itself and returns it. *)
Definition Array_sort_txs (after : Transaction.t -> Transaction.t -> bool)
    (r : nat) : Mem nat :=
  l <- txs_at r;; store r (TxArray (sorted after l));;; ret r.

Definition Array_sort_nums (after : num -> num -> bool) (r : nat) : Mem nat :=
  l <- nums_at r;; store r (NumArray (sorted after l));;; ret r.

(** The body of [useMemo]: [transactions] is the reference the component
    receives, [now] the value of [Date.now()]; [None] is [null]. *)
Definition insights (transactions : nat) (balance : num) (now : Z)
  : Mem (option Insights.t) :=
  txs <- txs_at transactions;;
  if (length txs =? 0)%nat then ret None
  else
    debits <- Array_filter (fun t => bool_decide (Transaction.type t = DEBIT))
                transactions;;
    debits_ <- txs_at debits;;
    timestamps <- Array_timestamps transactions;;
    timestamps_ <- times_at timestamps;;
    let burnRate := burnRate debits_ timestamps_ now in
    let liquidityIndex := liquidityIndex balance burnRate in
    let categoryTotals := categoryTotals debits_ in
    copy <- spread transactions;;
    sortedTxs <- Array_sort_txs by_timestamp copy;;
    sortedTxs_ <- txs_at sortedTxs;;
    let timeSeries := fold_left push_point sortedTxs_ [] in
    amounts <- Array_amounts transactions;;
    amounts_ <- nums_at amounts;;
    let mean := mean amounts_ in
    copy' <- spread amounts;;
    sortedAmounts <- Array_sort_nums by_value copy';;
    sortedAmounts_ <- nums_at sortedAmounts;;
    let median := median sortedAmounts_ in
    let stdDev := sqrt (variance amounts_) in
    ret (Some {|
      Insights.burnRate := burnRate;
      Insights.liquidityIndex := liquidityIndex;
      Insights.categoryTotals := categoryTotals;
      Insights.timeSeries := timeSeries;
      Insights.stats := {|
        Stats.mean := mean;
        Stats.median := median;
        Stats.stdDev := stdDev;
        Stats.transactionCount := length txs
      |}
    |}).

(** What [insights] computes, as a function of the elements of
    [transactions]. *)
Definition insights_of (txs : list Transaction.t) (balance : num) (now : Z)
  : option Insights.t :=
  if (length txs =? 0)%nat then None
  else
    let debits := List.filter (fun t => bool_decide (Transaction.type t = DEBIT)) txs in
    let amounts := map Transaction.amount txs in
    let rate := burnRate debits (map Transaction.timestamp txs) now in
    Some {|
      Insights.burnRate := rate;
      Insights.liquidityIndex := liquidityIndex balance rate;
      Insights.categoryTotals := categoryTotals debits;
      Insights.timeSeries := timeSeries txs;
      Insights.stats := {|
        Stats.mean := mean amounts;
        Stats.median := median (sorted by_value amounts);
        Stats.stdDev := sqrt (variance amounts);
        Stats.transactionCount := length txs
      |}
    |}.

End Analytics.

(** ** Runs of the service *)

Section Runs.
Context {N : Number}.

(** A call of the service, with what it reads from the host. *)
Inductive Call :=
| SignupCluster (familyId handle pass : string) (now : Z)
| ProvisionMember (session : Session.t) (username pass random : string)
| Login (familyId handle pass : string) (now_token now_exp : Z)
| GetUsers
| GetTransactions
| GetRequests
| GetMessages
| SendMessage (session : Session.t) (text : string) (toId : option string)
    (now_id now_timestamp : Z)
| SaveTransaction (session : Session.t) (tx : Transaction.t)
| CreateRequest (session : Session.t) (amount : num) (reason : string)
    (now_id now_timestamp : Z)
| UpdateRequestStatus (session : Session.t) (requestId : string)
    (status : RequestStatus)
| GetStoredSession (now : Z)
| Logout
| GetOnboardingStatus (userId : string)
| SetOnboardingStatus (userId : string).

(** The storage a call leaves. *)
Definition perform (c : Call) (ls : gmap string Item) : gmap string Item :=
  match c with
  | SignupCluster f h p now => state_of (signupCluster f h p now ls)
  | ProvisionMember s u p r => state_of (provisionMember s u p r ls)
  | Login f h p t e => state_of (login f h p t e ls)
  | GetUsers => state_of (getUsers ls)
  | GetTransactions => state_of (getTransactions ls)
  | GetRequests => state_of (getRequests ls)
  | GetMessages => state_of (getMessages ls)
  | SendMessage s t to i n => state_of (sendMessage s t to i n ls)
  | SaveTransaction s tx => state_of (saveTransaction s tx ls)
  | CreateRequest s a r i n => state_of (createRequest s a r i n ls)
  | UpdateRequestStatus s i st => state_of (updateRequestStatus s i st ls)
  | GetStoredSession now => state_of (getStoredSession now ls)
  | Logout => state_of (logout ls)
  | GetOnboardingStatus u => state_of (getOnboardingStatus u ls)
  | SetOnboardingStatus u => state_of (setOnboardingStatus u ls)
  end.

Definition run (calls : list Call) (ls : gmap string Item) : gmap string Item :=
  fold_left (fun ls c => perform c ls) calls ls.

(** The identities under [USERS_KEY]. *)
Definition stored_users (ls : gmap string Item) : list User.t :=
  match ls !! USERS_KEY with Some (Users l) => l | _ => [] end.

(** A session as [login] makes it from a stored identity. *)
Definition issued (ls : gmap string Item) (session : Session.t) : Prop :=
  exists u, u ∈ stored_users ls /\
    Session.userId session = User.id u /\
    Session.familyId session = User.familyId u /\
    Session.role session = User.role u.

(** The sessions of the calls of [provisionMember] in a run were issued by
    [login] on the storage of the time. *)
Fixpoint sessions_issued (calls : list Call) (ls : gmap string Item) : Prop :=
  match calls with
  | [] => True
  | c :: calls' =>
      match c with
      | ProvisionMember session _ _ _ => issued ls session
      | _ => True
      end /\ sessions_issued calls' (perform c ls)
  end.

(** What [JSON.parse] makes of a text, read at the type [shape] selects. *)
Definition parsed {A} (shape : Item -> option A) (text : Item) : Exception + A :=
  match text with
  | Malformed _ => inl SyntaxError
  | _ => match shape text with
         | Some a => inr a
         | None => inl TypeError
         end
  end.

(** The keys of the five collections. *)
Definition fixed_keys : list string :=
  [USERS_KEY; TRANSACTIONS_KEY; REQUESTS_KEY; MESSAGES_KEY; SESSION_KEY].

(** The keys a call may write. *)
Definition written (c : Call) : list string :=
  match c with
  | SignupCluster _ _ _ _ | ProvisionMember _ _ _ _ => [USERS_KEY]
  | Login _ _ _ _ _ | GetStoredSession _ | Logout => [SESSION_KEY]
  | SendMessage _ _ _ _ _ => [MESSAGES_KEY]
  | SaveTransaction _ _ => [TRANSACTIONS_KEY]
  | CreateRequest _ _ _ _ _ | UpdateRequestStatus _ _ _ => [REQUESTS_KEY]
  | SetOnboardingStatus u => [onboarded_key u]
  | GetUsers | GetTransactions | GetRequests | GetMessages
  | GetOnboardingStatus _ => []
  end.

(** [s.trim().toLowerCase()] *)
Definition normalize (s : string) : string := toLowerCase (trim s).

(** The pair [find] compares in [signupCluster] and [provisionMember]. *)
Definition stored_key (u : User.t) : string * string :=
  (User.familyId u, User.username u).

(** [(clusterId, displayHandle)] after trimming and case folding, for the
    handle as it is compared ([username]) and as it was typed ([name]). *)
Definition handle_key (u : User.t) : string * string :=
  (normalize (User.familyId u), normalize (User.username u)).

Definition name_key (u : User.t) : string * string :=
  (normalize (User.familyId u), normalize (User.name u)).

End Runs.

(** ** The invariant of the registry *)

Section Registry.
Context {N : Number}.

(** An identity whose cluster id and handle are stored trimmed and in lower
    case, the handle being the name it was given under. *)
Definition normalized_user (u : User.t) : Prop :=
  normalize (User.familyId u) = User.familyId u /\
  normalize (User.username u) = User.username u /\
  User.username u = normalize (User.name u).

(** [USERS_KEY] is absent or holds a list of identities. *)
Definition registry_shape (ls : gmap string Item) : Prop :=
  ls !! USERS_KEY = None \/ exists us, ls !! USERS_KEY = Some (Users us).

(** The identities are stored normalized, and no two of them have the same
    cluster id and handle. *)
Definition registry_ok (ls : gmap string Item) : Prop :=
  registry_shape ls /\
  Forall normalized_user (stored_users ls) /\
  NoDup (stored_key <$> stored_users ls).

End Registry.

(** ** The points of a series *)

Section Series.
Context {N : Number}.

(** The point for the transaction at index [i] of [l]: its balance is the
    fold of the balance over the transactions up to it. *)
Definition point_at (l : list Transaction.t) (i : nat) (tx : Transaction.t)
  : Point.t := {|
  Point.timestamp := Transaction.timestamp tx;
  Point.balance := fold_left apply_tx (take (S i) l) zero;
  Point.date := toLocaleDateString (Transaction.timestamp tx)
|}.

(** Transactions in ascending order of time. *)
Definition ascending (l : list Transaction.t) : Prop :=
  StronglySorted
    (fun a b => (Transaction.timestamp a <= Transaction.timestamp b)%Z) l.

(** The transactions of a list made at time [t], in their order. *)
Definition made_at (t : Z) (l : list Transaction.t) : list Transaction.t :=
  List.filter (fun x => (Transaction.timestamp x =? t)%Z) l.

End Series.

(** ** Invocations of the engine *)

Section Invocations.
Context {N : Number}.

(** The heap after the engine has run once for each reading of the clock in
    [clock], on the same argument. *)
Fixpoint invoked (clock : list Z) (transactions : nat) (balance : num)
    (h : gmap nat Array) : gmap nat Array :=
  match clock with
  | [] => h
  | now :: clock' =>
      invoked clock' transactions balance
        (state_of (insights transactions balance now h))
  end.

End Invocations.

(** ** Sample data

    A cluster [fam1] with its host alice and a member bob, on the numbers of
    the host ([binary64]). *)

(** Transactions for the samples: only the owner, the kind, the amount and
    the time differ. *)
Definition tx_of {N : Number} (userId : string) (kind : TransactionType)
    (amount : num) (timestamp : Z) : Transaction.t := {|
  Transaction.id := "tx_" +:+ pretty timestamp;
  Transaction.userId := userId;
  Transaction.amount := amount;
  Transaction.type := kind;
  Transaction.category := OTHER;
  Transaction.description := "";
  Transaction.timestamp := timestamp
|}.

Definition alice_session : @Session.t := {|
  Session.token := btoa "u_1:1000";
  Session.userId := "u_1";
  Session.familyId := "fam1";
  Session.role := HOST;
  Session.exp := 86401000;
  Session.cloudSync := None
|}.

Definition bob_session : @Session.t := {|
  Session.token := btoa "u_bob:2000";
  Session.userId := "u_bob";
  Session.familyId := "fam1";
  Session.role := MEMBER;
  Session.exp := 86402000;
  Session.cloudSync := None
|}.

(** A storage whose only content is bob's session. *)
Definition bob_logged_in : gmap string (@Item binary64) :=
  {[ SESSION_KEY := SessionDoc bob_session ]}.

(** A storage whose medium is corrupted under [key]. *)
Definition corrupted (key : string) : gmap string (@Item binary64) :=
  {[ key := Malformed "[{oops" ]}.

(** A debit of bob's with a negative amount, and a request already approved. *)
Definition bob_refund : @Transaction.t binary64 := {|
  Transaction.id := "tx_3000";
  Transaction.userId := "u_bob";
  Transaction.amount := (-5)%float;
  Transaction.type := DEBIT;
  Transaction.category := OTHER;
  Transaction.description := "refund";
  Transaction.timestamp := 3000
|}.

Definition approved_request : @MoneyRequest.t binary64 := {|
  MoneyRequest.id := "req_4000";
  MoneyRequest.childId := "u_bob";
  MoneyRequest.amount := 500%float;
  MoneyRequest.reason := "books";
  MoneyRequest.status := APPROVED;
  MoneyRequest.timestamp := 4000
|}.

Definition one_approved : gmap string (@Item binary64) :=
  {[ REQUESTS_KEY := Requests [approved_request] ]}.

(** The request [createRequest] makes for bob at time 5000, for -5. *)
Definition negative_request : @MoneyRequest.t binary64 := {|
  MoneyRequest.id := "req_5000";
  MoneyRequest.childId := "u_bob";
  MoneyRequest.amount := (-5)%float;
  MoneyRequest.reason := "books";
  MoneyRequest.status := PENDING;
  MoneyRequest.timestamp := 5000
|}.

(** Scenario 5 of the specification: a credit of 1000, then debits of 300
    and 200. *)
Definition scenario5 : list (@Transaction.t binary64) :=
  [@tx_of binary64 "u_bob" CREDIT 1000%float 1;
   @tx_of binary64 "u_bob" DEBIT 300%float 2;
   @tx_of binary64 "u_bob" DEBIT 200%float 3].

(** Transactions of two identities: a credit of 100 of bob's and a credit of
    50 of carol's. *)
Definition shared : list (@Transaction.t binary64) :=
  [@tx_of binary64 "u_bob" CREDIT 100%float 1;
   @tx_of binary64 "u_carol" CREDIT 50%float 2].

#[local] Set Warnings "-inexact-float".

(** Three credits of bob's, of 0.1, 0.2 and 0.3, in the order of their times
    and in the order [saveTransaction] stores them (the latest first). *)
Definition tenths : list (@Transaction.t binary64) :=
  [@tx_of binary64 "u_bob" CREDIT 0.1%float 1; @tx_of binary64 "u_bob" CREDIT 0.2%float 2;
   @tx_of binary64 "u_bob" CREDIT 0.3%float 3].

Definition tenths_stored : list (@Transaction.t binary64) :=
  [@tx_of binary64 "u_bob" CREDIT 0.3%float 3; @tx_of binary64 "u_bob" CREDIT 0.2%float 2;
   @tx_of binary64 "u_bob" CREDIT 0.1%float 1].

(** A credit of 0.1, a debit of 0.3 and a credit of 0.2. *)
Definition mixed : list (@Transaction.t binary64) :=
  [@tx_of binary64 "u_bob" CREDIT 0.1%float 1; @tx_of binary64 "u_bob" DEBIT 0.3%float 2;
   @tx_of binary64 "u_bob" CREDIT 0.2%float 3].

#[local] Set Warnings "+inexact-float".

(** A heap with one array: a debit of 200 of bob's, made at time 0. *)
Definition spending : gmap nat (@Array binary64) :=
  {[ 0%nat := TxArray [@tx_of binary64 "u_bob" DEBIT 200%float 0] ]}.

(** The burn rate and the liquidity index an invocation returns. *)
Definition rates_of (c : Completion (gmap nat (@Array binary64)) (option Insights.t))
  : option (float * float) :=
  match c with
  | Return (Some i) _ => Some (Insights.burnRate i, Insights.liquidityIndex i)
  | _ => None
  end.

(** Alice signs up for the cluster fam1 (as [" Fam1"], ["Alice "]) at time 1,
    and provisions bob with the session [login] gives her. *)
Definition alice : User.t := {|
  User.id := "u_1";
  User.familyId := "fam1";
  User.name := "Alice ";
  User.username := "alice";
  User.password := Some "pw";
  User.role := HOST;
  User.parentId := None;
  User.isActive := true
|}.

Definition registration : list (@Call binary64) :=
  [SignupCluster " Fam1" "Alice " "pw" 1;
   ProvisionMember alice_session "Bob" "pw2" "k3x9"].

(** ** The component's state and forms ([src/App.tsx])

    The collections the component keeps ([users], [txs], [reqs], [msgs]),
    the views it derives from them, and what the handlers of its buttons do
    to [localStorage].  The number a form field parses to ([parseFloat]) is
    an argument of the handler; the resets of the form fields are left out,
    the toast a handler sets is its value. *)

Module Cluster.
Section WithNumber.
Context {N : Number}.
Record t := {
  users : list User.t;
  txs : list Transaction.t;
  reqs : list MoneyRequest.t;
  msgs : list FamilyMessage.t
}.
End WithNumber.
End Cluster.

Inductive ToastType := ToastSuccess | ToastError | ToastInfo.

Section Application.
Context {N : Number}.
Local Open Scope js_scope.

(** [sync]: the four reads are made one after the other ([Promise.all]
    takes their promises), and any rejection is caught and logged. *)
Definition sync (session : option Session.t) (state : Cluster.t) : Js Cluster.t :=
  match session with
  | None => ret state
  | Some session =>
      try_catch
        (u <- getUsers;;
         t <- getTransactions;;
         r <- getRequests;;
         m <- getMessages;;
         ret {|
           Cluster.users :=
             List.filter
               (fun user => (User.familyId user =? Session.familyId session)%string) u;
           Cluster.txs := t;
           Cluster.reqs := r;
           Cluster.msgs :=
             List.filter
               (fun msg => (FamilyMessage.familyId msg =? Session.familyId session)%string)
               m
         |})
        (ret state)
  end.

(** [filteredMsgs] *)
Definition filteredMsgs (msgs : list FamilyMessage.t) (msgTarget : string)
    (session : option Session.t) : list FamilyMessage.t :=
  match session with
  | None => []
  | Some session =>
      List.filter
        (fun m =>
           if (msgTarget =? "cluster")%string
           then (FamilyMessage.toId m =? "cluster")%string
           else ((FamilyMessage.fromId m =? Session.userId session)%string
                 && (FamilyMessage.toId m =? msgTarget)%string)
                || ((FamilyMessage.fromId m =? msgTarget)%string
                    && (FamilyMessage.toId m =? Session.userId session)%string))
        msgs
  end.

(** [reqs.filter(r => session.role === HOST || r.childId === session.userId)],
    the requests listed on the REQUESTS tab. *)
Definition listedRequests (reqs : list MoneyRequest.t) (session : Session.t)
  : list MoneyRequest.t :=
  List.filter
    (fun r => bool_decide (Session.role session = HOST)
              || (MoneyRequest.childId r =? Session.userId session)%string)
    reqs.

(** [Object.values(categoryTotals).reduce((a, b) => a + b, 0)] *)
Definition totalSpending (categoryTotals : list (TransactionCategory * num)) : num :=
  fold_left add (snd <$> categoryTotals) zero.

(** The button 'Commit Log' of the debit form; [a] is
    [parseFloat(spendForm.amt)]. *)
Definition commitLog (session : Session.t) (a : num) (desc : string)
    (cat : TransactionCategory) (now_id now_timestamp : Z)
  : Js (option (string * ToastType)) :=
  if negb (truthy a) || (desc =? "")%string then
    ret (Some ("Invalid Data", ToastError))
  else
    saveTransaction session {|
      Transaction.id := "tx_" +:+ pretty now_id;
      Transaction.userId := Session.userId session;
      Transaction.amount := a;
      Transaction.type := DEBIT;
      Transaction.category := cat;
      Transaction.description := desc;
      Transaction.timestamp := now_timestamp
    |};;;
    ret (Some ("Ledger Record Post Successful", ToastSuccess)).

(** The button 'Credit Node' of a member's card; [a] is
    [parseFloat(provisionForm.amt)], [memberId] and [desc] are the fields of
    [provisionForm]. *)
Definition creditNode (session : Session.t) (member : User.t) (memberId : string)
    (a : num) (desc : string) (now_id now_timestamp : Z)
  : Js (option (string * ToastType)) :=
  if negb (truthy a) || negb (memberId =? User.id member)%string then ret None
  else
    saveTransaction session {|
      Transaction.id := "tx_prov_" +:+ pretty now_id;
      Transaction.userId := User.id member;
      Transaction.amount := a;
      Transaction.type := CREDIT;
      Transaction.category := GIFT;
      Transaction.description := desc;
      Transaction.timestamp := now_timestamp
    |};;;
    ret (Some ("Capital Injection Successful", ToastSuccess)).

(** The button 'Dispatch Request'; [a] is [parseFloat(reqForm.amt)]. *)
Definition dispatchRequest (session : Session.t) (a : num) (reason : string)
    (now_id now_timestamp : Z) : Js (option (string * ToastType)) :=
  if negb (truthy a) || (reason =? "")%string then ret None
  else
    createRequest session a reason now_id now_timestamp;;;
    ret (Some ("Allocation Request Dispatched", ToastSuccess)).

(** The credit the button 'Approve' records. *)
Definition ratified (req : MoneyRequest.t) (now_id now_timestamp : Z)
  : Transaction.t := {|
  Transaction.id := "tx_appr_" +:+ pretty now_id;
  Transaction.userId := MoneyRequest.childId req;
  Transaction.amount := MoneyRequest.amount req;
  Transaction.type := CREDIT;
  Transaction.category := GIFT;
  Transaction.description := "Funding Ratified: " +:+ MoneyRequest.reason req;
  Transaction.timestamp := now_timestamp
|}.

(** The button 'Approve' of a listed request. *)
Definition approve (session : Session.t) (req : MoneyRequest.t)
    (now_id now_timestamp : Z) : Js (option (string * ToastType)) :=
  updateRequestStatus session (MoneyRequest.id req) APPROVED;;;
  saveTransaction session (ratified req now_id now_timestamp);;;
  ret (Some ("Capital Ratified", ToastSuccess)).

(** The button 'Veto' of a listed request. *)
Definition veto (session : Session.t) (req : MoneyRequest.t)
  : Js (option (string * ToastType)) :=
  updateRequestStatus session (MoneyRequest.id req) REJECTED;;;
  ret (Some ("Allocation Vetoed", ToastInfo)).

(** The button 'Send' (and the Enter key) of the message box. *)
Definition transmit (session : Session.t) (msgInput msgTarget : string)
    (now_id now_timestamp : Z) : Js unit :=
  if (trim msgInput =? "")%string then ret tt
  else
    sendMessage session msgInput (Some msgTarget) now_id now_timestamp;;;
    ret tt.

(** [mBal], on a member's card and in the total of the registry:
    [txs.filter(t => t.userId === member.id).reduce(...)]. *)
Definition mBal (txs : list Transaction.t) (member : User.t) : num :=
  fold_left apply_tx (memberTxs txs (User.id member)) zero.

(** 'Total Cluster Liquidity':
    [users.filter(u => u.role === MEMBER).reduce((total, member) => total + mBal, 0)] *)
Definition clusterLiquidity (users : list User.t) (txs : list Transaction.t) : num :=
  fold_left (fun total member => total ⊕ mBal txs member)%num
    (List.filter (fun u => bool_decide (User.role u = MEMBER)) users) zero.

End Application.

(** ** Whole amounts

    Sums and differences of the numbers of the host do not round as long
    as the operands and the result are whole numbers below 2^53 in
    magnitude.  [Z_of_float x] is the whole number a finite [x] denotes (the
    mantissa shifted by the exponent, for any other finite [x]); [whole x]
    says that [x] is the number of the host for it (so [x] is neither [-0]
    nor infinite nor NaN nor fractional); [whole_amounts txs] says that the
    amounts of [txs] are whole and that their absolute values add up to
    less than 2^53. *)
Definition Z_of_float (x : float) : Z :=
  match Prim2SF x with
  | S754_finite s m e => cond_Zopp s (Z.shiftl (Z.pos m) e)
  | _ => 0
  end.

Definition whole (x : float) : Prop := x = float_of_Z (Z_of_float x).

Definition value (t : @Transaction.t binary64) : Z :=
  Z_of_float (Transaction.amount t).

Definition magnitude (txs : list (@Transaction.t binary64)) : Z :=
  foldr (fun t s => Z.abs (value t) + s) 0 txs.

Definition whole_amounts (txs : list (@Transaction.t binary64)) : Prop :=
  Forall (fun t => whole (Transaction.amount t)) txs /\ magnitude txs < 2 ^ 53.

(** [x] is the number of the host for the whole number [z]. *)
Definition denotes (x : float) (z : Z) : Prop :=
  x = float_of_Z z /\ Z.abs z < 2 ^ 53.

(** What a transaction adds to a balance, and the sums the proofs follow. *)
Definition signed_value (t : @Transaction.t binary64) : Z :=
  if bool_decide (Transaction.type t = CREDIT) then value t else - value t.

Definition net (txs : list (@Transaction.t binary64)) : Z :=
  foldr (fun t s => signed_value t + s) 0 txs.

Definition sum_values (txs : list (@Transaction.t binary64)) : Z :=
  foldr (fun t s => value t + s) 0 txs.

(** The same sums over the members of a registry and over the entries of
    the category totals. *)
Definition members_net (members : list User.t) (txs : list (@Transaction.t binary64))
  : Z :=
  foldr (fun m s => net (memberTxs txs (User.id m)) + s) 0 members.

Definition members_magnitude (members : list User.t)
    (txs : list (@Transaction.t binary64)) : Z :=
  foldr (fun m s => magnitude (memberTxs txs (User.id m)) + s) 0 members.

Definition entries_value (acc : list (TransactionCategory * float)) : Z :=
  foldr (fun e s => Z_of_float e.2 + s) 0 acc.

Definition entries_magnitude (acc : list (TransactionCategory * float)) : Z :=
  foldr (fun e s => Z.abs (Z_of_float e.2) + s) 0 acc.

(** The mantissa [p] shifted to the left by [n] bits, and the form the
    specification of binary64 gives a whole number below 2^53. *)
Definition shl (p : positive) (n : Z) : positive :=
  match n with Z.pos n => Pos.iter xO p n | _ => p end.

Definition canon (z : Z) : spec_float :=
  match z with
  | 0 => S754_zero false
  | Z.pos q =>
      S754_finite false (shl q (53 - Z.pos (digits2_pos q)))
        (Z.pos (digits2_pos q) - 53)
  | Z.neg q =>
      S754_finite true (shl q (53 - Z.pos (digits2_pos q)))
        (Z.pos (digits2_pos q) - 53)
  end.

(** ** Texts of ASCII code units

    [trim] and [toLowerCase] above are those of JavaScript on these. *)
Definition is_ascii (s : string) : bool :=
  forallb (fun c => (nat_of_ascii c <? 128)%nat) (list_ascii_of_string s).

(** The texts a call registers an identity under are ASCII. *)
Definition ascii_call {N : Number} (c : Call) : Prop :=
  match c with
  | SignupCluster familyId handle _ _ =>
      is_ascii familyId = true /\ is_ascii handle = true
  | ProvisionMember _ username _ _ => is_ascii username = true
  | _ => True
  end.

(** A session that [login] has not issued (its cluster id is not in lower
    case), used by a host to provision bob in the cluster where a bob has
    signed up. *)
Definition foreign_session : @Session.t := {|
  Session.token := btoa "u_9:9";
  Session.userId := "u_9";
  Session.familyId := "FAM1";
  Session.role := HOST;
  Session.exp := 86400009;
  Session.cloudSync := None
|}.

(** The member that session provisions. *)
Definition foreign_bob : User.t := {|
  User.id := "u_k3x9";
  User.familyId := "FAM1";
  User.name := "bob";
  User.username := "bob";
  User.password := Some "pw2";
  User.role := MEMBER;
  User.parentId := Some "u_9";
  User.isActive := true
|}.

Definition foreign_run : list (@Call binary64) :=
  [SignupCluster "fam1" "bob" "pw" 1;
   ProvisionMember foreign_session "bob" "pw2" "k3x9"].

(** ** Sample data for the component *)

(** The storage after alice has signed up, and the member she provisions as
    ["Bob"] with the random text k3x9. *)
Definition signed_up : gmap string (@Item binary64) :=
  {[ USERS_KEY := Users [alice] ]}.

Definition bob : User.t := {|
  User.id := "u_k3x9";
  User.familyId := "fam1";
  User.name := "Bob";
  User.username := "bob";
  User.password := Some "pw2";
  User.role := MEMBER;
  User.parentId := Some "u_1";
  User.isActive := true
|}.

(** Carol signs up for the cluster fam2 at time 1, as alice did for fam1. *)
Definition carol : User.t := {|
  User.id := "u_1";
  User.familyId := "fam2";
  User.name := "carol";
  User.username := "carol";
  User.password := Some "pw3";
  User.role := HOST;
  User.parentId := None;
  User.isActive := true
|}.

(** The message bob sends to alice at time 7. *)
Definition note : FamilyMessage.t := {|
  FamilyMessage.id := "msg_7";
  FamilyMessage.familyId := "fam1";
  FamilyMessage.fromId := "u_bob";
  FamilyMessage.fromRole := MEMBER;
  FamilyMessage.toId := "u_1";
  FamilyMessage.text := "hi";
  FamilyMessage.timestamp := 8;
  FamilyMessage.isRead := false;
  FamilyMessage.replyToId := None
|}.

(** The state of a component that has not synchronised yet. *)
Definition unsynchronised : @Cluster.t binary64 := {|
  Cluster.users := []; Cluster.txs := []; Cluster.reqs := []; Cluster.msgs := []
|}.

(** A member whose id is bob's session's, and a debit of 40 of that member. *)
Definition bob_card : User.t := {|
  User.id := "u_bob";
  User.familyId := "fam1";
  User.name := "Bob";
  User.username := "bob";
  User.password := Some "pw2";
  User.role := MEMBER;
  User.parentId := Some "u_1";
  User.isActive := true
|}.

Definition bob_lunch : @Transaction.t binary64 :=
  @tx_of binary64 "u_bob" DEBIT 40%float 4.


(** * Properties *)

(** ** The keys a call writes *)

Section Frames.
Context {N : Number}.

Lemma JSON_parse_eq {A} (shape : Item -> option A) (text : Item)
    (ls : gmap string Item) :
  JSON_parse shape text ls =
  match parsed shape text with
  | inr a => Return a ls
  | inl e => Throw e ls
  end.
Proof.
  unfold JSON_parse, parsed; destruct text; simpl; try done;
    by destruct (shape _).
Qed.

Lemma onboarded_key_inj (a b : string) : onboarded_key a = onboarded_key b -> a = b.
Proof. unfold onboarded_key; simpl; intros H; by simplify_eq. Qed.

Lemma onboarded_key_not_fixed (userId : string) : onboarded_key userId ∉ fixed_keys.
Proof.
  unfold fixed_keys, onboarded_key; simpl.
  rewrite !elem_of_cons, elem_of_nil.
  intros [H|[H|[H|[H|[H|[]]]]]]; discriminate H.
Qed.

(** A call changes the keys it writes only. *)
Lemma perform_frame (c : Call) (ls : gmap string Item) (k : string) :
  k ∉ written c -> perform c ls !! k = ls !! k.
Proof.
  destruct c; unfold perform, written;
    rewrite ?not_elem_of_cons; intros Hk; try destruct Hk as [Hk _];
    unfold signupCluster, provisionMember, login, getUsers, getTransactions,
      getRequests, getMessages, sendMessage, saveTransaction, createRequest,
      updateRequestStatus, getStoredSession, logout, getOnboardingStatus,
      setOnboardingStatus, try_catch, bind, ret, throw, getItem, setItem,
      removeItem;
    rewrite ?JSON_parse_eq;
    repeat (case_match; simplify_eq/=; try done);
    rewrite ?JSON_parse_eq in *;
    repeat (case_match; simplify_eq/=; try done);
    simpl; rewrite ?lookup_insert_ne, ?lookup_delete_ne by (by intros E); done.
Qed.

End Frames.

(** ** The onboarding flags *)

Section Onboarding.
Context {N : Number}.

Lemma flag_after_call (c : Call) (ls : gmap string Item) (userId : string) :
  perform c ls !! onboarded_key userId = Some (Bool true) <->
  ls !! onboarded_key userId = Some (Bool true) \/ c = SetOnboardingStatus userId.
Proof.
  assert ((exists u, c = SetOnboardingStatus u) \/
          ~ (exists u, c = SetOnboardingStatus u)) as [[u ->]|Hc]
    by (destruct c; try (right; intros [? ?]; discriminate); left; eauto).
  - unfold perform, setOnboardingStatus, setItem; simpl.
    destruct (decide (u = userId)) as [->|Hne].
    + rewrite lookup_insert_eq. split; [by right|done].
    + rewrite lookup_insert_ne by (intros E; apply onboarded_key_inj in E; done).
      split; [by left|]. intros [?|[= ?]]; done.
  - rewrite perform_frame.
    + split; [by left|]. intros [?| ->]; [done|]. destruct Hc; eauto.
    + pose proof (onboarded_key_not_fixed userId) as Hfixed.
      unfold fixed_keys in Hfixed. rewrite !not_elem_of_cons in Hfixed.
      destruct Hfixed as (?&?&?&?&?&_).
      destruct c; simpl; rewrite ?not_elem_of_cons; try (split; [done|]);
        try apply not_elem_of_nil.
      destruct Hc; eauto.
Qed.

Lemma flag_after_run (calls : list Call) (ls : gmap string Item) (userId : string) :
  run calls ls !! onboarded_key userId = Some (Bool true) <->
  ls !! onboarded_key userId = Some (Bool true) \/
  SetOnboardingStatus userId ∈ calls.
Proof.
  revert ls; induction calls as [|c calls IH]; intros ls.
  - rewrite elem_of_nil. simpl. tauto.
  - change (run (c :: calls) ls) with (run calls (perform c ls)).
    rewrite IH, flag_after_call, elem_of_cons.
    split; [intros [[?|?]|?]|intros [?|[?|?]]]; auto.
Qed.

Lemma getOnboardingStatus_eq (userId : string) (ls : gmap string Item) :
  exists b, getOnboardingStatus userId ls = Return b ls /\
    (b = true <-> ls !! onboarded_key userId = Some (Bool true)).
Proof.
  unfold getOnboardingStatus, bind, getItem, ret.
  destruct (ls !! onboarded_key userId) as [[| | | | |[]|]|];
    eexists; (split; [reflexivity|]); split; intros; simplify_eq; done.
Qed.

(** C10.  In the initial (empty) storage [getOnboardingStatus] returns
    false; after any run of calls of the service from it,
    [getOnboardingStatus(id)] returns true exactly when
    [setOnboardingStatus(id)] is among the calls made; and
    [setOnboardingStatus(id)] leaves the answer for every other id as it
    was, on any storage. *)
Theorem onboarding_status_round_trip (calls : list Call) (userId : string) :
  getOnboardingStatus userId ∅ = Return false ∅ /\
  (exists b, getOnboardingStatus userId (run calls ∅) = Return b (run calls ∅) /\
     (b = true <-> SetOnboardingStatus userId ∈ calls)) /\
  (forall (other : string) (ls : gmap string Item),
     other <> userId ->
     value_of (getOnboardingStatus other (state_of (setOnboardingStatus userId ls)))
     = value_of (getOnboardingStatus other ls)).
Proof.
  split; [|split].
  - reflexivity.
  - destruct (getOnboardingStatus_eq userId (run calls ∅)) as (b & Hb & Hflag).
    exists b; split; [done|].
    rewrite Hflag, flag_after_run, lookup_empty.
    split; [intros [?|?]; done|by right].
  - intros other ls Hne.
    unfold getOnboardingStatus, setOnboardingStatus, bind, getItem, setItem, ret.
    simpl. rewrite lookup_insert_ne; [done|].
    intros E; apply onboarded_key_inj in E; done.
Qed.

End Onboarding.

(** ** The stored session *)

Section StoredSession.
Context {N : Number}.

Lemma getStoredSession_eq (now : Z) (ls : gmap string Item) :
  getStoredSession now ls =
  match ls !! SESSION_KEY with
  | Some (SessionDoc s) =>
      if (now >? Session.exp s)%Z then Return None (delete SESSION_KEY ls)
      else Return (Some s) ls
  | _ => Return None ls
  end.
Proof.
  unfold getStoredSession, bind, getItem, try_catch, removeItem, ret.
  destruct (ls !! SESSION_KEY) as [[| | | |s| |[|]]|]; simpl; try done.
  by destruct (now >? Session.exp s)%Z.
Qed.

(** C6, as the code has it.  [getStoredSession] never returns a session whose
    [exp] is before [now]: a stored session with [exp < now] is removed from
    the storage and [null] is returned; a stored session with [now <= exp]
    (the instant of expiry included) is returned and stays stored. *)
Theorem getStoredSession_expiry (now : Z) (ls : gmap string Item) :
  (forall s ls', getStoredSession now ls = Return (Some s) ls' ->
     (now <= Session.exp s)%Z /\ ls' = ls /\
     ls !! SESSION_KEY = Some (SessionDoc s)) /\
  (forall s, ls !! SESSION_KEY = Some (SessionDoc s) ->
     (Session.exp s < now)%Z ->
     getStoredSession now ls = Return None (delete SESSION_KEY ls)) /\
  (forall s, ls !! SESSION_KEY = Some (SessionDoc s) ->
     (now <= Session.exp s)%Z ->
     getStoredSession now ls = Return (Some s) ls).
Proof.
  rewrite getStoredSession_eq. split; [|split].
  - intros s ls' H.
    destruct (ls !! SESSION_KEY) as [[| | | |s0| |]|]; try discriminate H.
    destruct (Z.gtb_spec now (Session.exp s0)); simplify_eq. split; [lia|done].
  - intros s -> Hlt. destruct (Z.gtb_spec now (Session.exp s)); [done|lia].
  - intros s -> Hle. destruct (Z.gtb_spec now (Session.exp s)); [lia|done].
Qed.

End StoredSession.

(** C6, as the claim has it, fails at the instant of expiry: with
    [exp = now] the stored session is returned, and nothing is removed. *)
Lemma getStoredSession_at_expiry :
  (Session.exp bob_session <= 86402000)%Z /\
  getStoredSession 86402000 bob_logged_in = Return (Some bob_session) bob_logged_in.
Proof. split; [done|]. by rewrite getStoredSession_eq. Qed.

(** ** Reading the collections *)

(** An absent or empty text reads as the empty collection. *)
Lemma missing_read_is_empty {N : Number} (ls : gmap string Item) :
  falsy (ls !! USERS_KEY) = true -> getUsers ls = Return [] ls.
Proof.
  unfold getUsers, bind, getItem.
  destruct (ls !! USERS_KEY) as [[| | | | | |[|]]|]; done.
Qed.

(** C8.  On a medium whose text under the key of a collection is not JSON,
    each of the four reads ends with the [SyntaxError] of [JSON.parse] (its
    promise is rejected) and returns no collection; [getStoredSession], next
    to them, catches the same error and returns [null]. *)
Theorem corrupted_read_rejects :
  getUsers (corrupted USERS_KEY) = Throw SyntaxError (corrupted USERS_KEY) /\
  getTransactions (corrupted TRANSACTIONS_KEY)
    = Throw SyntaxError (corrupted TRANSACTIONS_KEY) /\
  getRequests (corrupted REQUESTS_KEY) = Throw SyntaxError (corrupted REQUESTS_KEY) /\
  getMessages (corrupted MESSAGES_KEY) = Throw SyntaxError (corrupted MESSAGES_KEY) /\
  getStoredSession 0 (corrupted SESSION_KEY) = Return None (corrupted SESSION_KEY).
Proof. repeat split; reflexivity. Qed.

(** ** Recording transactions and requests *)

Section Writes.
Context {N : Number}.

Ltac run_write :=
  unfold saveTransaction, createRequest, updateRequestStatus, getTransactions,
    getRequests, bind, getItem, setItem, ret in *;
  rewrite ?JSON_parse_eq in *.

(** C1, as the code has it.  For a session that owns the transaction or is a
    host's, [saveTransaction] validates nothing: whatever the amount, it
    puts [tx] in front of the stored transactions and returns success with
    [tx]; it never returns an error response, and fails (by rejection, with
    the storage as it was) only when the stored collection cannot be read. *)
Theorem saveTransaction_prepends (session : Session.t) (tx : Transaction.t)
    (ls : gmap string Item) :
  Transaction.userId tx = Session.userId session \/ Session.role session = HOST ->
  (forall txs, getTransactions ls = Return txs ls ->
     saveTransaction session tx ls
     = Return (Success tx) (<[TRANSACTIONS_KEY := Transactions (tx :: txs)]> ls)) /\
  (forall e, getTransactions ls = Throw e ls ->
     saveTransaction session tx ls = Throw e ls) /\
  (forall msg ls', saveTransaction session tx ls <> Return (Failure msg) ls').
Proof.
  intros _. run_write.
  destruct (parsed _ _) as [e|txs]; simpl; repeat split; intros; by simplify_eq.
Qed.

(** C5, as the code has it.  For a member's session, [createRequest]
    validates nothing: whatever the amount and the reason, it puts exactly
    one new request in front of the stored ones, with status PENDING, the
    session's identity as [childId], and the amount and reason given, and
    returns success with it; it never returns an error response, and fails
    (by rejection, with the storage as it was) only when the stored
    collection cannot be read. *)
Theorem createRequest_prepends (session : Session.t) (amount : num)
    (reason : string) (now_id now_timestamp : Z) (ls : gmap string Item) :
  Session.role session = MEMBER ->
  let newRequest := {|
    MoneyRequest.id := "req_" +:+ pretty now_id;
    MoneyRequest.childId := Session.userId session;
    MoneyRequest.amount := amount;
    MoneyRequest.reason := reason;
    MoneyRequest.status := PENDING;
    MoneyRequest.timestamp := now_timestamp
  |} in
  (forall rs, getRequests ls = Return rs ls ->
     createRequest session amount reason now_id now_timestamp ls
     = Return (Success newRequest)
         (<[REQUESTS_KEY := Requests (newRequest :: rs)]> ls)) /\
  (forall e, getRequests ls = Throw e ls ->
     createRequest session amount reason now_id now_timestamp ls = Throw e ls) /\
  (forall msg ls',
     createRequest session amount reason now_id now_timestamp ls
     <> Return (Failure msg) ls').
Proof.
  intros _ newRequest. run_write.
  destruct (parsed _ _) as [e|rs]; simpl; repeat split; intros; by simplify_eq.
Qed.

Lemma findIndex_None {A} (p : A -> bool) (l : list A) :
  findIndex p l = None <-> forall x, x ∈ l -> p x = false.
Proof.
  induction l as [|y l IH]; simpl.
  - split; [intros _ x Hx; by apply elem_of_nil in Hx|done].
  - destruct (p y) eqn:Hy.
    + split; [done|]. intros H. specialize (H y (list_elem_of_here _ _)). congruence.
    + rewrite fmap_None, IH. split.
      * intros H x [->|Hx]%elem_of_cons; auto.
      * intros H x Hx. apply H. by apply list_elem_of_further.
Qed.

Lemma findIndex_Some {A} (p : A -> bool) (l : list A) (i : nat) :
  findIndex p l = Some i <->
  exists x, l !! i = Some x /\ p x = true /\
    forall j y, (j < i)%nat -> l !! j = Some y -> p y = false.
Proof.
  revert i; induction l as [|y l IH]; intros i; simpl.
  - split; [done|]. by intros (x & Hx & _).
  - destruct (p y) eqn:Hy.
    + split.
      * intros [= <-]. exists y. split; [done|]. split; [done|]. intros; lia.
      * intros (x & Hx & Hpx & Hfirst). destruct i as [|i]; [done|].
        specialize (Hfirst 0%nat y ltac:(lia) eq_refl). congruence.
    + rewrite fmap_Some. split.
      * intros (i' & Hi' & ->). apply IH in Hi' as (x & Hx & Hpx & Hfirst).
        exists x. split; [done|]. split; [done|].
        intros [|j] z Hj Hz; simplify_eq/=; [done|]. eapply Hfirst; [|done]. lia.
      * intros (x & Hx & Hpx & Hfirst).
        destruct i as [|i]; [simplify_eq/=; congruence|]. simpl in Hx.
        exists i. split; [|done]. apply IH. exists x. split; [done|]. split; [done|].
        intros j z Hj Hz. apply (Hfirst (S j) z); [lia|done].
Qed.

Lemma getRequests_inr (ls : gmap string Item) (rs : list MoneyRequest.t) :
  getRequests ls = Return rs ls ->
  parsed as_requests (or_empty (Requests []) (ls !! REQUESTS_KEY)) = inr rs.
Proof. run_write. destruct (parsed _ _); intros; by simplify_eq. Qed.

(** C2, as the code has it.  [updateRequestStatus] fails with 'Unauthorized.'
    for a session that is not a host's, and with 'Not found.' when no stored
    request has the id; in both cases the storage stays as it was.
    Otherwise it succeeds whatever the current status of the request is:
    the first stored request with the id gets the status given (PENDING,
    APPROVED or REJECTED alike) and nothing else changes.  There is no
    error for a request that is already APPROVED or REJECTED. *)
Theorem updateRequestStatus_overwrites (session : Session.t) (requestId : string)
    (status : RequestStatus) (ls : gmap string Item) :
  (Session.role session <> HOST ->
     updateRequestStatus session requestId status ls
     = Return (Failure "Unauthorized.") ls) /\
  (forall rs, Session.role session = HOST -> getRequests ls = Return rs ls ->
     (forall r, r ∈ rs -> MoneyRequest.id r <> requestId) ->
     updateRequestStatus session requestId status ls
     = Return (Failure "Not found.") ls) /\
  (forall rs idx r, Session.role session = HOST -> getRequests ls = Return rs ls ->
     rs !! idx = Some r -> MoneyRequest.id r = requestId ->
     (forall j r', (j < idx)%nat -> rs !! j = Some r' ->
        MoneyRequest.id r' <> requestId) ->
     updateRequestStatus session requestId status ls
     = Return (Success true)
         (<[REQUESTS_KEY :=
              Requests (<[idx := MoneyRequest.set_status status r]> rs)]> ls)).
Proof.
  split; [|split].
  - intros Hrole. unfold updateRequestStatus.
    by rewrite bool_decide_eq_false_2.
  - intros rs Hrole Hread Hnone. apply getRequests_inr in Hread.
    unfold updateRequestStatus. rewrite bool_decide_eq_true_2 by done. simpl.
    unfold bind, getItem, ret. rewrite JSON_parse_eq, Hread. simpl.
    assert (findIndex (fun r => (MoneyRequest.id r =? requestId)%string) rs = None)
      as ->; [|done].
    apply findIndex_None. intros r Hr. apply String.eqb_neq. by apply Hnone.
  - intros rs idx r Hrole Hread Hidx Hid Hfirst. apply getRequests_inr in Hread.
    unfold updateRequestStatus. rewrite bool_decide_eq_true_2 by done. simpl.
    unfold bind, getItem, setItem, ret. rewrite JSON_parse_eq, Hread. simpl.
    assert (findIndex (fun r => (MoneyRequest.id r =? requestId)%string) rs
            = Some idx) as ->.
    { apply findIndex_Some. exists r. split; [done|].
      split; [by apply String.eqb_eq|].
      intros j y Hj Hy. apply String.eqb_neq. by eapply Hfirst. }
    simpl. do 3 f_equal.
    apply list_eq. intros i. destruct (decide (i = idx)) as [->|Hne].
    + rewrite list_lookup_alter_eq, Hidx. simpl.
      by rewrite list_lookup_insert_eq by (by eapply lookup_lt_Some).
    + by rewrite list_lookup_alter_ne, list_lookup_insert_ne.
Qed.

End Writes.

(** C1, as the claim has it, fails for an amount that is not positive: bob
    records a debit of -5 on his own account, and the call succeeds and
    stores it. *)
Lemma saveTransaction_stores_negative_amount :
  Transaction.userId bob_refund = Session.userId bob_session /\
  (Transaction.amount bob_refund >.? zero)%num = false /\
  saveTransaction bob_session bob_refund ∅
  = Return (Success bob_refund) {[ TRANSACTIONS_KEY := Transactions [bob_refund] ]}.
Proof. repeat split; reflexivity. Qed.

(** Bob's debit of -5, on the empty storage. *)
Lemma saveTransaction_prepends_witness :
  saveTransaction bob_session bob_refund ∅
  = Return (Success bob_refund)
      (<[TRANSACTIONS_KEY := Transactions [bob_refund]]> ∅).
Proof.
  apply (proj1 (saveTransaction_prepends bob_session bob_refund ∅
                  (or_introl eq_refl)) []).
  reflexivity.
Defined.

(** C5, as the claim has it, fails for an amount that is not positive: bob
    asks for -5, and the call succeeds and stores the request. *)
Lemma createRequest_stores_negative_amount :
  Session.role bob_session = MEMBER /\
  (MoneyRequest.amount negative_request >.? zero)%num = false /\
  createRequest bob_session (MoneyRequest.amount negative_request) "books" 5000 5000 ∅
  = Return (Success negative_request) {[ REQUESTS_KEY := Requests [negative_request] ]}.
Proof. repeat split; vm_compute; reflexivity. Qed.

(** Bob's request for -5, on the empty storage. *)
Lemma createRequest_prepends_witness :
  createRequest bob_session (MoneyRequest.amount negative_request) "books" 5000 5000 ∅
  = Return (Success negative_request)
      (<[REQUESTS_KEY := Requests [negative_request]]> ∅).
Proof.
  apply (proj1 (createRequest_prepends bob_session
                  (MoneyRequest.amount negative_request) "books" 5000 5000 ∅
                  eq_refl) []).
  reflexivity.
Defined.

(** C2, as the claim has it, fails for a request that is already APPROVED:
    the host's call to reject it succeeds, and the stored status becomes
    REJECTED. *)
Lemma updateRequestStatus_changes_approved :
  MoneyRequest.status approved_request = APPROVED /\
  updateRequestStatus alice_session "req_4000" REJECTED one_approved
  = Return (Success true)
      {[ REQUESTS_KEY :=
           Requests [MoneyRequest.set_status REJECTED approved_request] ]}.
Proof. split; reflexivity. Qed.

(** ** Normalized handles *)

Lemma is_whitespace_lower (c : ascii) : is_whitespace (lower c) = is_whitespace c.
Proof. destruct c as [[] [] [] [] [] [] [] []]; reflexivity. Qed.

Lemma lower_lower (c : ascii) : lower (lower c) = lower c.
Proof. destruct c as [[] [] [] [] [] [] [] []]; reflexivity. Qed.

Lemma toLowerCase_idemp (s : string) : toLowerCase (toLowerCase s) = toLowerCase s.
Proof. induction s as [|c s IH]; simpl; [done|]. by rewrite lower_lower, IH. Qed.

Lemma trimStart_toLowerCase (s : string) :
  trimStart (toLowerCase s) = toLowerCase (trimStart s).
Proof.
  induction s as [|c s IH]; simpl; [done|].
  rewrite is_whitespace_lower. by destruct (is_whitespace c).
Qed.

Lemma trimEnd_toLowerCase (s : string) :
  trimEnd (toLowerCase s) = toLowerCase (trimEnd s).
Proof.
  induction s as [|c s IH]; simpl; [done|].
  rewrite IH, is_whitespace_lower.
  destruct (trimEnd s); simpl; [by destruct (is_whitespace c)|done].
Qed.

Lemma trimStart_clean (s : string) : starts_clean (trimStart s).
Proof.
  induction s as [|c s IH]; simpl; [done|].
  destruct (is_whitespace c) eqn:Hc; [done|]. exact Hc.
Qed.

Lemma trimStart_of_clean (s : string) : starts_clean s -> trimStart s = s.
Proof. destruct s as [|c s]; simpl; [done|]. by intros ->. Qed.

Lemma trimEnd_clean (s : string) : starts_clean s -> starts_clean (trimEnd s).
Proof.
  destruct s as [|c s]; simpl; [done|]. intros Hc.
  destruct (trimEnd s); simpl; [by rewrite Hc|done].
Qed.

Lemma trimEnd_idemp (s : string) : trimEnd (trimEnd s) = trimEnd s.
Proof.
  induction s as [|c s IH]; simpl; [done|].
  destruct (trimEnd s) as [|c' r] eqn:Hr.
  - destruct (is_whitespace c) eqn:Hc; simpl; [done|]. by rewrite Hc.
  - simpl in *. by rewrite IH.
Qed.

Lemma trim_idemp (s : string) : trim (trim s) = trim s.
Proof.
  unfold trim.
  rewrite (trimStart_of_clean (trimEnd (trimStart s)))
    by apply trimEnd_clean, trimStart_clean.
  apply trimEnd_idemp.
Qed.

Lemma normalize_idemp (s : string) : normalize (normalize s) = normalize s.
Proof.
  unfold normalize, trim.
  by rewrite trimStart_toLowerCase, trimEnd_toLowerCase, toLowerCase_idemp,
    (trim_idemp s : trimEnd (trimStart (trimEnd (trimStart s))) = _).
Qed.

(** ** Uniqueness of identities *)

Section Uniqueness.
Context {N : Number}.

Lemma read_users (ls : gmap string Item) :
  registry_shape ls ->
  parsed as_users (or_empty (Users []) (ls !! USERS_KEY)) = inr (stored_users ls).
Proof. unfold stored_users. by intros [->|[us ->]]. Qed.

Lemma same_handle_true (fid username : string) (u : User.t) :
  same_handle fid username u = true <-> stored_key u = (fid, username).
Proof.
  unfold same_handle, stored_key.
  rewrite andb_true_iff, !String.eqb_eq. split; [by intros [-> ->]|by intros [= -> ->]].
Qed.

Lemma find_same_handle_None (fid username : string) (us : list User.t) :
  List.find (same_handle fid username) us = None <->
  (fid, username) ∉ stored_key <$> us.
Proof.
  rewrite list_elem_of_fmap. split.
  - intros Hnone (u & Hkey & Hu). apply list_elem_of_In in Hu.
    pose proof (find_none _ _ Hnone u Hu) as Hf.
    symmetry in Hkey. apply same_handle_true in Hkey. congruence.
  - intros Hnot. destruct (List.find _ us) as [u|] eqn:Hfind; [|done].
    apply find_some in Hfind as [Hu Hsame]. destruct Hnot.
    exists u. split; [symmetry; by apply same_handle_true|by apply list_elem_of_In].
Qed.

Lemma stored_users_insert (ls : gmap string Item) (us : list User.t) :
  stored_users (<[USERS_KEY := Users us]> ls) = us.
Proof. unfold stored_users. by rewrite lookup_insert_eq. Qed.

(** What a call does to the stored identities: nothing, or it adds one, with
    a pair of cluster id and handle that no stored identity has. *)
Lemma perform_users (c : Call) (ls : gmap string Item) :
  registry_shape ls ->
  registry_shape (perform c ls) /\
  (stored_users (perform c ls) = stored_users ls \/
   exists u, stored_users (perform c ls) = (stored_users ls ++ [u])%list /\
     (stored_key u ∉ stored_key <$> stored_users ls) /\
     normalize (User.username u) = User.username u /\
     User.username u = normalize (User.name u) /\
     match c with
     | ProvisionMember session _ _ _ => User.familyId u = Session.familyId session
     | _ => normalize (User.familyId u) = User.familyId u
     end).
Proof.
  intros Hshape.
  destruct (decide (USERS_KEY ∈ written c)) as [Hw|Hw].
  - destruct c; simpl in Hw; rewrite ?elem_of_cons, ?elem_of_nil in Hw;
      try (by destruct Hw as [Hw|[]]); try (by destruct Hw); clear Hw;
      unfold perform.
    + unfold signupCluster, bind, getItem, setItem, ret.
      rewrite JSON_parse_eq, read_users by done.
      destruct (List.find _ _) as [u|] eqn:Hfind; simpl; [by split; [|left]|].
      unfold registry_shape. rewrite stored_users_insert, lookup_insert_eq.
      split; [right; eauto|]. right. eexists. split; [done|].
      split; [by apply find_same_handle_None|]. simpl.
      split; [apply normalize_idemp|]. split; [done|apply normalize_idemp].
    + unfold provisionMember. destruct (bool_decide _); simpl; [|by split; [|left]].
      unfold bind, getItem, setItem, ret.
      rewrite JSON_parse_eq, read_users by done.
      destruct (List.find _ _) as [u|] eqn:Hfind; simpl; [by split; [|left]|].
      unfold registry_shape. rewrite stored_users_insert, lookup_insert_eq.
      split; [right; eauto|]. right. eexists. split; [done|].
      split; [by apply find_same_handle_None|]. simpl.
      split; [apply normalize_idemp|done].
  - unfold registry_shape, stored_users in *. rewrite perform_frame by done.
    split; [done|by left].
Qed.

(** For any sessions at all, no two stored identities have the same cluster
    id and handle as they are stored. *)
Lemma stored_keys_distinct (calls : list Call) (ls : gmap string Item) :
  registry_shape ls -> NoDup (stored_key <$> stored_users ls) ->
  registry_shape (run calls ls) /\ NoDup (stored_key <$> stored_users (run calls ls)).
Proof.
  revert ls; induction calls as [|c calls IH]; intros ls Hshape Hdup; [done|].
  change (run (c :: calls) ls) with (run calls (perform c ls)).
  destruct (perform_users c ls Hshape) as (Hshape' & [Heq|(u & Heq & Hnew & _)]);
    apply IH; try done; rewrite Heq; [done|].
  rewrite fmap_app. apply NoDup_app. split; [done|]. split; [|apply NoDup_singleton].
  by intros k Hk [->|[]%elem_of_nil]%elem_of_cons.
Qed.

Lemma issued_normalized (ls : gmap string Item) (session : Session.t) :
  registry_ok ls -> issued ls session ->
  normalize (Session.familyId session) = Session.familyId session.
Proof.
  intros (_ & Hnorm & _) (u & Hu & _ & -> & _).
  rewrite Forall_forall in Hnorm. by destruct (Hnorm u Hu).
Qed.

Lemma registry_ok_perform (c : Call) (ls : gmap string Item) :
  registry_ok ls ->
  match c with ProvisionMember session _ _ _ => issued ls session | _ => True end ->
  registry_ok (perform c ls).
Proof.
  intros Hok Hissued. pose proof Hok as (Hshape & Hnorm & Hdup).
  destruct (perform_users c ls Hshape)
    as (Hshape' & [Heq|(u & Heq & Hnew & Hu & Hname & Hfid)]);
    (split; [done|]); rewrite Heq; [done|]. split.
  - apply Forall_app. split; [done|]. apply Forall_singleton.
    split; [|done]. destruct c; try done.
    rewrite Hfid. by eapply issued_normalized.
  - rewrite fmap_app. apply NoDup_app. split; [done|]. split; [|apply NoDup_singleton].
    by intros k Hk [->|[]%elem_of_nil]%elem_of_cons.
Qed.

Lemma registry_ok_run (calls : list Call) (ls : gmap string Item) :
  registry_ok ls -> sessions_issued calls ls -> registry_ok (run calls ls).
Proof.
  revert ls; induction calls as [|c calls IH]; intros ls Hok Hissued; [done|].
  destruct Hissued as [Hc Hrest].
  change (run (c :: calls) ls) with (run calls (perform c ls)).
  apply IH; [|done]. by apply registry_ok_perform.
Qed.

Lemma registry_ok_empty : registry_ok ∅.
Proof.
  unfold registry_ok, stored_users. rewrite lookup_empty.
  split; [by left|]. split; [constructor|]. simpl. constructor.
Qed.

Lemma handle_key_normalized (us : list User.t) :
  Forall normalized_user us -> handle_key <$> us = stored_key <$> us.
Proof.
  induction 1 as [|u us (Hf & Hu & _) _ IH]; [done|].
  rewrite !fmap_cons, IH. f_equal. unfold handle_key, stored_key. by rewrite Hf, Hu.
Qed.

Lemma name_key_normalized (us : list User.t) :
  Forall normalized_user us -> name_key <$> us = stored_key <$> us.
Proof.
  induction 1 as [|u us (Hf & _ & Hn) _ IH]; [done|].
  rewrite !fmap_cons, IH. f_equal. unfold name_key, stored_key. by rewrite Hf, Hn.
Qed.

(** The sessions [login] makes are issued ones, before and after the call. *)
Lemma login_issued (familyId handle pass : string) (now_token now_exp : Z)
    (ls ls' : gmap string Item) (session : Session.t) :
  login familyId handle pass now_token now_exp ls = Return (Success session) ls' ->
  issued ls session /\ issued ls' session.
Proof.
  unfold login, bind, getItem, setItem, ret. rewrite JSON_parse_eq.
  destruct (parsed _ _) as [e|users] eqn:Hparsed; [done|].
  destruct (List.find _ users) as [u|] eqn:Hfind; [|done].
  intros [= <- <-]. apply find_some in Hfind as [Hu _].
  assert (stored_users ls = users) as Hstored.
  { unfold stored_users. destruct (ls !! USERS_KEY) as [[| | | | | |[|]]|];
      simplify_eq/=; try done; by apply elem_of_nil in Hu || destruct Hu. }
  assert (issued ls {|
    Session.token := btoa (User.id u +:+ ":" +:+ pretty now_token);
    Session.userId := User.id u; Session.familyId := User.familyId u;
    Session.role := User.role u; Session.exp := now_exp + SESSION_DURATION;
    Session.cloudSync := None |}) as Hissued.
  { exists u. rewrite Hstored. split; [by apply list_elem_of_In|done]. }
  split; [done|]. destruct Hissued as (v & Hv & ?). exists v. split; [|done].
  unfold stored_users in *. by rewrite lookup_insert_ne.
Qed.

(** C3.  After any run of calls of the service from the empty storage in
    which every session given to [provisionMember] was issued by [login]
    and the cluster ids and handles given are ASCII texts, no two stored
    identities have the same cluster id and handle after trimming and case
    folding (for the handle as stored in [username], and as typed, in
    [name]).  On such a storage a call of [signupCluster], or of
    [provisionMember] by a host, for a cluster id and handle that a stored
    identity already has fails with the error for a handle already
    provisioned, and leaves the storage as it was. *)
Theorem identities_unique (calls : list Call) :
  sessions_issued calls ∅ ->
  Forall ascii_call calls ->
  let ls := run calls ∅ in
  (NoDup (handle_key <$> stored_users ls) /\
   NoDup (name_key <$> stored_users ls)) /\
  (forall familyId handle pass now u,
     is_ascii familyId = true -> is_ascii handle = true ->
     u ∈ stored_users ls ->
     handle_key u = (normalize familyId, normalize handle) ->
     signupCluster familyId handle pass now ls
     = Return (Failure "Identity handle already provisioned in this cluster.") ls) /\
  (forall session username pass random u,
     is_ascii username = true ->
     Session.role session = HOST -> issued ls session ->
     u ∈ stored_users ls ->
     handle_key u = (normalize (Session.familyId session), normalize username) ->
     provisionMember session username pass random ls
     = Return (Failure "Member handle already provisioned.") ls).
Proof.
  intros Hissued _ ls.
  assert (registry_ok ls) as Hok by (apply registry_ok_run; [apply registry_ok_empty|done]).
  pose proof Hok as (Hshape & Hnorm & Hdup).
  assert (forall u fid username, u ∈ stored_users ls ->
            handle_key u = (fid, username) ->
            exists v, List.find (same_handle fid username) (stored_users ls) = Some v)
    as Hfound.
  { intros u fid username Hu Hkey.
    destruct (List.find _ _) as [v|] eqn:Hfind; [eauto|].
    apply find_same_handle_None in Hfind. destruct Hfind.
    apply list_elem_of_fmap. exists u. split; [|done].
    rewrite Forall_forall in Hnorm. destruct (Hnorm u Hu) as (Hf & Hn & _).
    unfold handle_key in Hkey. unfold stored_key. congruence. }
  split; [|split].
  - by rewrite handle_key_normalized, name_key_normalized.
  - intros familyId handle pass now u _ _ Hu Hkey.
    destruct (Hfound _ _ _ Hu Hkey) as [v Hv].
    unfold signupCluster, bind, getItem, ret.
    rewrite JSON_parse_eq, read_users by done. fold (normalize familyId).
    fold (normalize handle). by rewrite Hv.
  - intros session username pass random u _ Hrole Hsess Hu Hkey.
    rewrite (issued_normalized ls session Hok Hsess) in Hkey.
    destruct (Hfound _ _ _ Hu Hkey) as [v Hv].
    unfold provisionMember. rewrite bool_decide_eq_true_2 by done. simpl.
    unfold bind, getItem, ret.
    rewrite JSON_parse_eq, read_users by done. fold (normalize username).
    by rewrite Hv.
Qed.

End Uniqueness.

(** C3, as the claim has it, fails for a session that [login] has not
    issued.  After bob has signed up for the cluster fam1, a host's session
    whose cluster id is FAM1 provisions bob: the call succeeds, and two
    stored identities have the cluster id fam1 and the handle bob after
    case folding. *)
Lemma provisionMember_duplicates_for_foreign_session :
  Session.role foreign_session = HOST /\
  Forall ascii_call foreign_run /\
  provisionMember foreign_session "bob" "pw2" "k3x9"
    (run [SignupCluster "fam1" "bob" "pw" 1] ∅)
  = Return (Success foreign_bob) (run foreign_run ∅) /\
  User.familyId <$> stored_users (run foreign_run ∅) = ["fam1"; "FAM1"] /\
  handle_key <$> stored_users (run foreign_run ∅)
  = [("fam1", "bob"); ("fam1", "bob")].
Proof.
  split; [reflexivity|]. split; [by repeat constructor|].
  split; [reflexivity|]. split; reflexivity.
Qed.

(** After alice signed up and provisioned bob, signing up as alice of fam1
    again, in another spelling, fails. *)
Lemma identities_unique_witness :
  NoDup (handle_key <$> stored_users (run registration ∅)) /\
  signupCluster "FAM1 " " alice" "other" 9 (run registration ∅)
  = Return (Failure "Identity handle already provisioned in this cluster.")
      (run registration ∅).
Proof.
  assert (sessions_issued registration ∅) as Hissued.
  { split; [exact I|]. split; [|exact I].
    exists alice. split; [apply list_elem_of_here|done]. }
  assert (Forall ascii_call registration) as Hascii by (by repeat constructor).
  destruct (identities_unique registration Hissued Hascii)
    as ((Hunique & _) & Hsignup & _).
  split; [exact Hunique|].
  apply (Hsignup "FAM1 " " alice" "other" 9 alice);
    [reflexivity|reflexivity|apply list_elem_of_here|reflexivity].
Defined.

(** ** Balances *)

Section Balance.
Context {N : Number}.
Local Open Scope num_scope.

Lemma List_filter_Permutation {A} (p : A -> bool) (l l' : list A) :
  Permutation l l' -> Permutation (List.filter p l) (List.filter p l').
Proof.
  induction 1 as [|x l l' _ IH|x y l|l l' l'' _ IH1 _ IH2]; simpl.
  - done.
  - destruct (p x); [by constructor|done].
  - destruct (p x), (p y); try done. apply perm_swap.
  - by etrans.
Qed.

Lemma memberTxs_all (txs : list Transaction.t) (userId : string) :
  Forall (fun t => Transaction.userId t = userId) txs -> memberTxs txs userId = txs.
Proof.
  unfold memberTxs. induction 1 as [|t txs Ht _ IH]; simpl; [done|].
  rewrite IH. by rewrite (proj2 (String.eqb_eq _ _) Ht).
Qed.

End Balance.

(** ** Whole numbers on binary64

    The specification of the primitive numbers ([FloatAxioms]) gives the
    sum and the difference of two numbers as the rounding of the exact
    result; for whole numbers below 2^53 the exact result needs no
    rounding. *)

Section WholeNumbers.
Local Open Scope Z_scope.

Lemma iter_xO_val (p n : positive) : Z.pos (Pos.iter xO p n) = Z.pos p * 2 ^ Z.pos n.
Proof.
  induction n as [|n IH] using Pos.peano_ind.
  - simpl. lia.
  - rewrite Pos.iter_succ, Pos2Z.inj_succ, Z.pow_succ_r by lia.
    rewrite Pos2Z.inj_xO, IH. lia.
Qed.

Lemma shl_val (p : positive) (n : Z) : 0 <= n -> Z.pos (shl p n) = Z.pos p * 2 ^ n.
Proof.
  destruct n as [|n|n]; simpl; [lia| |lia]. intros _. apply iter_xO_val.
Qed.

Lemma digits_iter_xO (p n : positive) :
  Z.pos (digits2_pos (Pos.iter xO p n)) = Z.pos (digits2_pos p) + Z.pos n.
Proof.
  induction n as [|n IH] using Pos.peano_ind.
  - simpl. lia.
  - rewrite Pos.iter_succ. simpl. rewrite Pos2Z.inj_succ, IH. lia.
Qed.

Lemma digits_shl (p : positive) (n : Z) :
  0 <= n -> Z.pos (digits2_pos (shl p n)) = Z.pos (digits2_pos p) + n.
Proof.
  destruct n as [|n|n]; simpl; [lia| |lia]. intros _. apply digits_iter_xO.
Qed.

Lemma shl_shl (p : positive) (n m : Z) :
  0 <= n -> 0 <= m -> shl (shl p n) m = shl p (n + m).
Proof.
  intros Hn Hm. apply Pos2Z.inj. rewrite !shl_val by lia.
  rewrite Z.pow_add_r by lia. lia.
Qed.

Lemma digits_size (p : positive) : digits2_pos p = Pos.size p.
Proof. induction p; simpl; congruence. Qed.

Lemma digits_le (p : positive) (n : Z) :
  0 <= n -> (Z.pos p < 2 ^ n <-> Z.pos (digits2_pos p) <= n).
Proof.
  intros Hn. rewrite digits_size.
  assert (Z.pos (Pos.size p) = Z.log2 (Z.pos p) + 1) as ->.
  { destruct p; simpl; lia. }
  rewrite (Z.log2_lt_pow2 (Z.pos p) n) by lia. lia.
Qed.

Lemma iter_pos_iter {A} (f : A -> A) (n : positive) (x : A) :
  SpecFloat.iter_pos f n x = Pos.iter f x n.
Proof.
  revert x; induction n as [n IH|n IH|]; intros x; simpl.
  - by rewrite !IH, !Pos.iter_swap.
  - by rewrite !IH.
  - done.
Qed.

(** Shifting to the right what was shifted to the left loses nothing. *)
Lemma shr_iter_xO (q n : positive) :
  SpecFloat.iter_pos shr_1 n
    {| shr_m := Z.pos (Pos.iter xO q n); shr_r := false; shr_s := false |}
  = {| shr_m := Z.pos q; shr_r := false; shr_s := false |}.
Proof.
  rewrite iter_pos_iter.
  induction n as [|n IH] using Pos.peano_ind.
  - done.
  - rewrite (Pos.iter_succ n _ xO), (Pos.iter_succ n _ shr_1), <- Pos.iter_swap.
    simpl. apply IH.
Qed.

(** Rounding a mantissa of 53 bits that was shifted to the left gives the
    mantissa back. *)
Lemma binary_round_aux_exact (s : bool) (q : positive) (n e : Z) :
  Z.pos (digits2_pos q) = 53 -> 0 <= n -> -1074 <= e <= 971 ->
  binary_round_aux prec emax s (Z.pos (shl q n)) (e - n) loc_Exact = S754_finite s q e.
Proof.
  intros Hd Hn He. unfold binary_round_aux, shr_fexp.
  unfold Zdigits2. rewrite digits_shl, Hd by done.
  replace (fexp prec emax (53 + n + (e - n)) - (e - n)) with n
    by (unfold fexp, SpecFloat.emin, prec, emax; lia).
  assert (shr (shr_record_of_loc (Z.pos (shl q n)) loc_Exact) (e - n) n
          = ({| shr_m := Z.pos q; shr_r := false; shr_s := false |}, e)) as ->.
  { destruct n as [|n|n]; simpl; [by rewrite Z.sub_0_r| |lia].
    rewrite shr_iter_xO. f_equal. lia. }
  simpl. rewrite Hd.
  replace (fexp prec emax (53 + e) - e) with 0
    by (unfold fexp, SpecFloat.emin, prec, emax; lia).
  simpl. destruct (Z.leb_spec e (emax - prec)); [done|]. unfold emax, prec in *. lia.
Qed.

Lemma binary_round_exact (s : bool) (q : positive) (k : Z) :
  Z.pos (digits2_pos q) <= 53 -> 0 <= k ->
  binary_round prec emax s (shl q k) (- k)
  = S754_finite s (shl q (53 - Z.pos (digits2_pos q))) (Z.pos (digits2_pos q) - 53).
Proof.
  intros Hd Hk. unfold binary_round.
  rewrite digits_shl by done.
  set (d := Z.pos (digits2_pos q)) in *.
  assert (0 < d) as Hpos by (unfold d; lia).
  replace (fexp prec emax (d + k + - k)) with (d - 53)
    by (unfold fexp, SpecFloat.emin, prec, emax; lia).
  unfold shl_align.
  destruct (d - 53 - - k) as [|j|j] eqn:Hj.
  - replace (- k) with ((d - 53) - 0) by lia.
    replace (shl q k) with (shl (shl q (53 - d)) 0)
      by (change (shl (shl q (53 - d)) 0) with (shl q (53 - d)); f_equal; lia).
    apply binary_round_aux_exact; [|lia|lia].
    rewrite digits_shl by lia. fold d. lia.
  - replace (- k) with ((d - 53) - Z.pos j) by lia.
    replace (shl q k) with (shl (shl q (53 - d)) (Z.pos j))
      by (rewrite shl_shl by lia; f_equal; lia).
    apply binary_round_aux_exact; [|lia|lia].
    rewrite digits_shl by lia. fold d. lia.
  - replace (Pos.iter xO (shl q k) j) with (shl (shl q (53 - d)) 0).
    2:{ change (Pos.iter xO (shl q k) j) with (shl (shl q k) (Z.pos j)).
        rewrite (shl_shl q k (Z.pos j)) by lia.
        change (shl (shl q (53 - d)) 0) with (shl q (53 - d)). f_equal. lia. }
    replace (d - 53) with ((d - 53) - 0) at 1 by lia.
    apply binary_round_aux_exact; [|lia|lia].
    rewrite digits_shl by lia. fold d. lia.
Qed.

Lemma binary_normalize_shifted (c k : Z) :
  Z.abs c < 2 ^ 53 -> 0 <= k ->
  binary_normalize prec emax (c * 2 ^ k) (- k) false = canon c.
Proof.
  intros Hc Hk. destruct c as [|q|q]; simpl.
  - done.
  - rewrite <- shl_val by done. simpl.
    apply binary_round_exact; [|done]. apply digits_le; lia.
  - replace (Z.neg q * 2 ^ k) with (Z.neg (shl q k))
      by (rewrite <- Pos2Z.opp_pos, shl_val by done; lia).
    simpl. apply binary_round_exact; [|done]. apply digits_le; lia.
Qed.

Lemma SFopp_binary_round_aux (s : bool) (m e : Z) (l : location) :
  SFopp (binary_round_aux prec emax s m e l) = binary_round_aux prec emax (negb s) m e l.
Proof.
  unfold binary_round_aux. destruct (shr_fexp _ _ _ _ _) as [mrs e'].
  destruct (shr_fexp _ _ _ _ _) as [mrs' e''].
  destruct (shr_m mrs'); simpl; [done| |done].
  by destruct (e'' <=? emax - prec).
Qed.

Lemma SFopp_binary_normalize (z : Z) :
  z <> 0 ->
  SFopp (binary_normalize prec emax z 0 false) = binary_normalize prec emax (- z) 0 false.
Proof.
  intros Hz. destruct z as [|q|q]; [done| |]; simpl; unfold binary_round;
    destruct (shl_align _ _ _) as [mz ez]; apply SFopp_binary_round_aux.
Qed.

Lemma Prim2SF_float_of_Z (z : Z) :
  Z.abs z < 2 ^ 53 -> Prim2SF (float_of_Z z) = canon z.
Proof.
  intros Hz.
  rewrite <- (binary_normalize_shifted z 0 Hz ltac:(lia)), Z.mul_1_r.
  change (- 0) with 0.
  unfold float_of_Z. destruct (Z.ltb_spec z 0).
  - rewrite FloatAxioms.opp_spec, FloatAxioms.of_uint63_spec, Uint63.of_Z_spec.
    rewrite Z.mod_small by (change wB with (2 ^ 63); lia).
    rewrite SFopp_binary_normalize by lia. f_equal. lia.
  - rewrite FloatAxioms.of_uint63_spec, Uint63.of_Z_spec.
    by rewrite Z.mod_small by (change wB with (2 ^ 63); lia).
Qed.

Lemma shiftl_shl (q : positive) (n : Z) :
  0 <= n -> Z.shiftl (Z.pos (shl q n)) (- n) = Z.pos q.
Proof.
  intros Hn. rewrite <- Z.shiftr_opp_r, Z.opp_involutive, Z.shiftr_div_pow2 by done.
  rewrite shl_val by done. apply Z.div_mul. lia.
Qed.

Lemma Z_of_float_of_Z (z : Z) :
  Z.abs z < 2 ^ 53 -> Z_of_float (float_of_Z z) = z.
Proof.
  intros Hz. unfold Z_of_float. rewrite Prim2SF_float_of_Z by done.
  destruct z as [|q|q]; [done| |];
    (assert (Z.pos (digits2_pos q) <= 53) as Hd by (apply digits_le; lia));
    cbn [canon];
    replace (Z.pos (digits2_pos q) - 53) with (- (53 - Z.pos (digits2_pos q))) by lia;
    by rewrite shiftl_shl by lia.
Qed.

Lemma fst_shl_align (q : positive) (d e : Z) :
  e <= d -> fst (shl_align q d e) = shl q (d - e).
Proof.
  intros He. unfold shl_align.
  destruct (e - d) as [|j|j] eqn:Hj; simpl.
  - replace (d - e) with 0 by lia. done.
  - lia.
  - replace (d - e) with (Z.pos j) by lia. done.
Qed.

Lemma canon_finite (z : Z) :
  z <> 0 ->
  canon z
  = S754_finite (z <? 0)
      (shl (Z.to_pos (Z.abs z)) (53 - Z.pos (digits2_pos (Z.to_pos (Z.abs z)))))
      (Z.pos (digits2_pos (Z.to_pos (Z.abs z))) - 53).
Proof. destruct z; done. Qed.

Lemma shifted_value (z k : Z) :
  z <> 0 -> 0 <= k ->
  cond_Zopp (z <? 0) (Z.pos (shl (Z.to_pos (Z.abs z)) k)) = z * 2 ^ k.
Proof.
  intros Hz Hk. rewrite shl_val by lia. rewrite Z2Pos.id by lia.
  destruct (Z.ltb_spec z 0); simpl; lia.
Qed.

Lemma SFadd_canon (a b : Z) :
  Z.abs a < 2 ^ 53 -> Z.abs b < 2 ^ 53 -> Z.abs (a + b) < 2 ^ 53 ->
  SFadd prec emax (canon a) (canon b) = canon (a + b).
Proof.
  intros Ha Hb Hab.
  destruct (decide (a = 0)) as [->|Ha0].
  { simpl. by destruct b. }
  destruct (decide (b = 0)) as [->|Hb0].
  { rewrite Z.add_0_r. by destruct a. }
  rewrite (canon_finite a), (canon_finite b) by done.
  set (qa := Z.to_pos (Z.abs a)). set (qb := Z.to_pos (Z.abs b)).
  set (da := Z.pos (digits2_pos qa)). set (db := Z.pos (digits2_pos qb)).
  assert (da <= 53) as Hda by (apply digits_le; unfold qa; lia).
  assert (db <= 53) as Hdb by (apply digits_le; unfold qb; lia).
  assert (0 < da /\ 0 < db) as [? ?] by (unfold da, db; lia).
  unfold SFadd.
  rewrite !fst_shl_align by lia.
  rewrite !shl_shl by lia.
  set (k := 53 - Z.min da db).
  replace (53 - da + (da - 53 - Z.min (da - 53) (db - 53))) with k by lia.
  replace (53 - db + (db - 53 - Z.min (da - 53) (db - 53))) with k by lia.
  replace (Z.min (da - 53) (db - 53)) with (- k) by lia.
  rewrite <- (binary_normalize_shifted (a + b) k) by lia.
  f_equal. unfold qa, qb. rewrite !shifted_value by lia. lia.
Qed.

Lemma SFsub_canon (a b : Z) :
  Z.abs a < 2 ^ 53 -> Z.abs b < 2 ^ 53 -> Z.abs (a - b) < 2 ^ 53 ->
  SFsub prec emax (canon a) (canon b) = canon (a - b).
Proof.
  intros Ha Hb Hab.
  destruct (decide (b = 0)) as [->|Hb0].
  { rewrite Z.sub_0_r. by destruct a. }
  destruct (decide (a = 0)) as [->|Ha0].
  { simpl. by destruct b. }
  rewrite (canon_finite a), (canon_finite b) by done.
  set (qa := Z.to_pos (Z.abs a)). set (qb := Z.to_pos (Z.abs b)).
  set (da := Z.pos (digits2_pos qa)). set (db := Z.pos (digits2_pos qb)).
  assert (da <= 53) as Hda by (apply digits_le; unfold qa; lia).
  assert (db <= 53) as Hdb by (apply digits_le; unfold qb; lia).
  assert (0 < da /\ 0 < db) as [? ?] by (unfold da, db; lia).
  unfold SFsub.
  rewrite !fst_shl_align by lia.
  rewrite !shl_shl by lia.
  set (k := 53 - Z.min da db).
  replace (53 - da + (da - 53 - Z.min (da - 53) (db - 53))) with k by lia.
  replace (53 - db + (db - 53 - Z.min (da - 53) (db - 53))) with k by lia.
  replace (Z.min (da - 53) (db - 53)) with (- k) by lia.
  rewrite <- (binary_normalize_shifted (a - b) k) by lia.
  f_equal. unfold qa, qb. rewrite !shifted_value by lia. lia.
Qed.

(** The sum and the difference of whole numbers below 2^53 are exact. *)
Lemma add_float_of_Z (a b : Z) :
  Z.abs a < 2 ^ 53 -> Z.abs b < 2 ^ 53 -> Z.abs (a + b) < 2 ^ 53 ->
  PrimFloat.add (float_of_Z a) (float_of_Z b) = float_of_Z (a + b).
Proof.
  intros Ha Hb Hab. apply Prim2SF_inj.
  rewrite FloatAxioms.add_spec, !Prim2SF_float_of_Z by done.
  by apply SFadd_canon.
Qed.

Lemma sub_float_of_Z (a b : Z) :
  Z.abs a < 2 ^ 53 -> Z.abs b < 2 ^ 53 -> Z.abs (a - b) < 2 ^ 53 ->
  PrimFloat.sub (float_of_Z a) (float_of_Z b) = float_of_Z (a - b).
Proof.
  intros Ha Hb Hab. apply Prim2SF_inj.
  rewrite FloatAxioms.sub_spec, !Prim2SF_float_of_Z by done.
  by apply SFsub_canon.
Qed.

(** A whole number other than 0 is truthy. *)
Lemma truthy_float_of_Z (z : Z) :
  Z.abs z < 2 ^ 53 -> z <> 0 -> @truthy binary64 (float_of_Z z) = true.
Proof.
  intros Hz Hz0. simpl. unfold PrimFloat.is_nan, PrimFloat.is_zero.
  rewrite !FloatAxioms.eqb_spec, Prim2SF_float_of_Z by done.
  change (Prim2SF 0%float) with (S754_zero false).
  destruct z as [|q|q]; [done| |]; cbn [canon]; unfold SFeqb, SFcompare;
    rewrite Z.compare_refl, Pos.compare_cont_refl; done.
Qed.

Lemma zero_denotes : denotes (@zero binary64) 0.
Proof. split; [reflexivity|]. simpl. lia. Qed.

Lemma denotes_whole (x : float) (z : Z) :
  denotes x z -> whole x /\ Z_of_float x = z.
Proof.
  intros [-> Hz]. unfold whole. by rewrite Z_of_float_of_Z.
Qed.

Lemma whole_denotes (x : float) :
  whole x -> Z.abs (Z_of_float x) < 2 ^ 53 -> denotes x (Z_of_float x).
Proof. by split. Qed.

Lemma add_denotes (x y : float) (a b : Z) :
  denotes x a -> denotes y b -> Z.abs (a + b) < 2 ^ 53 ->
  denotes (@add binary64 x y) (a + b).
Proof.
  intros [-> Ha] [-> Hb] Hab. split; [|done]. by apply add_float_of_Z.
Qed.

Lemma sub_denotes (x y : float) (a b : Z) :
  denotes x a -> denotes y b -> Z.abs (a - b) < 2 ^ 53 ->
  denotes (@sub binary64 x y) (a - b).
Proof.
  intros [-> Ha] [-> Hb] Hab. split; [|done]. by apply sub_float_of_Z.
Qed.

Lemma denotes_inj (x y : float) (z : Z) : denotes x z -> denotes y z -> x = y.
Proof. intros [-> _] [-> _]. done. Qed.

(** A whole number that is falsy is [0]. *)
Lemma or_zero_denotes (v : @num binary64) (z : Z) :
  denotes v z -> (if truthy v then v else zero) = v.
Proof.
  intros [-> Hz]. destruct (decide (z = 0)) as [->|Hz0].
  - by destruct (truthy _).
  - by rewrite truthy_float_of_Z.
Qed.

(** *** The sums of a list of transactions *)

Lemma magnitude_nonneg (l : list (@Transaction.t binary64)) : 0 <= magnitude l.
Proof. induction l as [|t l IH]; simpl; lia. Qed.

Lemma net_bound (l : list (@Transaction.t binary64)) : Z.abs (net l) <= magnitude l.
Proof.
  induction l as [|t l IH]; simpl; [lia|].
  unfold signed_value. destruct (bool_decide _); lia.
Qed.

Lemma sum_values_bound (l : list (@Transaction.t binary64)) :
  Z.abs (sum_values l) <= magnitude l.
Proof. induction l as [|t l IH]; simpl; lia. Qed.

Lemma magnitude_filter (p : @Transaction.t binary64 -> bool)
    (l : list (@Transaction.t binary64)) :
  magnitude (List.filter p l) <= magnitude l.
Proof.
  induction l as [|t l IH]; simpl; [lia|]. destruct (p t); simpl; lia.
Qed.

Lemma magnitude_app (l l' : list (@Transaction.t binary64)) :
  magnitude (l ++ l') = magnitude l + magnitude l'.
Proof. induction l as [|t l IH]; simpl; lia. Qed.

Lemma magnitude_Permutation (l l' : list (@Transaction.t binary64)) :
  Permutation l l' -> magnitude l = magnitude l'.
Proof. induction 1; simpl; lia. Qed.

Lemma net_Permutation (l l' : list (@Transaction.t binary64)) :
  Permutation l l' -> net l = net l'.
Proof. induction 1; simpl; lia. Qed.

Lemma net_split (l : list (@Transaction.t binary64)) :
  net l
  = sum_values (List.filter (fun t => bool_decide (Transaction.type t = CREDIT)) l)
    - sum_values (List.filter (fun t => bool_decide (Transaction.type t = DEBIT)) l).
Proof.
  induction l as [|t l IH]; simpl; [done|].
  unfold signed_value. destruct (Transaction.type t); simpl; lia.
Qed.

Lemma Forall_List_filter {A} (P : A -> Prop) (p : A -> bool) (l : list A) :
  Forall P l -> Forall P (List.filter p l).
Proof.
  induction 1 as [|x l Hx _ IH]; simpl; [done|].
  destruct (p x); [by constructor|done].
Qed.

Lemma whole_amounts_filter (p : @Transaction.t binary64 -> bool)
    (l : list (@Transaction.t binary64)) :
  whole_amounts l -> whole_amounts (List.filter p l).
Proof.
  intros [Hw Hm]. split; [by apply Forall_List_filter|].
  pose proof (magnitude_filter p l). lia.
Qed.

Lemma whole_amounts_Permutation (l l' : list (@Transaction.t binary64)) :
  Permutation l l' -> whole_amounts l -> whole_amounts l'.
Proof.
  intros Hp [Hw Hm]. split; [by rewrite <- Hp|].
  by rewrite <- (magnitude_Permutation l l').
Qed.

Lemma amount_denotes (t : @Transaction.t binary64) :
  whole (Transaction.amount t) -> Z.abs (value t) < 2 ^ 53 ->
  denotes (Transaction.amount t) (value t).
Proof. intros Hw Hv. by apply whole_denotes. Qed.

Lemma apply_tx_denotes (acc : float) (a : Z) (t : @Transaction.t binary64) :
  denotes acc a -> whole (Transaction.amount t) ->
  Z.abs a + Z.abs (value t) < 2 ^ 53 ->
  denotes (apply_tx acc t) (a + signed_value t).
Proof.
  intros Hacc Hw Hb. unfold apply_tx, signed_value.
  assert (denotes (Transaction.amount t) (value t)) as Ht
    by (apply amount_denotes; [done|lia]).
  destruct (bool_decide _).
  - apply add_denotes; [done|done|lia].
  - replace (a + - value t) with (a - value t) by lia.
    apply sub_denotes; [done|done|lia].
Qed.

(** The fold of the balance follows the whole numbers. *)
Lemma fold_apply_denotes (l : list (@Transaction.t binary64)) (acc : float) (a : Z) :
  denotes acc a -> Forall (fun t => whole (Transaction.amount t)) l ->
  Z.abs a + magnitude l < 2 ^ 53 ->
  denotes (fold_left apply_tx l acc) (a + net l).
Proof.
  revert acc a; induction l as [|t l IH]; intros acc a Hacc Hw Hb; simpl in *.
  - by rewrite Z.add_0_r.
  - apply Forall_cons in Hw as [Ht Hw].
    pose proof (magnitude_nonneg l).
    replace (a + (signed_value t + net l)) with (a + signed_value t + net l) by lia.
    apply IH; [|done|].
    + apply apply_tx_denotes; [done|done|lia].
    + unfold signed_value. destruct (bool_decide _); lia.
Qed.

Lemma fold_sum_denotes (l : list (@Transaction.t binary64)) (acc : float) (a : Z) :
  denotes acc a -> Forall (fun t => whole (Transaction.amount t)) l ->
  Z.abs a + magnitude l < 2 ^ 53 ->
  denotes (fold_left (fun sum t => @add binary64 sum (Transaction.amount t)) l acc)
    (a + sum_values l).
Proof.
  revert acc a; induction l as [|t l IH]; intros acc a Hacc Hw Hb; simpl in *.
  - by rewrite Z.add_0_r.
  - apply Forall_cons in Hw as [Ht Hw].
    pose proof (magnitude_nonneg l).
    replace (a + (value t + sum_values l)) with (a + value t + sum_values l) by lia.
    apply IH; [|done|lia].
    apply add_denotes; [done| |lia]. apply amount_denotes; [done|lia].
Qed.

Lemma balance_denotes (l : list (@Transaction.t binary64)) :
  whole_amounts l -> denotes (fold_left apply_tx l zero) (net l).
Proof.
  intros [Hw Hm]. apply (fold_apply_denotes l (@zero binary64) 0); [apply zero_denotes|done|].
  simpl. lia.
Qed.

Lemma total_of_denotes (kind : TransactionType) (l : list (@Transaction.t binary64)) :
  whole_amounts l ->
  denotes (total_of kind l)
    (sum_values (List.filter (fun t => bool_decide (Transaction.type t = kind)) l)).
Proof.
  intros Hl. apply (whole_amounts_filter
    (fun t => bool_decide (Transaction.type t = kind))) in Hl as [Hw Hm].
  unfold total_of.
  apply (fold_sum_denotes _ (@zero binary64) 0); [apply zero_denotes|done|]. simpl. lia.
Qed.

End WholeNumbers.

(** The amounts of a sample are whole: by evaluation. *)
Ltac whole_sample :=
  split;
  [repeat (apply Forall_cons_2; [vm_compute; reflexivity|]); apply Forall_nil_2
  |vm_compute; reflexivity].

(** C4, on the numbers of the host.  The balance of an identity is 0 for an
    empty list of transactions, and each transaction put at the end of the
    list adds its amount to the balance of its identity if it is a credit,
    subtracts it if not, and leaves every other balance as it is: the
    function is the fold of these steps in the order of the list, defined on
    every list.  When the amounts of the identity's transactions are whole
    numbers whose absolute values add up to less than 2^53, the balance is
    the sum of the amounts of its credits minus the sum of the amounts of
    its debits, and it is the same for every ordering of the
    transactions. *)
Theorem currentBalance_credits_minus_debits (session : Session.t)
    (txs : list (@Transaction.t binary64)) :
  currentBalance [] (Some session) = zero /\
  (forall t,
     currentBalance (txs ++ [t]) (Some session)
     = if (Transaction.userId t =? Session.userId session)%string
       then if bool_decide (Transaction.type t = CREDIT)
            then (currentBalance txs (Some session) ⊕ Transaction.amount t)%num
            else (currentBalance txs (Some session) ⊖ Transaction.amount t)%num
       else currentBalance txs (Some session)) /\
  (whole_amounts (memberTxs txs (Session.userId session)) ->
     currentBalance txs (Some session)
     = (totalCredits txs (Session.userId session)
        ⊖ totalDebits txs (Session.userId session))%num /\
     forall txs', Permutation txs txs' ->
       currentBalance txs' (Some session) = currentBalance txs (Some session)).
Proof.
  split; [done|]. split.
  - intros t. unfold currentBalance, memberTxs. rewrite List.filter_app. simpl.
    destruct (Transaction.userId t =? Session.userId session)%string.
    + by rewrite fold_left_app.
    + by rewrite app_nil_r.
  - intros Hwhole. unfold currentBalance, totalCredits, totalDebits.
    set (l := memberTxs txs (Session.userId session)) in *.
    pose proof (balance_denotes l Hwhole) as Hbalance.
    pose proof (total_of_denotes CREDIT l Hwhole) as Hcredits.
    pose proof (total_of_denotes DEBIT l Hwhole) as Hdebits.
    split.
    + apply (denotes_inj _ _ (net l)); [done|].
      rewrite net_split. apply sub_denotes; [done|done|].
      rewrite <- net_split. pose proof (net_bound l). destruct Hwhole. lia.
    + intros txs' Hperm.
      assert (Permutation l (memberTxs txs' (Session.userId session))) as Hl
        by (by apply List_filter_Permutation).
      apply (denotes_inj _ _ (net l)); [|done].
      rewrite (net_Permutation _ _ Hl).
      apply balance_denotes. by apply (whole_amounts_Permutation l).
Qed.

#[local] Set Warnings "-inexact-float".

(** C4, as the claim has it, fails on the numbers of the host: the sums of
    binary64 round, so the balance depends on the order of the
    transactions, and it is not the sum of the credits minus the sum of the
    debits.  Credits of 0.1, 0.2 and 0.3 give 0.6000000000000001 in this
    order and 0.6 in the reverse one; a credit of 0.1, a debit of 0.3 and a
    credit of 0.2 give 2.7755575615628914e-17, while the credits minus the
    debits are 5.551115123125783e-17. *)
Lemma currentBalance_depends_on_order :
  Permutation tenths tenths_stored /\
  currentBalance tenths (Some bob_session) = 0.6000000000000001%float /\
  currentBalance tenths_stored (Some bob_session) = 0.6%float /\
  PrimFloat.eqb (currentBalance tenths (Some bob_session))
    (currentBalance tenths_stored (Some bob_session)) = false /\
  currentBalance mixed (Some bob_session) = 2.7755575615628914e-17%float /\
  (totalCredits mixed "u_bob" ⊖ totalDebits mixed "u_bob")%num
  = 5.551115123125783e-17%float /\
  PrimFloat.eqb (currentBalance mixed (Some bob_session))
    (totalCredits mixed "u_bob" ⊖ totalDebits mixed "u_bob")%num = false.
Proof.
  split; [|repeat split; vm_compute; reflexivity].
  unfold tenths, tenths_stored.
  eapply perm_trans; [apply perm_skip, perm_swap|].
  eapply perm_trans; [apply perm_swap|]. apply perm_skip, perm_swap.
Qed.

#[local] Set Warnings "+inexact-float".

(** On the numbers of the host the sums of whole amounts of this size are
    exact: scenario 5 gives 500 in the order of time and in the stored
    order. *)
Lemma currentBalance_whole_amounts :
  let txs := [@tx_of binary64 "u_bob" CREDIT 1000%float 1;
              @tx_of binary64 "u_bob" DEBIT 300%float 2;
              @tx_of binary64 "u_bob" DEBIT 200%float 3] in
  currentBalance txs (Some bob_session) = 500%float /\
  currentBalance (rev txs) (Some bob_session) = 500%float /\
  Point.balance <$> timeSeries (rev txs) = [1000%float; 700%float; 500%float].
Proof. repeat split; vm_compute; reflexivity. Qed.

(** Scenario 5 of the specification, on the numbers of the host: the amounts
    are whole, and the balance is the credits minus the debits, in any
    order. *)
Lemma currentBalance_credits_minus_debits_witness :
  whole_amounts (memberTxs scenario5 (Session.userId bob_session)) /\
  currentBalance scenario5 (Some bob_session)
  = (totalCredits scenario5 "u_bob" ⊖ totalDebits scenario5 "u_bob")%num /\
  currentBalance (rev scenario5) (Some bob_session)
  = currentBalance scenario5 (Some bob_session).
Proof.
  assert (whole_amounts (memberTxs scenario5 (Session.userId bob_session)))
    as Hwhole.
  { split; [|vm_compute; reflexivity].
    repeat (apply Forall_cons_2; [vm_compute; reflexivity|]).
    apply Forall_nil_2. }
  destruct (currentBalance_credits_minus_debits bob_session scenario5)
    as (_ & _ & Hexact).
  destruct (Hexact Hwhole) as [Hsum Horder].
  split; [exact Hwhole|]. split; [exact Hsum|].
  apply Horder. apply Permutation_rev.
Defined.

(** ** The running balance *)

Section RunningBalance.
Context {N : Number}.
Local Open Scope num_scope.

Lemma place_Permutation {A} (after : A -> A -> bool) (x : A) (l : list A) :
  Permutation (place after x l) (x :: l).
Proof.
  induction l as [|y l IH]; simpl; [done|].
  destruct (after x y); [|done].
  rewrite IH. apply perm_swap.
Qed.

Lemma sorted_Permutation {A} (after : A -> A -> bool) (l : list A) :
  Permutation (sorted after l) l.
Proof.
  induction l as [|x l IH]; simpl; [done|].
  by rewrite place_Permutation, IH.
Qed.

Lemma place_ascending (x : Transaction.t) (l : list Transaction.t) :
  ascending l -> ascending (place by_timestamp x l).
Proof.
  unfold ascending. induction 1 as [|y l Hl IH Hy]; simpl.
  - repeat constructor.
  - unfold by_timestamp at 1. destruct (Z.gtb_spec
      (Transaction.timestamp x - Transaction.timestamp y) 0) as [Hgt|Hle].
    + constructor; [done|]. rewrite place_Permutation. constructor; [lia|done].
    + constructor; [by constructor|]. constructor; [lia|].
      eapply Forall_impl; [exact Hy|]. simpl. intros; lia.
Qed.

Lemma sorted_ascending (l : list Transaction.t) : ascending (sorted by_timestamp l).
Proof.
  induction l as [|x l IH]; simpl; [constructor|]. by apply place_ascending.
Qed.

Lemma place_stable (t : Z) (x : Transaction.t) (l : list Transaction.t) :
  made_at t (place by_timestamp x l) = made_at t (x :: l).
Proof.
  unfold made_at. induction l as [|y l IH]; simpl in *; [done|].
  unfold by_timestamp at 1. destruct (Z.gtb_spec
    (Transaction.timestamp x - Transaction.timestamp y) 0) as [Hgt|Hle]; [|done].
  simpl. rewrite IH.
  destruct (Z.eqb_spec (Transaction.timestamp x) t) as [Hx|Hx]; [|done].
  destruct (Z.eqb_spec (Transaction.timestamp y) t) as [Hy|Hy]; [lia|done].
Qed.

Lemma sorted_stable (t : Z) (l : list Transaction.t) :
  made_at t (sorted by_timestamp l) = made_at t l.
Proof.
  induction l as [|x l IH]; simpl; [done|].
  rewrite place_stable. unfold made_at in *. simpl. by rewrite IH.
Qed.

Lemma last_balance (l : list Transaction.t) :
  match last (imap (point_at l) l) with
  | Some p => Point.balance p
  | None => zero
  end = fold_left apply_tx l zero.
Proof.
  destruct l as [|t l _] using rev_ind; [done|].
  rewrite imap_app. cbn [imap]. rewrite last_snoc. cbn [point_at Point.balance compose].
  by rewrite Nat.add_0_r, take_ge by (rewrite length_app; simpl; lia).
Qed.

Lemma fold_push_point (l : list Transaction.t) :
  fold_left push_point l [] = imap (point_at l) l.
Proof.
  induction l as [|t l IH] using rev_ind; [done|].
  rewrite fold_left_app, IH, imap_app. simpl. unfold push_point at 1.
  rewrite last_balance. f_equal.
  - apply imap_ext. intros i x Hi. unfold point_at. f_equal.
    rewrite take_app_le; [done|]. apply lookup_lt_Some in Hi. lia.
  - unfold point_at. rewrite Nat.add_0_r.
    rewrite take_ge by (rewrite length_app; simpl; lia).
    rewrite fold_left_app. simpl. done.
Qed.

Lemma timeSeries_eq (txs : list Transaction.t) :
  timeSeries txs
  = imap (point_at (sorted by_timestamp txs)) (sorted by_timestamp txs).
Proof. apply fold_push_point. Qed.

End RunningBalance.

(** C7, on the numbers of the host.  The series is made from the
    transactions sorted by time, in ascending order and with transactions of
    the same time in the order they had; it has one point per transaction,
    with the time of the transaction and the balance folded, by the step of
    [currentBalance], over the sorted transactions up to this one, so that
    the balance of its last point is that fold over the transactions in the
    order of time.  For the transactions of one identity whose amounts are
    whole numbers with absolute values adding up to less than 2^53, the
    balance of the last point is [currentBalance] of the same transactions.
    For no transaction the series is empty and the balance is 0. *)
Theorem timeSeries_consistent (txs : list (@Transaction.t binary64)) :
  let ordered := sorted by_timestamp txs in
  (Permutation ordered txs /\ ascending ordered /\
   forall t, made_at t ordered = made_at t txs) /\
  timeSeries txs = imap (point_at ordered) ordered /\
  length (timeSeries txs) = length txs /\
  (forall p, last (timeSeries txs) = Some p ->
     Point.balance p = fold_left apply_tx ordered zero) /\
  (forall session p,
     Forall (fun t => Transaction.userId t = Session.userId session) txs ->
     whole_amounts txs ->
     last (timeSeries txs) = Some p ->
     Point.balance p = currentBalance txs (Some session)) /\
  (timeSeries [] = [] /\
   forall session, currentBalance [] (Some session) = zero).
Proof.
  intros ordered. subst ordered.
  pose proof (sorted_Permutation by_timestamp txs) as Hperm.
  assert (forall p, last (timeSeries txs) = Some p ->
            Point.balance p = fold_left apply_tx (sorted by_timestamp txs) zero)
    as Hlast.
  { intros p Hp. pose proof (last_balance (sorted by_timestamp txs)) as Hfold.
    by rewrite <- timeSeries_eq, Hp in Hfold. }
  split; [|split; [|split; [|split; [|split]]]].
  - split; [done|]. split; [apply sorted_ascending|]. intros t. apply sorted_stable.
  - apply timeSeries_eq.
  - rewrite timeSeries_eq, length_imap. by apply Permutation_length.
  - done.
  - intros session p Hown Hwhole Hp. rewrite (Hlast p Hp).
    unfold currentBalance. rewrite memberTxs_all by done.
    apply (denotes_inj _ _ (net txs)); [|by apply balance_denotes].
    rewrite <- (net_Permutation _ _ Hperm).
    apply balance_denotes. by apply (whole_amounts_Permutation txs).
  - done.
Qed.

#[local] Set Warnings "-inexact-float".

(** C7, as the claim has it, fails in two ways.  On the numbers of the host,
    for bob's credits of 0.1, 0.2 and 0.3, stored the latest first, the
    series ends at 0.6000000000000001 (the sums are made in the order of
    time) while [currentBalance], which sums in the stored order, is 0.6.
    And the series takes every transaction it is given, while
    [currentBalance] takes those of the session's identity: for a credit of
    100 of bob's and one of 50 of carol's the series ends at 150, and bob's
    balance is 100. *)
Lemma timeSeries_last_differs :
  Forall (fun t => Transaction.userId t = Session.userId bob_session) tenths_stored /\
  Point.balance <$> timeSeries tenths_stored
  = [0.1%float; 0.30000000000000004%float; 0.6000000000000001%float] /\
  currentBalance tenths_stored (Some bob_session) = 0.6%float /\
  PrimFloat.eqb 0.6000000000000001%float 0.6%float = false /\
  Point.balance <$> timeSeries shared = [100%float; 150%float] /\
  currentBalance shared (Some bob_session) = 100%float.
Proof.
  split; [repeat constructor|]. repeat split; vm_compute; reflexivity.
Qed.

#[local] Set Warnings "+inexact-float".

(** Scenario 5 of the specification: the amounts are whole and all bob's,
    the series is 1000, 700, 500, and its last balance is bob's. *)
Lemma timeSeries_consistent_witness :
  Point.balance <$> timeSeries scenario5 = [1000%float; 700%float; 500%float] /\
  (forall p, last (timeSeries scenario5) = Some p ->
     Point.balance p = currentBalance scenario5 (Some bob_session)).
Proof.
  split; [vm_compute; reflexivity|].
  destruct (timeSeries_consistent scenario5) as (_ & _ & _ & _ & Hsame & _).
  intros p. apply (Hsame bob_session p).
  - repeat constructor.
  - split; [|vm_compute; reflexivity].
    repeat (apply Forall_cons_2; [vm_compute; reflexivity|]).
    apply Forall_nil_2.
Defined.

(** ** The analytics engine and its arrays *)

Section Engine.
Context {N : Number}.
Local Open Scope js_scope.

Lemma bind_Return {S A B} (m : Run S A) (k : A -> Run S B) (s s' : S) (a : A) :
  m s = Return a s' -> bind m k s = k a s'.
Proof. unfold bind. by intros ->. Qed.

Lemma lookup_alloc (h : gmap nat Array) (a x : Array) (r : nat) :
  h !! r = Some x -> <[fresh (dom h) := a]> h !! r = Some x.
Proof.
  intros Hr. rewrite lookup_insert_ne; [done|].
  intros E. apply (is_fresh (dom h)). rewrite E. apply elem_of_dom. eauto.
Qed.

Lemma alloc_subseteq (h : gmap nat Array) (a : Array) :
  h ⊆ <[fresh (dom h) := a]> h.
Proof. apply insert_subseteq, not_elem_of_dom, is_fresh. Qed.

Lemma txs_at_eq (h : gmap nat Array) (r : nat) (l : list Transaction.t) :
  h !! r = Some (TxArray l) -> txs_at r h = Return l h.
Proof. unfold txs_at, deref, bind. by intros ->. Qed.

Lemma nums_at_eq (h : gmap nat Array) (r : nat) (l : list num) :
  h !! r = Some (NumArray l) -> nums_at r h = Return l h.
Proof. unfold nums_at, deref, bind. by intros ->. Qed.

Lemma times_at_eq (h : gmap nat Array) (r : nat) (l : list Z) :
  h !! r = Some (TimeArray l) -> times_at r h = Return l h.
Proof. unfold times_at, deref, bind. by intros ->. Qed.

Lemma Array_filter_eq (p : Transaction.t -> bool) (h : gmap nat Array) (r : nat)
    (l : list Transaction.t) :
  h !! r = Some (TxArray l) ->
  Array_filter p r h
  = Return (fresh (dom h)) (<[fresh (dom h) := TxArray (List.filter p l)]> h).
Proof. intros Hr. unfold Array_filter. by rewrite (bind_Return _ _ _ _ _ (txs_at_eq _ _ _ Hr)). Qed.

Lemma Array_timestamps_eq (h : gmap nat Array) (r : nat) (l : list Transaction.t) :
  h !! r = Some (TxArray l) ->
  Array_timestamps r h
  = Return (fresh (dom h))
      (<[fresh (dom h) := TimeArray (map Transaction.timestamp l)]> h).
Proof. intros Hr. unfold Array_timestamps. by rewrite (bind_Return _ _ _ _ _ (txs_at_eq _ _ _ Hr)). Qed.

Lemma Array_amounts_eq (h : gmap nat Array) (r : nat) (l : list Transaction.t) :
  h !! r = Some (TxArray l) ->
  Array_amounts r h
  = Return (fresh (dom h))
      (<[fresh (dom h) := NumArray (map Transaction.amount l)]> h).
Proof. intros Hr. unfold Array_amounts. by rewrite (bind_Return _ _ _ _ _ (txs_at_eq _ _ _ Hr)). Qed.

Lemma spread_eq (h : gmap nat Array) (r : nat) (a : Array) :
  h !! r = Some a ->
  spread r h = Return (fresh (dom h)) (<[fresh (dom h) := a]> h).
Proof. unfold spread, deref, alloc, bind. by intros ->. Qed.

Lemma Array_sort_txs_eq (after : Transaction.t -> Transaction.t -> bool)
    (h : gmap nat Array) (r : nat) (l : list Transaction.t) :
  h !! r = Some (TxArray l) ->
  Array_sort_txs after r h = Return r (<[r := TxArray (sorted after l)]> h).
Proof.
  intros Hr. unfold Array_sort_txs.
  by rewrite (bind_Return _ _ _ _ _ (txs_at_eq _ _ _ Hr)).
Qed.

Lemma Array_sort_nums_eq (after : num -> num -> bool)
    (h : gmap nat Array) (r : nat) (l : list num) :
  h !! r = Some (NumArray l) ->
  Array_sort_nums after r h = Return r (<[r := NumArray (sorted after l)]> h).
Proof.
  intros Hr. unfold Array_sort_nums.
  by rewrite (bind_Return _ _ _ _ _ (nums_at_eq _ _ _ Hr)).
Qed.

Ltac find_array :=
  first [apply lookup_insert_eq | eassumption | apply lookup_alloc; find_array].
Ltac step lem := erewrite bind_Return; [|apply lem; find_array].

(** One invocation: the value is [insights_of] of the elements, and every
    array of the heap is as it was. *)
Lemma insights_run (transactions : nat) (balance : num) (now : Z)
    (h : gmap nat Array) (txs : list Transaction.t) :
  h !! transactions = Some (TxArray txs) ->
  exists h', insights transactions balance now h
             = Return (insights_of txs balance now) h' /\ h ⊆ h'.
Proof.
  intros Ht. unfold insights, insights_of.
  destruct (length txs =? 0)%nat eqn:Hlen.
  { exists h. split; [|done]. step txs_at_eq. by rewrite Hlen. }
  eexists. split.
  - step txs_at_eq. rewrite Hlen.
    step Array_filter_eq. step txs_at_eq.
    step Array_timestamps_eq. step times_at_eq.
    step spread_eq. step Array_sort_txs_eq. rewrite insert_insert_eq.
    step txs_at_eq.
    step Array_amounts_eq. step nums_at_eq.
    step spread_eq. step Array_sort_nums_eq. rewrite insert_insert_eq.
    step nums_at_eq.
    reflexivity.
  - repeat (etrans; [|apply alloc_subseteq]). done.
Qed.

Lemma invoked_keeps (clock : list Z) (transactions : nat) (balance : num)
    (h : gmap nat Array) (txs : list Transaction.t) :
  h !! transactions = Some (TxArray txs) ->
  h ⊆ invoked clock transactions balance h.
Proof.
  revert h; induction clock as [|now clock IH]; intros h Ht; simpl; [done|].
  destruct (insights_run transactions balance now h txs Ht) as (h' & -> & Hsub).
  simpl. etrans; [exact Hsub|]. apply IH.
  by eapply lookup_weaken.
Qed.

(** C9, as the code has it.  The engine changes no array of the heap it is
    given, its argument included (both sorts work on copies), however many
    times it has been invoked before; its value is a function of the
    elements of the argument, of the balance and of the reading of the
    clock; the series, the totals by category and the statistics are the
    same for every reading of the clock. *)
Theorem insights_referentially_transparent (transactions : nat) (balance : num)
    (now : Z) (clock : list Z) (h : gmap nat Array) (txs : list Transaction.t) :
  h !! transactions = Some (TxArray txs) ->
  (exists h', insights transactions balance now
                (invoked clock transactions balance h)
              = Return (insights_of txs balance now) h' /\
              h ⊆ h' /\ h' !! transactions = Some (TxArray txs)) /\
  (forall now',
     Insights.timeSeries <$> insights_of txs balance now'
     = Insights.timeSeries <$> insights_of txs balance now /\
     Insights.categoryTotals <$> insights_of txs balance now'
     = Insights.categoryTotals <$> insights_of txs balance now /\
     Insights.stats <$> insights_of txs balance now'
     = Insights.stats <$> insights_of txs balance now).
Proof.
  intros Ht. split.
  - pose proof (invoked_keeps clock transactions balance h txs Ht) as Hkept.
    assert (invoked clock transactions balance h !! transactions = Some (TxArray txs))
      as Ht' by (by eapply lookup_weaken).
    destruct (insights_run transactions balance now _ txs Ht') as (h' & Hrun & Hsub).
    exists h'. split; [done|]. split; [by etrans|].
    eapply lookup_weaken; [exact Ht'|done].
  - intros now'. unfold insights_of. by destruct (length txs =? 0)%nat.
Qed.

End Engine.

(** C9, as the claim has it, fails for the burn rate and the liquidity
    index, which are computed from [Date.now()]: for the same array (a debit
    of 200 made at time 0) and the same balance, the engine gives a burn rate
    of 100 and 10 days of liquidity two days after the debit, and 50 and 20
    days when it is invoked again two days later. *)
Lemma insights_depend_on_clock :
  let first := @insights binary64 0%nat 1000%float 172800000 spending in
  let second := @insights binary64 0%nat 1000%float 345600000 (state_of first) in
  state_of first !! 0%nat = spending !! 0%nat /\
  rates_of first = Some (100%float, 10%float) /\
  rates_of second = Some (50%float, 20%float).
Proof. repeat split; vm_compute; reflexivity. Qed.

(** A second invocation, two days after the first. *)
Lemma insights_referentially_transparent_witness :
  exists h', @insights binary64 0%nat 1000%float 345600000
               (@invoked binary64 [172800000] 0%nat 1000%float spending)
             = Return (@insights_of binary64 [@tx_of binary64 "u_bob" DEBIT 200%float 0]
                         1000%float 345600000) h' /\
             spending ⊆ h'.
Proof.
  destruct (proj1 (@insights_referentially_transparent binary64 0%nat 1000%float 345600000
              [172800000] spending [@tx_of binary64 "u_bob" DEBIT 200%float 0]
              eq_refl)) as (h' & Hrun & Hsub & _).
  exists h'. split; [exact Hrun|exact Hsub].
Defined.

(** * Further properties of the service and of the component *)

(** ** Signing up, logging in and out *)

Section Sessions.
Context {N : Number}.

Ltac run_service :=
  unfold signupCluster, provisionMember, login, getUsers, sendMessage,
    getMessages, logout, bind, getItem, setItem, removeItem, ret, throw in *;
  rewrite ?JSON_parse_eq in *.

Lemma find_app_None {A} (p : A -> bool) (l l' : list A) :
  List.find p l = None -> List.find p (l ++ l') = List.find p l'.
Proof. induction l as [|x l IH]; simpl; [done|]. by destruct (p x). Qed.

Lemma getUsers_inr (ls : gmap string Item) (us : list User.t) :
  getUsers ls = Return us ls ->
  parsed as_users (or_empty (Users []) (ls !! USERS_KEY)) = inr us.
Proof. run_service. destruct (parsed _ _); intros; by simplify_eq. Qed.

(** What a successful [signupCluster] has done. *)
Lemma signupCluster_success (familyId handle pass : string) (now : Z)
    (ls ls' : gmap string Item) (u : User.t) :
  signupCluster familyId handle pass now ls = Return (Success u) ls' ->
  exists us,
    parsed as_users (or_empty (Users []) (ls !! USERS_KEY)) = inr us /\
    List.find (same_handle (normalize familyId) (normalize handle)) us = None /\
    ls' = <[USERS_KEY := Users (us ++ [u])]> ls /\
    u = {| User.id := "u_" +:+ pretty now; User.familyId := normalize familyId;
           User.name := handle; User.username := normalize handle;
           User.password := Some pass; User.role := HOST;
           User.parentId := None; User.isActive := true |}.
Proof.
  run_service. destruct (parsed _ _) as [e|us]; [done|]. simpl.
  fold (normalize familyId) (normalize handle).
  destruct (List.find _ us) eqn:Hfind; simpl; [done|].
  intros [= <- <-]. by exists us.
Qed.

(** X1.  An identity that has signed up can log in: after a successful
    [signupCluster], [login] with the same pass phrase and any spelling of
    the cluster id and of the handle that normalizes to the same texts
    succeeds; the session is the new identity's (its id, its cluster, the
    role HOST), expires 86400000 ms after the reading of the clock, and is
    what [SESSION_KEY] holds afterwards. *)
Theorem signup_then_login (familyId handle pass familyId' handle' : string)
    (now now_token now_exp : Z) (ls ls' : gmap string Item) (u : User.t) :
  signupCluster familyId handle pass now ls = Return (Success u) ls' ->
  normalize familyId' = normalize familyId ->
  normalize handle' = normalize handle ->
  exists session,
    login familyId' handle' pass now_token now_exp ls'
    = Return (Success session) (<[SESSION_KEY := SessionDoc session]> ls') /\
    Session.userId session = User.id u /\
    Session.familyId session = normalize familyId /\
    Session.role session = HOST /\
    Session.exp session = (now_exp + 86400000)%Z.
Proof.
  intros (us & Hus & Hnone & -> & ->)%signupCluster_success Hf Hh.
  unfold login, bind, getItem, setItem, ret. rewrite JSON_parse_eq.
  rewrite lookup_insert_eq. simpl.
  fold (normalize familyId') (normalize handle'). rewrite Hf, Hh.
  assert (List.find (same_credentials (normalize familyId) (normalize handle) pass) us
          = None) as Hcred.
  { destruct (List.find (same_credentials _ _ _) us) as [v|] eqn:Hfind; [|done].
    apply find_some in Hfind as [Hv Hsame].
    pose proof (find_none _ _ Hnone v Hv) as Hno.
    unfold same_credentials in Hsame. by rewrite Hno in Hsame. }
  rewrite (find_app_None _ _ _ Hcred). simpl.
  unfold same_credentials, same_handle. simpl.
  rewrite !String.eqb_refl, bool_decide_eq_true_2 by done. simpl.
  eexists. split; [reflexivity|done].
Qed.

(** X2.  [login] refuses every triple that no stored identity has: when no
    stored identity has the normalized cluster id, the normalized handle and
    the pass phrase together, it fails with one and the same message,
    whichever of the three is wrong, and leaves the storage (a session
    stored in it included) as it was. *)
Theorem login_denied (familyId handle pass : string) (now_token now_exp : Z)
    (ls : gmap string Item) (us : list User.t) :
  getUsers ls = Return us ls ->
  (forall u, u ∈ us ->
     ~ (User.familyId u = normalize familyId /\
        User.username u = normalize handle /\
        User.password u = Some pass)) ->
  login familyId handle pass now_token now_exp ls
  = Return (Failure "Access Denied. Invalid credentials or Cluster ID.") ls.
Proof.
  intros Hus%getUsers_inr Hnone.
  unfold login, bind, getItem, ret. rewrite JSON_parse_eq, Hus. simpl.
  fold (normalize familyId) (normalize handle).
  destruct (List.find _ us) as [u|] eqn:Hfind; [|done].
  apply find_some in Hfind as [Hu Hsame]. destruct (Hnone u); [by apply list_elem_of_In|].
  unfold same_credentials, same_handle in Hsame.
  rewrite !andb_true_iff, !String.eqb_eq, bool_decide_eq_true in Hsame. tauto.
Qed.

(** X3.  The session [login] returns is the one [getStoredSession] gives
    back, as long as the clock has not passed its [exp]: until 86400000 ms
    after the login it is returned and stays stored, later it is removed
    and [null] is returned.  [login] writes [SESSION_KEY] only, over any
    session that was there. *)
Theorem login_then_getStoredSession (familyId handle pass : string)
    (now_token now_exp : Z) (ls ls' : gmap string Item) (session : Session.t) :
  login familyId handle pass now_token now_exp ls = Return (Success session) ls' ->
  (forall now, (now <= now_exp + 86400000)%Z ->
     getStoredSession now ls' = Return (Some session) ls') /\
  (forall now, (now_exp + 86400000 < now)%Z ->
     getStoredSession now ls' = Return None (delete SESSION_KEY ls')) /\
  (forall k, k <> SESSION_KEY -> ls' !! k = ls !! k).
Proof.
  unfold login, bind, getItem, setItem, ret. rewrite JSON_parse_eq.
  destruct (parsed _ _) as [e|us]; [done|]. simpl.
  destruct (List.find _ us) as [u|]; [|done]. intros [= <- <-].
  split; [|split].
  - intros now Hnow. rewrite getStoredSession_eq, lookup_insert_eq. simpl.
    unfold SESSION_DURATION. destruct (Z.gtb_spec now (now_exp + 86400000)); [lia|done].
  - intros now Hnow. rewrite getStoredSession_eq, lookup_insert_eq. simpl.
    unfold SESSION_DURATION. destruct (Z.gtb_spec now (now_exp + 86400000)); [done|lia].
  - intros k Hk. by rewrite lookup_insert_ne.
Qed.

(** X4.  After [logout] there is no session: [getStoredSession] returns
    [null] at any time and changes nothing more; a second [logout] changes
    nothing; and [logout] touches no other key. *)
Theorem logout_clears_session (ls : gmap string Item) (now : Z) :
  getStoredSession now (state_of (logout ls))
  = Return None (state_of (logout ls)) /\
  state_of (logout (state_of (logout ls))) = state_of (logout ls) /\
  (forall k, k <> SESSION_KEY -> state_of (logout ls) !! k = ls !! k).
Proof.
  unfold logout, removeItem. simpl. split; [|split].
  - by rewrite getStoredSession_eq, lookup_delete_eq.
  - by rewrite delete_delete_eq.
  - intros k Hk. by rewrite lookup_delete_ne.
Qed.

(** X5.  [getStoredSession] never throws, and asking twice gives the same
    answer: a second call at the same time returns what the first did and
    leaves the storage the first left.  Once it has returned [null], it
    returns [null] at any other time too (a text it could not read stays
    stored; an expired session is gone). *)
Theorem getStoredSession_settles (ls : gmap string Item) (now : Z) :
  exists r ls',
    getStoredSession now ls = Return r ls' /\
    getStoredSession now ls' = Return r ls' /\
    (r = None -> forall now', getStoredSession now' ls' = Return None ls').
Proof.
  rewrite getStoredSession_eq.
  destruct (ls !! SESSION_KEY) as [[| | | |s| |]|] eqn:Hls;
    try (eexists _, ls; split; [reflexivity|]; rewrite getStoredSession_eq, Hls;
         split; [done|]; intros _ now'; by rewrite getStoredSession_eq, Hls).
  destruct (now >? Session.exp s)%Z eqn:Hexp.
  - eexists _, _. split; [reflexivity|].
    rewrite getStoredSession_eq, lookup_delete_eq. split; [done|].
    intros _ now'. by rewrite getStoredSession_eq, lookup_delete_eq.
  - eexists _, ls. split; [reflexivity|].
    rewrite getStoredSession_eq, Hls, Hexp. split; [done|]. intros [=].
Qed.

End Sessions.

(** ** Provisioning members *)

Section Provisioning.
Context {N : Number}.

(** X6.  The three outcomes of [provisionMember].  For a session that is not
    a host's it fails with the authorization message on any storage, without
    reading it (so also on a corrupted one).  For a host's session and a
    readable storage it fails with 'Member handle already provisioned.' when
    a stored identity has the session's cluster id and the normalized
    handle, and otherwise stores, after the others, a new active MEMBER of
    the session's cluster whose parent is the session's identity. *)
Theorem provisionMember_outcomes (session : Session.t) (username pass random : string)
    (ls : gmap string Item) :
  (Session.role session <> HOST ->
     provisionMember session username pass random ls
     = Return (Failure "Authorization restricted to Host Nodes.") ls) /\
  (forall us, Session.role session = HOST -> getUsers ls = Return us ls ->
     (Session.familyId session, normalize username) ∈ stored_key <$> us ->
     provisionMember session username pass random ls
     = Return (Failure "Member handle already provisioned.") ls) /\
  (forall us, Session.role session = HOST -> getUsers ls = Return us ls ->
     (Session.familyId session, normalize username) ∉ stored_key <$> us ->
     let newMember := {|
       User.id := "u_" +:+ random;
       User.familyId := Session.familyId session;
       User.name := username;
       User.username := normalize username;
       User.password := Some pass;
       User.role := MEMBER;
       User.parentId := Some (Session.userId session);
       User.isActive := true |} in
     provisionMember session username pass random ls
     = Return (Success newMember) (<[USERS_KEY := Users (us ++ [newMember])]> ls)).
Proof.
  split; [|split].
  - intros Hrole. unfold provisionMember. by rewrite bool_decide_eq_false_2.
  - intros us Hrole Hus%getUsers_inr Hdup. unfold provisionMember.
    rewrite bool_decide_eq_true_2 by done. simpl.
    unfold bind, getItem, ret. rewrite JSON_parse_eq, Hus. simpl.
    fold (normalize username).
    destruct (List.find _ us) eqn:Hfind; [done|].
    by apply find_same_handle_None in Hfind.
  - intros us Hrole Hus%getUsers_inr Hnew newMember. unfold provisionMember.
    rewrite bool_decide_eq_true_2 by done. simpl.
    unfold bind, getItem, setItem, ret. rewrite JSON_parse_eq, Hus. simpl.
    fold (normalize username).
    apply find_same_handle_None in Hnew. by rewrite Hnew.
Qed.

(** X7.  A member that has been provisioned can log in: after a successful
    [provisionMember], [login] with the same pass phrase, a cluster id that
    normalizes to the session's and a handle that normalizes as the one
    given succeeds, with a session of the new member's id, of the host's
    cluster and of role MEMBER. *)
Theorem provision_then_login (session : Session.t)
    (username pass random familyId' handle' : string) (now_token now_exp : Z)
    (ls ls' : gmap string Item) (member : User.t) :
  provisionMember session username pass random ls = Return (Success member) ls' ->
  normalize familyId' = Session.familyId session ->
  normalize handle' = normalize username ->
  exists s,
    login familyId' handle' pass now_token now_exp ls'
    = Return (Success s) (<[SESSION_KEY := SessionDoc s]> ls') /\
    Session.userId s = User.id member /\
    Session.familyId s = Session.familyId session /\
    Session.role s = MEMBER /\
    User.parentId member = Some (Session.userId session).
Proof.
  unfold provisionMember. destruct (bool_decide _); simpl; [|done].
  unfold bind at 1 2, getItem, ret. rewrite JSON_parse_eq.
  destruct (parsed _ _) as [e|us] eqn:Hus; [done|]. simpl.
  fold (normalize username).
  destruct (List.find _ us) eqn:Hnone; simpl; [done|].
  unfold bind, setItem. intros [= <- <-] Hf Hh.
  unfold login, bind, getItem, setItem, ret. rewrite JSON_parse_eq.
  rewrite lookup_insert_eq. simpl.
  fold (normalize familyId') (normalize handle'). rewrite Hf, Hh.
  assert (List.find (same_credentials (Session.familyId session) (normalize username)
                       pass) us = None) as Hcred.
  { destruct (List.find (same_credentials _ _ _) us) as [v|] eqn:Hfind; [|done].
    apply find_some in Hfind as [Hv Hsame].
    pose proof (find_none _ _ Hnone v Hv) as Hno.
    unfold same_credentials in Hsame. by rewrite Hno in Hsame. }
  rewrite (find_app_None _ _ _ Hcred). simpl.
  unfold same_credentials, same_handle. simpl.
  rewrite !String.eqb_refl, bool_decide_eq_true_2 by done. simpl.
  eexists. split; [reflexivity|done].
Qed.

(** X8.  The id of a new host is made from the reading of the clock alone:
    two identities that sign up at the same reading are both stored, with
    different cluster id or handle, and with the same id. *)
Theorem signups_share_id (familyId1 handle1 pass1 familyId2 handle2 pass2 : string)
    (now : Z) (ls ls1 ls2 : gmap string Item) (u1 u2 : User.t) :
  signupCluster familyId1 handle1 pass1 now ls = Return (Success u1) ls1 ->
  signupCluster familyId2 handle2 pass2 now ls1 = Return (Success u2) ls2 ->
  User.id u1 = User.id u2 /\
  stored_key u1 <> stored_key u2 /\
  u1 ∈ stored_users ls2 /\ u2 ∈ stored_users ls2.
Proof.
  intros (us & Hus & Hnone & -> & ->)%signupCluster_success
         (us' & Hus' & Hnone' & -> & ->)%signupCluster_success.
  rewrite lookup_insert_eq in Hus'. simpl in Hus'. simplify_eq.
  split; [done|]. split.
  - apply find_same_handle_None in Hnone'. intros Hkey. apply Hnone'.
    rewrite fmap_app, elem_of_app. right. apply list_elem_of_singleton.
    exact (eq_sym Hkey).
  - rewrite insert_insert_eq, stored_users_insert.
    rewrite !elem_of_app, !elem_of_cons. split; [left; right; by left|right; by left].
Qed.

End Provisioning.

(** ** The keys of the collections *)

Section Keys.
Context {N : Number}.

(** X9.  Every call of the service leaves alone every key but the one of its
    own collection ([signupCluster] and [provisionMember]: the users;
    [login], [getStoredSession] and [logout]: the session; [sendMessage]: the
    messages; [saveTransaction]: the transactions; [createRequest] and
    [updateRequestStatus]: the requests; [setOnboardingStatus]: the flag of
    its user), also when it fails or throws; the four reads of the
    collections and [getOnboardingStatus] change nothing at all. *)
Theorem calls_keep_other_keys (c : Call) (ls : gmap string Item) :
  (forall k, k ∉ written c -> perform c ls !! k = ls !! k) /\
  (written c = [] -> perform c ls = ls).
Proof.
  split.
  - intros k Hk. by apply perform_frame.
  - intros Hnone. apply map_eq. intros k. apply perform_frame.
    rewrite Hnone. apply not_elem_of_nil.
Qed.

End Keys.

(** ** Messages and the state of the component *)

Section Messages.
Context {N : Number}.

Lemma sendMessage_success (session : Session.t) (text : string)
    (toId : option string) (now_id now_timestamp : Z)
    (ls ls' : gmap string Item) (m : FamilyMessage.t) :
  sendMessage session text toId now_id now_timestamp ls = Return (Success m) ls' ->
  exists old,
    getMessages ls = Return old ls /\
    ls' = <[MESSAGES_KEY := Messages (m :: old)]> ls /\
    m = {| FamilyMessage.id := "msg_" +:+ pretty now_id;
           FamilyMessage.familyId := Session.familyId session;
           FamilyMessage.fromId := Session.userId session;
           FamilyMessage.fromRole := Session.role session;
           FamilyMessage.toId := default "cluster" toId;
           FamilyMessage.text := text;
           FamilyMessage.timestamp := now_timestamp;
           FamilyMessage.isRead := false;
           FamilyMessage.replyToId := None |}.
Proof.
  unfold sendMessage, getMessages, bind, getItem, setItem, ret.
  rewrite !JSON_parse_eq. destruct (parsed _ _) as [e|old]; [done|]. simpl.
  intros [= <- <-]. by exists old.
Qed.

Lemma elem_of_filteredMsgs (msgs : list FamilyMessage.t) (msgTarget : string)
    (reader : Session.t) (m : FamilyMessage.t) :
  m ∈ filteredMsgs msgs msgTarget (Some reader) <->
  m ∈ msgs /\
  if (msgTarget =? "cluster")%string
  then FamilyMessage.toId m = "cluster"
  else (FamilyMessage.fromId m = Session.userId reader /\
        FamilyMessage.toId m = msgTarget) \/
       (FamilyMessage.fromId m = msgTarget /\
        FamilyMessage.toId m = Session.userId reader).
Proof.
  unfold filteredMsgs. rewrite !list_elem_of_In, filter_In.
  destruct (msgTarget =? "cluster")%string.
  - by rewrite String.eqb_eq.
  - by rewrite orb_true_iff, !andb_true_iff, !String.eqb_eq.
Qed.

(** X10.  Who is shown a message that was sent.  A message sent without a
    target, or to 'cluster', is in the broadcast view of every reader that
    has it among its messages.  A message sent to an identity [b] is in the
    sender's view of [b] and in [b]'s view of the sender, never in the
    broadcast view, and in no view at all of a reader who is neither the
    sender nor [b]. *)
Theorem sent_message_views (session : Session.t) (text : string)
    (toId : option string) (now_id now_timestamp : Z)
    (ls ls' : gmap string Item) (m : FamilyMessage.t)
    (msgs : list FamilyMessage.t) :
  sendMessage session text toId now_id now_timestamp ls = Return (Success m) ls' ->
  m ∈ msgs ->
  (default "cluster" toId = "cluster" ->
     forall reader, m ∈ filteredMsgs msgs "cluster" (Some reader)) /\
  (forall b, toId = Some b -> b <> "cluster" ->
     m ∈ filteredMsgs msgs b (Some session) /\
     (forall reader, Session.userId reader = b ->
        Session.userId session <> "cluster" ->
        m ∈ filteredMsgs msgs (Session.userId session) (Some reader)) /\
     (forall reader, m ∉ filteredMsgs msgs "cluster" (Some reader)) /\
     (forall reader msgTarget, m ∈ filteredMsgs msgs msgTarget (Some reader) ->
        Session.userId reader = Session.userId session \/
        Session.userId reader = b)).
Proof.
  intros (old & _ & _ & ->)%sendMessage_success Hm. split.
  - intros Hto reader. apply elem_of_filteredMsgs. by split.
  - intros b -> Hb. cbn [default] in *. split; [|split; [|split]].
    + apply elem_of_filteredMsgs. split; [done|].
      apply String.eqb_neq in Hb as ->. simpl. by left.
    + intros reader Hreader Hsender. apply elem_of_filteredMsgs. split; [done|].
      apply String.eqb_neq in Hsender as ->. simpl. by right.
    + intros reader [_ Hin]%elem_of_filteredMsgs.
      change ("cluster" =? "cluster")%string with true in Hin. simpl in Hin. done.
    + intros reader msgTarget [_ Hin]%elem_of_filteredMsgs.
      destruct (msgTarget =? "cluster")%string; simpl in Hin; [done|].
      destruct Hin as [[? ?]|[? ?]]; auto.
Qed.

(** X11.  The two parties of a conversation are shown the same messages, in
    the same order: the view of [b] that [a] has and the view of [a] that [b]
    has are equal (for ids other than 'cluster'); and the broadcast view is
    the same for every reader. *)
Theorem filteredMsgs_symmetric (msgs : list FamilyMessage.t) (a b : Session.t) :
  Session.userId a <> "cluster" -> Session.userId b <> "cluster" ->
  filteredMsgs msgs (Session.userId b) (Some a)
  = filteredMsgs msgs (Session.userId a) (Some b) /\
  filteredMsgs msgs "cluster" (Some a) = filteredMsgs msgs "cluster" (Some b).
Proof.
  intros Ha%String.eqb_neq Hb%String.eqb_neq. unfold filteredMsgs.
  rewrite Ha, Hb. split; [|done].
  apply filter_ext. intros m. apply orb_comm.
Qed.

Lemma reads_settle (ls : gmap string Item) :
  ((exists l, getUsers ls = Return l ls) \/ (exists e, getUsers ls = Throw e ls)) /\
  ((exists l, getTransactions ls = Return l ls)
   \/ (exists e, getTransactions ls = Throw e ls)) /\
  ((exists l, getRequests ls = Return l ls)
   \/ (exists e, getRequests ls = Throw e ls)) /\
  ((exists l, getMessages ls = Return l ls)
   \/ (exists e, getMessages ls = Throw e ls)).
Proof.
  unfold getUsers, getTransactions, getRequests, getMessages, bind, getItem.
  rewrite !JSON_parse_eq.
  destruct (parsed as_users _), (parsed as_transactions _),
    (parsed as_requests _), (parsed as_messages _);
    repeat split; (by left; eexists) || (by right; eexists).
Qed.

Lemma sync_reads (session : Session.t) (state : Cluster.t)
    (ls : gmap string Item) u t r m :
  getUsers ls = Return u ls -> getTransactions ls = Return t ls ->
  getRequests ls = Return r ls -> getMessages ls = Return m ls ->
  sync (Some session) state ls
  = Return {|
      Cluster.users :=
        List.filter
          (fun user => (User.familyId user =? Session.familyId session)%string) u;
      Cluster.txs := t;
      Cluster.reqs := r;
      Cluster.msgs :=
        List.filter
          (fun msg => (FamilyMessage.familyId msg =? Session.familyId session)%string)
          m
    |} ls.
Proof.
  intros Hu Ht Hr Hm. unfold sync, try_catch, bind, ret.
  by rewrite Hu, Ht, Hr, Hm.
Qed.

Lemma sync_throw (session : Session.t) (state : Cluster.t)
    (ls : gmap string Item) e :
  getUsers ls = Throw e ls \/ getTransactions ls = Throw e ls \/
  getRequests ls = Throw e ls \/ getMessages ls = Throw e ls ->
  sync (Some session) state ls = Return state ls.
Proof.
  intros H. unfold sync, try_catch, bind, ret.
  destruct (reads_settle ls) as ([[u Hu]|[eu Hu]] & Ht & Hr & Hm);
    rewrite Hu; [|done].
  destruct Ht as [[t Ht]|[et Ht]]; rewrite Ht; [|done].
  destruct Hr as [[r Hr]|[er Hr]]; rewrite Hr; [|done].
  destruct Hm as [[m Hm]|[em Hm]]; rewrite Hm; [|done].
  destruct H as [?|[?|[?|?]]]; congruence.
Qed.

(** X12.  [sync] is all or nothing, and never writes.  Without a session it
    does nothing.  With one, when the four collections can be read the new
    state holds the stored identities and messages of the session's cluster
    and all the stored transactions and requests, of any cluster; when one
    of the four reads throws, the state stays as it was.  The storage is
    unchanged in every case. *)
Theorem sync_all_or_nothing (session : Session.t) (state : Cluster.t)
    (ls : gmap string Item) :
  sync None state ls = Return state ls /\
  state_of (sync (Some session) state ls) = ls /\
  (forall u t r m,
     getUsers ls = Return u ls -> getTransactions ls = Return t ls ->
     getRequests ls = Return r ls -> getMessages ls = Return m ls ->
     value_of (sync (Some session) state ls)
     = Some {|
         Cluster.users :=
           List.filter
             (fun user => (User.familyId user =? Session.familyId session)%string) u;
         Cluster.txs := t;
         Cluster.reqs := r;
         Cluster.msgs :=
           List.filter
             (fun msg => (FamilyMessage.familyId msg =? Session.familyId session)%string)
             m
       |}) /\
  (forall e,
     getUsers ls = Throw e ls \/ getTransactions ls = Throw e ls \/
     getRequests ls = Throw e ls \/ getMessages ls = Throw e ls ->
     sync (Some session) state ls = Return state ls).
Proof.
  split; [done|]. split; [|split].
  - destruct (reads_settle ls) as ([[u Hu]|[eu Hu]] & Ht & Hr & Hm);
      [|by erewrite sync_throw; eauto].
    destruct Ht as [[t Ht]|[et Ht]]; [|by erewrite sync_throw; eauto].
    destruct Hr as [[r Hr]|[er Hr]]; [|by erewrite sync_throw; eauto].
    destruct Hm as [[m Hm]|[em Hm]]; [|by erewrite sync_throw; eauto 6].
    by rewrite (sync_reads _ _ _ u t r m).
  - intros u t r m Hu Ht Hr Hm. by rewrite (sync_reads _ _ _ u t r m).
  - intros e. apply sync_throw.
Qed.

(** X13.  After a [sync] that could read the four collections, a host is
    listed every stored request, whoever asked for it (a request carries no
    cluster id, and none is compared), and a member is listed exactly the
    stored requests it asked for. *)
Theorem listedRequests_after_sync (session : Session.t) (state : Cluster.t)
    (ls : gmap string Item) u t (stored : list MoneyRequest.t) m :
  getUsers ls = Return u ls -> getTransactions ls = Return t ls ->
  getRequests ls = Return stored ls -> getMessages ls = Return m ls ->
  exists state',
    sync (Some session) state ls = Return state' ls /\
    (Session.role session = HOST ->
       listedRequests (Cluster.reqs state') session = stored) /\
    (Session.role session = MEMBER ->
       forall r, r ∈ listedRequests (Cluster.reqs state') session <->
                 r ∈ stored /\ MoneyRequest.childId r = Session.userId session).
Proof.
  intros Hu Ht Hr Hm. eexists. split; [by apply sync_reads|].
  unfold listedRequests. simpl. split.
  - intros ->. clear. induction stored as [|r l IH]; simpl in *; [done|by f_equal].
  - intros ->. intros r. rewrite !list_elem_of_In, filter_In. simpl.
    by rewrite String.eqb_eq.
Qed.

End Messages.

(** ** The forms and buttons of the component *)

Section Handlers.
Context {N : Number}.

Lemma getTransactions_inr (ls : gmap string Item) (txs : list Transaction.t) :
  getTransactions ls = Return txs ls ->
  parsed as_transactions (or_empty (Transactions []) (ls !! TRANSACTIONS_KEY)) = inr txs.
Proof.
  unfold getTransactions, bind, getItem. rewrite JSON_parse_eq.
  destruct (parsed _ _); intros; by simplify_eq.
Qed.

Lemma getTransactions_eq (ls : gmap string Item) :
  getTransactions ls =
  match parsed as_transactions (or_empty (Transactions []) (ls !! TRANSACTIONS_KEY)) with
  | inr txs => Return txs ls
  | inl e => Throw e ls
  end.
Proof. unfold getTransactions, bind, getItem. by rewrite JSON_parse_eq. Qed.

Lemma getRequests_eq (ls : gmap string Item) :
  getRequests ls =
  match parsed as_requests (or_empty (Requests []) (ls !! REQUESTS_KEY)) with
  | inr rs => Return rs ls
  | inl e => Throw e ls
  end.
Proof. unfold getRequests, bind, getItem. by rewrite JSON_parse_eq. Qed.

(** A read depends on the text under its own key only. *)
Lemma getTransactions_frame (ls ls' : gmap string Item) (txs : list Transaction.t) :
  ls' !! TRANSACTIONS_KEY = ls !! TRANSACTIONS_KEY ->
  getTransactions ls = Return txs ls -> getTransactions ls' = Return txs ls'.
Proof.
  intros Hk H%getTransactions_inr. by rewrite getTransactions_eq, Hk, H.
Qed.

Lemma getRequests_frame (ls ls' : gmap string Item) (rs : list MoneyRequest.t) :
  ls' !! REQUESTS_KEY = ls !! REQUESTS_KEY ->
  getRequests ls = Return rs ls -> getRequests ls' = Return rs ls'.
Proof.
  intros Hk H%getRequests_inr. by rewrite getRequests_eq, Hk, H.
Qed.

Lemma getTransactions_stored (ls : gmap string Item) (txs : list Transaction.t) :
  getTransactions (<[TRANSACTIONS_KEY := Transactions txs]> ls)
  = Return txs (<[TRANSACTIONS_KEY := Transactions txs]> ls).
Proof. by rewrite getTransactions_eq, lookup_insert_eq. Qed.

Lemma getRequests_stored (ls : gmap string Item) (rs : list MoneyRequest.t) :
  getRequests (<[REQUESTS_KEY := Requests rs]> ls)
  = Return rs (<[REQUESTS_KEY := Requests rs]> ls).
Proof. by rewrite getRequests_eq, lookup_insert_eq. Qed.

Lemma saveTransaction_run (session : Session.t) (tx : Transaction.t)
    (ls : gmap string Item) (old : list Transaction.t) :
  getTransactions ls = Return old ls ->
  saveTransaction session tx ls
  = Return (Success tx) (<[TRANSACTIONS_KEY := Transactions (tx :: old)]> ls).
Proof.
  intros H%getTransactions_inr.
  unfold saveTransaction, bind, getItem, setItem, ret.
  by rewrite JSON_parse_eq, H.
Qed.

Lemma createRequest_run (session : Session.t) (a : num) (reason : string)
    (now_id now_timestamp : Z) (ls : gmap string Item) (old : list MoneyRequest.t) :
  getRequests ls = Return old ls ->
  createRequest session a reason now_id now_timestamp ls
  = Return (Success {|
      MoneyRequest.id := "req_" +:+ pretty now_id;
      MoneyRequest.childId := Session.userId session;
      MoneyRequest.amount := a;
      MoneyRequest.reason := reason;
      MoneyRequest.status := PENDING;
      MoneyRequest.timestamp := now_timestamp
    |})
    (<[REQUESTS_KEY := Requests ({|
      MoneyRequest.id := "req_" +:+ pretty now_id;
      MoneyRequest.childId := Session.userId session;
      MoneyRequest.amount := a;
      MoneyRequest.reason := reason;
      MoneyRequest.status := PENDING;
      MoneyRequest.timestamp := now_timestamp
    |} :: old)]> ls).
Proof.
  intros H%getRequests_inr.
  unfold createRequest, bind, getItem, setItem, ret.
  by rewrite JSON_parse_eq, H.
Qed.

(** [updateRequestStatus] settles when the requests can be read: it answers
    with a response, writes under the key of the requests at most, leaves
    the requests readable, and leaves the storage as it was when the
    response is an error. *)
Lemma updateRequestStatus_settles (session : Session.t) (requestId : string)
    (status : RequestStatus) (ls : gmap string Item) (rs : list MoneyRequest.t) :
  getRequests ls = Return rs ls ->
  exists r ls' rs',
    updateRequestStatus session requestId status ls = Return r ls' /\
    (forall k, k <> REQUESTS_KEY -> ls' !! k = ls !! k) /\
    getRequests ls' = Return rs' ls' /\
    (forall msg, r = Failure msg -> ls' = ls).
Proof.
  intros Hr. pose proof (getRequests_inr _ _ Hr) as H. unfold updateRequestStatus.
  destruct (bool_decide _); simpl; [|by eexists _, _, _].
  unfold bind, getItem, setItem, ret. rewrite JSON_parse_eq, H. simpl.
  destruct (findIndex _ _); simpl; [|by eexists _, _, _].
  eexists _, _, _. split; [done|]. split; [|split; [apply getRequests_stored|done]].
  intros k Hk. by rewrite lookup_insert_ne.
Qed.

Lemma updateRequestStatus_head (session : Session.t) (status : RequestStatus)
    (ls : gmap string Item) (r : MoneyRequest.t) (rs : list MoneyRequest.t) :
  Session.role session = HOST ->
  getRequests ls = Return (r :: rs) ls ->
  updateRequestStatus session (MoneyRequest.id r) status ls
  = Return (Success true)
      (<[REQUESTS_KEY := Requests (MoneyRequest.set_status status r :: rs)]> ls).
Proof.
  intros Hrole H%getRequests_inr. unfold updateRequestStatus.
  rewrite bool_decide_eq_true_2 by done. simpl.
  unfold bind, getItem, setItem, ret. rewrite JSON_parse_eq, H. simpl.
  by rewrite String.eqb_refl.
Qed.

Lemma approve_run (session : Session.t) (req : MoneyRequest.t)
    (now_id now_timestamp : Z) (ls : gmap string Item)
    (rs : list MoneyRequest.t) (old : list Transaction.t) :
  getRequests ls = Return rs ls ->
  getTransactions ls = Return old ls ->
  exists ls' rs',
    approve session req now_id now_timestamp ls
    = Return (Some ("Capital Ratified", ToastSuccess)) ls' /\
    getTransactions ls' = Return (ratified req now_id now_timestamp :: old) ls' /\
    getRequests ls' = Return rs' ls' /\
    ((Session.role session <> HOST \/
      forall r, r ∈ rs -> MoneyRequest.id r <> MoneyRequest.id req) -> rs' = rs).
Proof.
  intros Hr Ht.
  destruct (updateRequestStatus_settles session (MoneyRequest.id req) APPROVED ls rs Hr)
    as (r & ls1 & rs' & Hup & Hframe & Hr1 & Hfail).
  assert (getTransactions ls1 = Return old ls1) as Ht1.
  { apply (getTransactions_frame ls); [|done]. by apply Hframe. }
  eexists _, rs'. unfold approve, bind. rewrite Hup.
  rewrite (saveTransaction_run _ _ _ old Ht1). unfold ret.
  split; [done|]. split; [apply getTransactions_stored|]. split.
  { apply (getRequests_frame ls1); [by rewrite lookup_insert_ne|done]. }
  intros Hno.
  assert (ls1 = ls) as ->; [|congruence].
  revert Hup. unfold updateRequestStatus.
  destruct Hno as [Hrole|Hnone].
  - rewrite bool_decide_eq_false_2 by done. simpl. unfold ret. congruence.
  - destruct (bool_decide _); simpl; unfold ret; [|congruence].
    unfold bind, getItem, ret. rewrite JSON_parse_eq, (getRequests_inr _ _ Hr).
    simpl.
    assert (findIndex
              (fun r => (MoneyRequest.id r =? MoneyRequest.id req)%string) rs
            = None) as ->; [|simpl; congruence].
    apply findIndex_None. intros r' Hr'. apply String.eqb_neq. by apply Hnone.
Qed.

(** X14.  What the forms refuse.  An amount that is 0 or NaN, or an empty
    purpose, makes 'Commit Log' answer 'Invalid Data' and write nothing; an
    amount that is 0 or NaN, or a form filled for another member's card,
    makes 'Credit Node' do nothing; an amount that is 0 or NaN, or an empty
    justification, makes 'Dispatch Request' do nothing; a message of white
    space only is not sent. *)
Theorem forms_refuse_without_writing (session : Session.t) (a : num)
    (text : string) (cat : TransactionCategory) (member : User.t)
    (memberId msgTarget : string) (now_id now_timestamp : Z)
    (ls : gmap string Item) :
  (truthy a = false \/ text = "" ->
     commitLog session a text cat now_id now_timestamp ls
     = Return (Some ("Invalid Data", ToastError)) ls) /\
  (truthy a = false \/ memberId <> User.id member ->
     creditNode session member memberId a text now_id now_timestamp ls
     = Return None ls) /\
  (truthy a = false \/ text = "" ->
     dispatchRequest session a text now_id now_timestamp ls = Return None ls) /\
  (trim text = "" ->
     transmit session text msgTarget now_id now_timestamp ls = Return tt ls).
Proof.
  unfold commitLog, creditNode, dispatchRequest, transmit.
  split; [|split; [|split]].
  - intros [->| ->]; [done|]. by rewrite orb_true_r.
  - intros [->|Hm%String.eqb_neq]; [done|]. by rewrite Hm, orb_true_r.
  - intros [->| ->]; [done|]. by rewrite orb_true_r.
  - by intros ->.
Qed.

(** X15.  'Approve' records the credit whatever the answer of the status
    update.  When the stored requests and transactions can be read, the
    handler ends with the toast 'Capital Ratified' and a credit of the
    amount of the request as the component holds it, in front of the stored
    transactions: for a host and a stored request, and just as well when
    [updateRequestStatus] answers 'Unauthorized.' or 'Not found.', an answer
    the handler does not look at, and the stored requests are as before. *)
Theorem approve_credits_whatever_the_update (session : Session.t)
    (req : MoneyRequest.t) (now_id now_timestamp : Z) (ls : gmap string Item)
    (rs : list MoneyRequest.t) (old : list Transaction.t) :
  getRequests ls = Return rs ls ->
  getTransactions ls = Return old ls ->
  exists ls',
    approve session req now_id now_timestamp ls
    = Return (Some ("Capital Ratified", ToastSuccess)) ls' /\
    getTransactions ls'
    = Return ({|
        Transaction.id := "tx_appr_" +:+ pretty now_id;
        Transaction.userId := MoneyRequest.childId req;
        Transaction.amount := MoneyRequest.amount req;
        Transaction.type := CREDIT;
        Transaction.category := GIFT;
        Transaction.description := "Funding Ratified: " +:+ MoneyRequest.reason req;
        Transaction.timestamp := now_timestamp
      |} :: old) ls' /\
    ((Session.role session <> HOST \/
      forall r, r ∈ rs -> MoneyRequest.id r <> MoneyRequest.id req) ->
     getRequests ls' = Return rs ls').
Proof.
  intros Hr Ht.
  destruct (approve_run session req now_id now_timestamp ls rs old Hr Ht)
    as (ls' & rs' & Hrun & Ht' & Hr' & Hsame).
  exists ls'. split; [done|]. split; [done|].
  intros Hno. by rewrite <- (Hsame Hno).
Qed.

(** X16.  'Approve' is not idempotent: pressed twice on the same request
    (the buttons stay until the component has synchronised), it records two
    credits of the amount of the request. *)
Theorem approve_twice_credits_twice (session : Session.t)
    (req : MoneyRequest.t) (t1 t2 t3 t4 : Z) (ls : gmap string Item)
    (rs : list MoneyRequest.t) (old : list Transaction.t) :
  getRequests ls = Return rs ls ->
  getTransactions ls = Return old ls ->
  exists ls' c1 c2,
    (approve session req t1 t2;;; approve session req t3 t4)%js ls
    = Return (Some ("Capital Ratified", ToastSuccess)) ls' /\
    getTransactions ls' = Return (c2 :: c1 :: old) ls' /\
    Forall (fun c => Transaction.type c = CREDIT /\
                     Transaction.userId c = MoneyRequest.childId req /\
                     Transaction.amount c = MoneyRequest.amount req) [c1; c2].
Proof.
  intros Hr Ht.
  destruct (approve_run session req t1 t2 ls rs old Hr Ht)
    as (ls1 & rs1 & Hrun1 & Ht1 & Hr1 & _).
  destruct (approve_run session req t3 t4 ls1 rs1 _ Hr1 Ht1)
    as (ls2 & rs2 & Hrun2 & Ht2 & _ & _).
  exists ls2, (ratified req t1 t2), (ratified req t3 t4).
  unfold bind at 1. rewrite Hrun1, Hrun2. split; [done|]. split; [done|].
  by repeat constructor.
Qed.

(** X17.  A request from the form to the approval.  A member's 'Dispatch
    Request' with a truthy amount and a justification, followed by a host's
    'Approve' of the request made, leaves that request in front of the
    stored requests with status APPROVED, and in front of the stored
    transactions a credit of the amount asked, for the member. *)
Theorem request_round_trip (member host : Session.t) (a : num) (reason : string)
    (t1 t2 t3 t4 : Z) (ls : gmap string Item)
    (rs : list MoneyRequest.t) (old : list Transaction.t) :
  getRequests ls = Return rs ls ->
  getTransactions ls = Return old ls ->
  truthy a = true -> reason <> "" -> Session.role host = HOST ->
  let req := {|
    MoneyRequest.id := "req_" +:+ pretty t1;
    MoneyRequest.childId := Session.userId member;
    MoneyRequest.amount := a;
    MoneyRequest.reason := reason;
    MoneyRequest.status := PENDING;
    MoneyRequest.timestamp := t2
  |} in
  exists ls',
    (dispatchRequest member a reason t1 t2;;; approve host req t3 t4)%js ls
    = Return (Some ("Capital Ratified", ToastSuccess)) ls' /\
    getRequests ls' = Return (MoneyRequest.set_status APPROVED req :: rs) ls' /\
    getTransactions ls'
    = Return ({|
        Transaction.id := "tx_appr_" +:+ pretty t3;
        Transaction.userId := Session.userId member;
        Transaction.amount := a;
        Transaction.type := CREDIT;
        Transaction.category := GIFT;
        Transaction.description := "Funding Ratified: " +:+ reason;
        Transaction.timestamp := t4
      |} :: old) ls'.
Proof.
  intros Hr Ht Ha Hreason%String.eqb_neq Hrole req.
  eexists. unfold dispatchRequest, approve.
  rewrite Ha, Hreason. simpl. unfold bind.
  rewrite (createRequest_run _ _ _ _ _ _ rs Hr). fold req. unfold ret at 1.
  rewrite (updateRequestStatus_head host APPROVED _ req rs Hrole (getRequests_stored _ _)).
  rewrite insert_insert_eq.
  erewrite saveTransaction_run; cycle 1.
  { apply (getTransactions_frame ls); [by rewrite lookup_insert_ne|done]. }
  unfold ret. split; [done|]. split.
  - rewrite getRequests_eq, lookup_insert_ne by done. by rewrite lookup_insert_eq.
  - apply getTransactions_stored.
Qed.

(** X18.  The keys the handlers write.  'Commit Log' and 'Credit Node' change
    nothing but the stored transactions, 'Dispatch Request' and 'Veto'
    nothing but the stored requests, 'Send' nothing but the stored messages,
    and 'Approve' nothing but the stored requests and transactions: no
    handler touches the identities or the session. *)
Theorem handlers_keep_other_keys (session : Session.t) (a : num)
    (text msgTarget memberId : string) (cat : TransactionCategory)
    (member : User.t) (req : MoneyRequest.t) (now_id now_timestamp : Z)
    (ls : gmap string Item) (k : string) :
  (k <> TRANSACTIONS_KEY ->
     state_of (commitLog session a text cat now_id now_timestamp ls) !! k = ls !! k /\
     state_of (creditNode session member memberId a text now_id now_timestamp ls) !! k
     = ls !! k) /\
  (k <> REQUESTS_KEY ->
     state_of (dispatchRequest session a text now_id now_timestamp ls) !! k = ls !! k /\
     state_of (veto session req ls) !! k = ls !! k) /\
  (k <> MESSAGES_KEY ->
     state_of (transmit session text msgTarget now_id now_timestamp ls) !! k = ls !! k) /\
  (k <> REQUESTS_KEY -> k <> TRANSACTIONS_KEY ->
     state_of (approve session req now_id now_timestamp ls) !! k = ls !! k).
Proof.
  unfold commitLog, creditNode, dispatchRequest, veto, transmit, approve,
    saveTransaction, createRequest, updateRequestStatus, sendMessage,
    bind, ret, getItem, setItem.
  repeat split; intros;
    rewrite ?JSON_parse_eq;
    repeat (case_match; simplify_eq/=; try done);
    rewrite ?JSON_parse_eq in *;
    repeat (case_match; simplify_eq/=; try done);
    rewrite ?lookup_insert_ne by done; done.
Qed.

End Handlers.

(** ** Balances after a transaction *)

Section Balances.
Context {N : Number}.
Local Open Scope num_scope.

(** A transaction of an identity that is no member among [users] does not
    count in the total of the registry. *)
Lemma mBal_other (txs : list Transaction.t) (tx : Transaction.t) (member : User.t) :
  Transaction.userId tx <> User.id member ->
  mBal (tx :: txs) member = mBal txs member.
Proof.
  intros H%String.eqb_neq. unfold mBal, memberTxs. simpl. by rewrite H.
Qed.

Lemma fold_left_ext_in {A B} (f g : A -> B -> A) (l : list B) (a : A) :
  (forall x b, b ∈ l -> f x b = g x b) -> fold_left f l a = fold_left g l a.
Proof.
  revert a; induction l as [|b l IH]; intros a H; simpl; [done|].
  rewrite (H a b) by apply list_elem_of_here. apply IH.
  intros x b' Hb'. apply H. by apply list_elem_of_further.
Qed.

End Balances.

(** *** On the numbers of the host *)

Lemma currentBalance_cons_other {N : Number} (tx : Transaction.t)
    (old : list Transaction.t) (who : Session.t) :
  Transaction.userId tx <> Session.userId who ->
  currentBalance (tx :: old) (Some who) = currentBalance old (Some who).
Proof.
  intros H%String.eqb_neq. unfold currentBalance, memberTxs. simpl. by rewrite H.
Qed.

Lemma currentBalance_cons_whole (tx : @Transaction.t binary64)
    (old : list Transaction.t) (who : Session.t) :
  Transaction.userId tx = Session.userId who ->
  whole_amounts (tx :: memberTxs old (Session.userId who)) ->
  currentBalance (tx :: old) (Some who) = apply_tx (currentBalance old (Some who)) tx.
Proof.
  intros Hown%String.eqb_eq Hwhole. unfold currentBalance, memberTxs in *.
  simpl. rewrite Hown.
  set (l := List.filter _ old) in *.
  pose proof (balance_denotes _ Hwhole) as Hnew.
  destruct Hwhole as [[Htx Hl]%Forall_cons Hm]. simpl in Hm.
  pose proof (magnitude_nonneg l). pose proof (net_bound l).
  assert (whole_amounts l) as Hold by (split; [done|lia]).
  apply (denotes_inj _ _ (net (tx :: l))); [done|].
  simpl. rewrite Z.add_comm.
  apply apply_tx_denotes; [by apply balance_denotes|done|lia].
Qed.

(** X19.  What a recorded transaction does to the balances.  When the stored
    transactions can be read, [saveTransaction] succeeds, and of the
    balances computed from the transactions then stored, that of every
    identity other than the transaction's is the balance before; that of
    the identity of the transaction is the balance before plus the amount
    of a credit or minus the amount of a debit, when the amounts of the
    identity's transactions, the new one included, are whole numbers whose
    absolute values add up to less than 2^53 (no sum or difference then
    rounds). *)
Theorem saveTransaction_moves_one_balance (caller : Session.t)
    (tx : @Transaction.t binary64) (ls : gmap string Item)
    (old : list Transaction.t) :
  getTransactions ls = Return old ls ->
  exists ls' new,
    saveTransaction caller tx ls = Return (Success tx) ls' /\
    getTransactions ls' = Return new ls' /\
    (forall who, Transaction.userId tx <> Session.userId who ->
       currentBalance new (Some who) = currentBalance old (Some who)) /\
    (forall who, Transaction.userId tx = Session.userId who ->
       whole_amounts (tx :: memberTxs old (Session.userId who)) ->
       currentBalance new (Some who)
       = if bool_decide (Transaction.type tx = CREDIT)
         then (currentBalance old (Some who) ⊕ Transaction.amount tx)%num
         else (currentBalance old (Some who) ⊖ Transaction.amount tx)%num).
Proof.
  intros Ht. eexists _, _. split; [by apply saveTransaction_run|].
  split; [apply getTransactions_stored|]. split.
  - intros who Hother. by apply currentBalance_cons_other.
  - intros who Hown Hwhole. by rewrite currentBalance_cons_whole.
Qed.

(** X20.  What the two transaction forms do to the balances.  'Commit Log'
    with a truthy amount and a purpose puts a debit of the session's
    identity in front of the stored transactions whatever its balance is
    (no funds are checked), and changes no other balance; 'Credit Node' with
    a truthy amount on the card the form was filled for puts a credit of
    that member in front, and changes no other balance: nothing is taken
    from the host.  When the amounts of the identity's transactions, the new
    one included, are whole numbers whose absolute values add up to less
    than 2^53, the balance of the identity is the balance before minus the
    amount, for 'Commit Log', and plus the amount, for 'Credit Node'. *)
Theorem forms_move_one_balance (session : Session.t) (a : float) (text : string)
    (cat : TransactionCategory) (member : User.t) (now_id now_timestamp : Z)
    (ls : gmap string (@Item binary64)) (old : list Transaction.t) :
  getTransactions ls = Return old ls ->
  @truthy binary64 a = true ->
  let debit := {|
    Transaction.id := "tx_" +:+ pretty now_id;
    Transaction.userId := Session.userId session;
    Transaction.amount := a;
    Transaction.type := DEBIT;
    Transaction.category := cat;
    Transaction.description := text;
    Transaction.timestamp := now_timestamp
  |} in
  let credit := {|
    Transaction.id := "tx_prov_" +:+ pretty now_id;
    Transaction.userId := User.id member;
    Transaction.amount := a;
    Transaction.type := CREDIT;
    Transaction.category := GIFT;
    Transaction.description := text;
    Transaction.timestamp := now_timestamp
  |} in
  (text <> "" ->
     commitLog session a text cat now_id now_timestamp ls
     = Return (Some ("Ledger Record Post Successful", ToastSuccess))
         (<[TRANSACTIONS_KEY := Transactions (debit :: old)]> ls) /\
     (forall other, Session.userId other <> Session.userId session ->
        currentBalance (debit :: old) (Some other) = currentBalance old (Some other)) /\
     (whole_amounts (debit :: memberTxs old (Session.userId session)) ->
        currentBalance (debit :: old) (Some session)
        = (currentBalance old (Some session) ⊖ a)%num)) /\
  (creditNode session member (User.id member) a text now_id now_timestamp ls
   = Return (Some ("Capital Injection Successful", ToastSuccess))
       (<[TRANSACTIONS_KEY := Transactions (credit :: old)]> ls) /\
   (forall other, Session.userId other <> User.id member ->
      currentBalance (credit :: old) (Some other) = currentBalance old (Some other)) /\
   (forall who, Session.userId who = User.id member ->
      whole_amounts (credit :: memberTxs old (User.id member)) ->
      currentBalance (credit :: old) (Some who)
      = (currentBalance old (Some who) ⊕ a)%num)).
Proof.
  intros Ht Ha debit credit. split.
  - intros Htext%String.eqb_neq.
    unfold commitLog. rewrite Ha, Htext. cbn [negb orb]. unfold bind.
    rewrite (saveTransaction_run _ _ _ old Ht). unfold ret.
    split; [done|]. split.
    + intros other Hother. apply currentBalance_cons_other. simpl. congruence.
    + intros Hwhole. by rewrite currentBalance_cons_whole.
  - unfold creditNode. rewrite Ha, String.eqb_refl. cbn [negb orb]. unfold bind.
    rewrite (saveTransaction_run _ _ _ old Ht). unfold ret.
    split; [done|]. split.
    + intros other Hother. apply currentBalance_cons_other. simpl. congruence.
    + intros who Hwho Hwhole. rewrite currentBalance_cons_whole; [done|done|].
      by rewrite Hwho.
Qed.

Lemma memberTxs_cons {N : Number} (tx : Transaction.t) (txs : list Transaction.t)
    (userId : string) :
  memberTxs (tx :: txs) userId
  = if (Transaction.userId tx =? userId)%string
    then tx :: memberTxs txs userId else memberTxs txs userId.
Proof. done. Qed.

Lemma members_magnitude_cons (m : User.t) (members : list User.t)
    (txs : list (@Transaction.t binary64)) :
  members_magnitude (m :: members) txs
  = magnitude (memberTxs txs (User.id m)) + members_magnitude members txs.
Proof. done. Qed.

Lemma members_net_cons (m : User.t) (members : list User.t)
    (txs : list (@Transaction.t binary64)) :
  members_net (m :: members) txs
  = net (memberTxs txs (User.id m)) + members_net members txs.
Proof. done. Qed.

Lemma magnitude_cons (t : @Transaction.t binary64) (l : list Transaction.t) :
  magnitude (t :: l) = Z.abs (value t) + magnitude l.
Proof. done. Qed.

Lemma net_cons (t : @Transaction.t binary64) (l : list Transaction.t) :
  net (t :: l) = signed_value t + net l.
Proof. done. Qed.

Lemma signed_value_bound (t : @Transaction.t binary64) :
  Z.abs (signed_value t) = Z.abs (value t).
Proof. unfold signed_value. destruct (bool_decide _); lia. Qed.

Lemma members_other (members : list User.t)
    (tx : @Transaction.t binary64) (txs : list Transaction.t) :
  Transaction.userId tx ∉ User.id <$> members ->
  members_magnitude members (tx :: txs) = members_magnitude members txs /\
  members_net members (tx :: txs) = members_net members txs.
Proof.
  induction members as [|m members IH]; [done|].
  rewrite fmap_cons, not_elem_of_cons. intros [Hm Hrest].
  destruct (IH Hrest) as [IHm IHn].
  rewrite !members_magnitude_cons, !members_net_cons, memberTxs_cons.
  apply String.eqb_neq in Hm. rewrite Hm. lia.
Qed.

Lemma members_step (members : list User.t) (tx : @Transaction.t binary64)
    (txs : list Transaction.t) :
  NoDup (User.id <$> members) ->
  members_magnitude members (tx :: txs)
  <= Z.abs (value tx) + members_magnitude members txs /\
  (Transaction.userId tx ∈ User.id <$> members ->
   members_net members (tx :: txs) = members_net members txs + signed_value tx).
Proof.
  induction members as [|m members IH]; intros Hnd.
  - split; [simpl; lia|]. by intros ?%elem_of_nil.
  - rewrite fmap_cons in Hnd. apply NoDup_cons in Hnd as [Hfresh Hnd].
    destruct (IH Hnd) as [IHm IHn].
    rewrite !members_magnitude_cons, !members_net_cons, memberTxs_cons.
    destruct (String.eqb_spec (Transaction.userId tx) (User.id m)) as [Heq|Hne].
    + destruct (members_other members tx txs) as [Hm' Hn'].
      { by rewrite Heq. }
      rewrite magnitude_cons, net_cons. split; [lia|]. intros _. lia.
    + split; [lia|]. rewrite fmap_cons.
      intros [?|Hin]%elem_of_cons; [done|]. specialize (IHn Hin). lia.
Qed.

Lemma members_magnitude_nonneg (members : list User.t)
    (txs : list (@Transaction.t binary64)) :
  0 <= members_magnitude members txs /\
  Z.abs (members_net members txs) <= members_magnitude members txs.
Proof.
  induction members as [|m members IH]; [simpl; lia|].
  rewrite members_magnitude_cons, members_net_cons.
  pose proof (magnitude_nonneg (memberTxs txs (User.id m))).
  pose proof (net_bound (memberTxs txs (User.id m))). lia.
Qed.

Lemma members_magnitude_bound (members : list User.t)
    (txs : list (@Transaction.t binary64)) :
  NoDup (User.id <$> members) ->
  members_magnitude members txs <= magnitude txs.
Proof.
  intros Hnd. induction txs as [|tx txs IH].
  - clear Hnd. induction members as [|m members IH]; [done|].
    rewrite members_magnitude_cons. simpl. simpl in IH. lia.
  - destruct (members_step members tx txs Hnd) as [Hstep _].
    rewrite magnitude_cons. lia.
Qed.

Lemma liquidity_denotes (members : list User.t)
    (txs : list (@Transaction.t binary64)) (acc : float) (a : Z) :
  denotes acc a ->
  Forall (fun t => whole (Transaction.amount t)) txs ->
  Z.abs a + members_magnitude members txs < 2 ^ 53 ->
  denotes (fold_left (fun total member => @add binary64 total (mBal txs member))
             members acc)
    (a + members_net members txs).
Proof.
  revert acc a; induction members as [|m members IH]; intros acc a Hacc Hw Hb.
  - simpl. by rewrite Z.add_0_r.
  - rewrite members_magnitude_cons in Hb. rewrite members_net_cons.
    destruct (members_magnitude_nonneg members txs) as [? ?].
    pose proof (magnitude_nonneg (memberTxs txs (User.id m))).
    pose proof (net_bound (memberTxs txs (User.id m))).
    cbn [fold_left]. rewrite Z.add_assoc.
    apply IH; [|done|lia].
    apply add_denotes; [done| |lia].
    apply balance_denotes. split; [by apply Forall_List_filter|lia].
Qed.

(** X21.  The total of the registry counts the members of the cluster, each
    once.  A transaction of an identity that is no member among the users
    shown (the host's own, or one of another cluster) leaves 'Total Cluster
    Liquidity' as it was.  When the members have distinct ids and the
    amounts of the transactions are whole numbers whose absolute values add
    up to less than 2^53, a transaction of a member moves the total by its
    amount, up for a credit and down for a debit. *)
Theorem clusterLiquidity_counts_members (users : list User.t)
    (txs : list (@Transaction.t binary64)) (tx : Transaction.t) :
  ((forall u, u ∈ users -> User.role u = MEMBER ->
      User.id u <> Transaction.userId tx) ->
   clusterLiquidity users (tx :: txs) = clusterLiquidity users txs) /\
  (forall member, member ∈ users -> User.role member = MEMBER ->
     User.id member = Transaction.userId tx ->
     NoDup (User.id <$> List.filter (fun u => bool_decide (User.role u = MEMBER)) users) ->
     whole_amounts (tx :: txs) ->
     clusterLiquidity users (tx :: txs) = apply_tx (clusterLiquidity users txs) tx).
Proof.
  unfold clusterLiquidity. split.
  - intros Hother. apply fold_left_ext_in. intros x m Hm.
    apply list_elem_of_In, filter_In in Hm as [Hm Hrole].
    apply bool_decide_eq_true in Hrole. apply list_elem_of_In in Hm.
    rewrite mBal_other; [done|]. apply not_eq_sym. by apply Hother.
  - intros member Hin Hrole Hid Hnd [Hw Hm].
    set (members := List.filter (fun u => bool_decide (User.role u = MEMBER)) users)
      in *.
    assert (Transaction.userId tx ∈ User.id <$> members) as Hmem.
    { rewrite <- Hid. apply list_elem_of_fmap. exists member. split; [done|].
      apply list_elem_of_In, filter_In. split; [by apply list_elem_of_In|].
      by apply bool_decide_eq_true. }
    pose proof Hw as [Htx Hw']%Forall_cons. rewrite magnitude_cons in Hm.
    destruct (members_step members tx txs Hnd) as [Hstep Hnet].
    pose proof (members_magnitude_bound members txs Hnd).
    destruct (members_magnitude_nonneg members txs) as [? ?].
    apply (denotes_inj _ _ (members_net members (tx :: txs))).
    + apply (liquidity_denotes members (tx :: txs) (@zero binary64) 0);
        [apply zero_denotes|done|simpl; lia].
    + rewrite (Hnet Hmem).
      apply apply_tx_denotes; [|done|lia].
      apply (liquidity_denotes members txs (@zero binary64) 0);
        [apply zero_denotes|done|simpl; lia].
Qed.


(** ** The totals of the analytics engine *)

Section Categories.
Context {N : Number}.
Local Open Scope num_scope.

Lemma bump_keys (category : TransactionCategory) (amount : num)
    (acc : list (TransactionCategory * num)) :
  (bump category amount acc).*1
  = if bool_decide (category ∈ acc.*1) then acc.*1 else (acc.*1 ++ [category])%list.
Proof.
  induction acc as [|[c v] acc IH]; [done|].
  cbn [bump]. rewrite !fmap_cons. cbn [fst].
  destruct (decide (c = category)) as [->|Hne].
  - rewrite bool_decide_eq_true_2 by done. rewrite fmap_cons. cbn [fst].
    by rewrite bool_decide_eq_true_2 by apply list_elem_of_here.
  - rewrite bool_decide_eq_false_2 by done. rewrite fmap_cons, IH. cbn [fst].
    destruct (decide (category ∈ acc.*1)) as [Hin|Hout].
    + rewrite !bool_decide_eq_true_2; [done| |done]. by apply list_elem_of_further.
    + rewrite !bool_decide_eq_false_2; [done| |done].
      intros [?|?]%elem_of_cons; [congruence|done].
Qed.

Lemma categoryTotals_keys_from (debits : list Transaction.t)
    (acc : list (TransactionCategory * num)) :
  NoDup acc.*1 ->
  let totals :=
    fold_left (fun acc t => bump (Transaction.category t) (Transaction.amount t) acc)
      debits acc in
  NoDup totals.*1 /\
  forall c, c ∈ totals.*1 <-> c ∈ acc.*1 \/ c ∈ Transaction.category <$> debits.
Proof.
  revert acc; induction debits as [|t debits IH]; intros acc Hnd; simpl.
  - split; [done|]. intros c. rewrite elem_of_nil. tauto.
  - destruct (IH (bump (Transaction.category t) (Transaction.amount t) acc))
      as [Hnd' Hin].
    { rewrite bump_keys. destruct (decide (Transaction.category t ∈ acc.*1)).
      - by rewrite bool_decide_eq_true_2.
      - rewrite bool_decide_eq_false_2 by done.
        apply NoDup_app. split; [done|]. split; [|apply NoDup_singleton].
        intros x Hx ->%list_elem_of_singleton. done. }
    split; [done|]. intros c. rewrite Hin, bump_keys, elem_of_cons.
    destruct (decide (Transaction.category t ∈ acc.*1)).
    + rewrite bool_decide_eq_true_2 by done. split; [tauto|].
      intros [?|[->|?]]; auto.
    + rewrite bool_decide_eq_false_2 by done.
      rewrite elem_of_app, list_elem_of_singleton. tauto.
Qed.

(** X22.  The categories of the chart.  [categoryTotals] has one entry for
    each category that occurs among the debits and no other entry: its keys
    are pairwise distinct, and a category is a key exactly when a debit has
    it. *)
Theorem categoryTotals_keys (debits : list Transaction.t) :
  NoDup (categoryTotals debits).*1 /\
  forall c, c ∈ (categoryTotals debits).*1 <-> c ∈ Transaction.category <$> debits.
Proof.
  destruct (categoryTotals_keys_from debits [] (NoDup_nil_2)) as [Hnd Hin].
  split; [done|]. intros c. unfold categoryTotals. rewrite Hin. simpl.
  rewrite elem_of_nil. tauto.
Qed.

End Categories.

(** *** On the numbers of the host *)

Lemma entries_magnitude_nonneg (acc : list (TransactionCategory * float)) :
  0 <= entries_magnitude acc.
Proof. induction acc as [|e acc IH]; simpl; lia. Qed.

Lemma entries_value_cons (c : TransactionCategory) (v : float)
    (acc : list (TransactionCategory * float)) :
  entries_value ((c, v) :: acc) = Z_of_float v + entries_value acc.
Proof. done. Qed.

Lemma entries_magnitude_cons (c : TransactionCategory) (v : float)
    (acc : list (TransactionCategory * float)) :
  entries_magnitude ((c, v) :: acc) = Z.abs (Z_of_float v) + entries_magnitude acc.
Proof. done. Qed.

Lemma bump_denotes (category : TransactionCategory) (amount : float)
    (acc : list (TransactionCategory * float)) :
  Forall (fun e => whole e.2) acc -> whole amount ->
  entries_magnitude acc + Z.abs (Z_of_float amount) < 2 ^ 53 ->
  Forall (fun e => whole e.2) (@bump binary64 category amount acc) /\
  entries_value (@bump binary64 category amount acc)
  = entries_value acc + Z_of_float amount /\
  entries_magnitude (@bump binary64 category amount acc)
  <= entries_magnitude acc + Z.abs (Z_of_float amount).
Proof.
  intros Hacc Ha. induction Hacc as [|[c v] acc Hv Hacc IH]; intros Hb.
  - cbn [bump]. change (entries_magnitude []) with 0 in *.
    change (entries_value []) with 0.
    assert (denotes (@add binary64 (@zero binary64) amount) (0 + Z_of_float amount))
      as Hsum.
    { apply add_denotes; [apply zero_denotes|apply whole_denotes; [done|lia]|lia]. }
    apply denotes_whole in Hsum as [Hw Hz].
    rewrite entries_value_cons, entries_magnitude_cons, Hz.
    change (entries_magnitude []) with 0. change (entries_value []) with 0.
    split; [by repeat constructor|]. lia.
  - cbn [bump]. rewrite entries_magnitude_cons in Hb. simpl in Hv.
    pose proof (entries_magnitude_nonneg acc).
    destruct (bool_decide (c = category)).
    + assert (denotes v (Z_of_float v)) as Hden by (apply whole_denotes; [done|lia]).
      rewrite (or_zero_denotes v _ Hden).
      assert (denotes (@add binary64 v amount) (Z_of_float v + Z_of_float amount))
        as Hsum.
      { apply add_denotes; [done|apply whole_denotes; [done|lia]|lia]. }
      apply denotes_whole in Hsum as [Hw Hz].
      rewrite !entries_value_cons, !entries_magnitude_cons, Hz.
      split; [by constructor|]. lia.
    + destruct IH as (IHw & IHv & IHm); [lia|].
      rewrite !entries_value_cons, !entries_magnitude_cons.
      split; [by constructor|]. lia.
Qed.

Lemma categoryTotals_denotes (debits : list (@Transaction.t binary64))
    (acc : list (TransactionCategory * float)) :
  Forall (fun e => whole e.2) acc ->
  Forall (fun t => whole (Transaction.amount t)) debits ->
  entries_magnitude acc + magnitude debits < 2 ^ 53 ->
  let totals :=
    fold_left (fun acc t => bump (Transaction.category t) (Transaction.amount t) acc)
      debits acc in
  Forall (fun e => whole e.2) totals /\
  entries_value totals = entries_value acc + sum_values debits /\
  entries_magnitude totals <= entries_magnitude acc + magnitude debits.
Proof.
  revert acc; induction debits as [|t debits IH]; intros acc Hacc Hw Hb.
  - simpl. split; [done|]. lia.
  - apply Forall_cons in Hw as [Ht Hw]. rewrite magnitude_cons in *.
    change (sum_values (t :: debits)) with (value t + sum_values debits).
    pose proof (magnitude_nonneg debits). unfold value in *.
    destruct (bump_denotes (Transaction.category t) (Transaction.amount t) acc
                Hacc Ht) as (Hw' & Hv' & Hm'); [lia|].
    destruct (IH _ Hw' Hw) as (Hw'' & Hv'' & Hm''); [lia|].
    cbn [fold_left]. split; [done|]. lia.
Qed.

Lemma totalSpending_from (acc : list (TransactionCategory * float))
    (x : float) (a : Z) :
  denotes x a -> Forall (fun e => whole e.2) acc ->
  Z.abs a + entries_magnitude acc < 2 ^ 53 ->
  denotes (fold_left (@add binary64) (acc.*2) x) (a + entries_value acc).
Proof.
  revert x a; induction acc as [|[c v] acc IH]; intros x a Hx Hw Hb.
  - simpl. by rewrite Z.add_0_r.
  - apply Forall_cons in Hw as [Hv Hw]. simpl in Hv.
    rewrite entries_magnitude_cons in Hb. rewrite entries_value_cons.
    pose proof (entries_magnitude_nonneg acc).
    rewrite fmap_cons. cbn [fold_left snd]. rewrite Z.add_assoc.
    apply IH; [|done|lia].
    apply add_denotes; [done|apply whole_denotes; [done|lia]|lia].
Qed.

(** X23.  The chart adds up.  When the amounts of the debits are whole
    numbers whose absolute values add up to less than 2^53, the sum of the
    totals per category, [totalSpending], is the sum of the amounts of the
    debits that the burn rate divides. *)
Theorem totalSpending_is_totalDebits (debits : list (@Transaction.t binary64)) :
  whole_amounts debits ->
  totalSpending (categoryTotals debits) = totalDebits_of debits.
Proof.
  intros [Hw Hm]. unfold categoryTotals.
  destruct (categoryTotals_denotes debits (@nil (TransactionCategory * @num binary64))
              (Forall_nil_2 _) Hw)
    as (Hw' & Hv' & Hm'); [change (entries_magnitude []) with 0; lia|].
  change (entries_magnitude []) with 0 in Hm'. change (entries_value []) with 0 in Hv'.
  apply (denotes_inj _ _ (0 + sum_values debits)).
  - rewrite <- Hv'. unfold totalSpending.
    apply (totalSpending_from _ (@zero binary64) 0);
      [apply zero_denotes|done|change (Z.abs 0) with 0; lia].
  - unfold totalDebits_of.
    apply (fold_sum_denotes debits (@zero binary64) 0);
      [apply zero_denotes|done|change (Z.abs 0) with 0; lia].
Qed.

(** ** The engine without debits *)

Lemma zero_div_not_positive (d : float) :
  PrimFloat.ltb 0%float (0 / d)%float = false.
Proof.
  rewrite FloatAxioms.ltb_spec, FloatAxioms.div_spec.
  change (Prim2SF 0%float) with (S754_zero false).
  by destruct (Prim2SF d).
Qed.

(** X24.  The engine without debits, on the numbers of the host.  For a
    ledger that is not empty and holds credits only, the engine returns a
    result whose burn rate is not positive, whose liquidity index is 0
    whatever the balance and the clock, and whose category totals are
    empty. *)
Theorem credits_only_no_liquidity (txs : list (@Transaction.t binary64))
    (balance : float) (now : Z) :
  txs <> [] ->
  Forall (fun t => Transaction.type t = CREDIT) txs ->
  exists i,
    insights_of txs balance now = Some i /\
    PrimFloat.ltb 0%float (Insights.burnRate i) = false /\
    Insights.liquidityIndex i = 0%float /\
    Insights.categoryTotals i = [].
Proof.
  intros Hne Hcredits.
  assert (List.filter (fun t : @Transaction.t binary64 =>
            bool_decide (Transaction.type t = DEBIT)) txs = []) as Hdebits.
  { clear Hne. induction Hcredits as [|t l Ht _ IH]; simpl; [done|].
    by rewrite Ht, IH. }
  unfold insights_of. destruct txs as [|t txs]; [done|].
  change (length (t :: txs) =? 0)%nat with false. cbv iota.
  eexists. split; [done|]. cbn [Insights.burnRate Insights.liquidityIndex
    Insights.categoryTotals]. rewrite Hdebits.
  unfold liquidityIndex, burnRate, totalDebits_of. cbn [fold_left].
  split; [apply zero_div_not_positive|]. split; [|done].
  change (@ltb binary64) with PrimFloat.ltb. change (@zero binary64) with 0%float.
  change (@div binary64) with PrimFloat.div.
  by rewrite zero_div_not_positive, andb_false_r.
Qed.

(** ** Changing a status again *)

Section Statuses.
Context {N : Number}.

Lemma findIndex_alter {A} (p : A -> bool) (f : A -> A) (i : nat) (l : list A) :
  (forall x, p (f x) = p x) -> findIndex p (alter f i l) = findIndex p l.
Proof.
  intros Hp. revert i; induction l as [|x l IH]; intros [|i]; simpl; try done.
  - by rewrite Hp.
  - destruct (p x); [done|]. f_equal. apply IH.
Qed.

(** X25.  The last status wins.  Two status updates of the same request, one
    after the other, leave the storage and give the response of the second
    alone: nothing of the first is kept, whatever the statuses are. *)
Theorem updateRequestStatus_last_wins (session : Session.t) (requestId : string)
    (first second : RequestStatus) (ls : gmap string Item) :
  (updateRequestStatus session requestId first;;;
   updateRequestStatus session requestId second)%js ls
  = updateRequestStatus session requestId second ls.
Proof.
  unfold updateRequestStatus.
  destruct (bool_decide (Session.role session = HOST)); simpl; [|done].
  unfold bind, getItem, setItem, ret. rewrite !JSON_parse_eq.
  destruct (parsed as_requests (or_empty (Requests []) (ls !! REQUESTS_KEY)))
    as [e|rs] eqn:Hrs; [done|].
  destruct (findIndex _ rs) as [idx|] eqn:Hidx; simpl.
  - rewrite lookup_insert_eq, JSON_parse_eq. simpl.
    rewrite findIndex_alter by done. rewrite Hidx. simpl.
    rewrite insert_insert_eq. do 3 f_equal.
    rewrite list_alter_alter_eq. by apply list_alter_ext.
  - by rewrite JSON_parse_eq, Hrs, Hidx.
Qed.

End Statuses.

(** ** The properties above on the sample data *)

(** Alice signs up as [" Fam1"], ["Alice "], and logs in as ["FAM1 "],
    [" alice"]. *)
Lemma signup_then_login_witness :
  exists session,
    login "FAM1 " " alice" "pw" 1000 1000 signed_up
    = Return (Success session) (<[SESSION_KEY := SessionDoc session]> signed_up) /\
    Session.userId session = User.id alice /\
    Session.familyId session = normalize " Fam1" /\
    Session.role session = HOST /\
    Session.exp session = (1000 + 86400000)%Z.
Proof.
  apply (signup_then_login " Fam1" "Alice " "pw" "FAM1 " " alice" 1 1000 1000 ∅
           signed_up alice); reflexivity.
Defined.

(** Alice's handle with another pass phrase is denied. *)
Lemma login_denied_witness :
  login "fam1" "alice" "wrong" 2 3 signed_up
  = Return (Failure "Access Denied. Invalid credentials or Cluster ID.") signed_up.
Proof.
  apply (login_denied "fam1" "alice" "wrong" 2 3 signed_up [alice]);
    [reflexivity|].
  intros u Hu%list_elem_of_singleton (_ & _ & Hpass). subst u. discriminate Hpass.
Defined.

(** The session alice gets at time 1000 is returned a day later, to the
    millisecond. *)
Lemma login_then_getStoredSession_witness :
  getStoredSession 86401000 (<[SESSION_KEY := SessionDoc alice_session]> signed_up)
  = Return (Some alice_session) (<[SESSION_KEY := SessionDoc alice_session]> signed_up).
Proof.
  apply (proj1 (login_then_getStoredSession " Fam1" "Alice" "pw" 1000 1000 signed_up
                  (<[SESSION_KEY := SessionDoc alice_session]> signed_up)
                  alice_session eq_refl)).
  lia.
Defined.

(** Bob, provisioned by alice, logs in as ["BOB "] of ["Fam1"]. *)
Lemma provision_then_login_witness :
  exists s,
    login "Fam1" "BOB " "pw2" 2000 2000 (<[USERS_KEY := Users [alice; bob]]> signed_up)
    = Return (Success s)
        (<[SESSION_KEY := SessionDoc s]> (<[USERS_KEY := Users [alice; bob]]> signed_up)) /\
    Session.userId s = User.id bob /\
    Session.familyId s = Session.familyId alice_session /\
    Session.role s = MEMBER /\
    User.parentId bob = Some (Session.userId alice_session).
Proof.
  apply (provision_then_login alice_session "Bob" "pw2" "k3x9" "Fam1" "BOB " 2000 2000
           signed_up (<[USERS_KEY := Users [alice; bob]]> signed_up) bob);
    reflexivity.
Defined.

(** Alice and carol sign up at the same reading of the clock. *)
Lemma signups_share_id_witness :
  User.id alice = User.id carol /\
  stored_key alice <> stored_key carol /\
  alice ∈ stored_users (<[USERS_KEY := Users [alice; carol]]> signed_up) /\
  carol ∈ stored_users (<[USERS_KEY := Users [alice; carol]]> signed_up).
Proof.
  apply (signups_share_id " Fam1" "Alice " "pw" "fam2" "carol" "pw3" 1 ∅ signed_up
           (<[USERS_KEY := Users [alice; carol]]> signed_up) alice carol);
    reflexivity.
Defined.

(** The message bob sends to alice is in bob's view of alice and in alice's
    view of bob. *)
Lemma sent_message_views_witness :
  note ∈ filteredMsgs [note] "u_1" (Some bob_session) /\
  note ∈ filteredMsgs [note] "u_bob" (Some alice_session).
Proof.
  assert (sendMessage bob_session "hi" (Some "u_1") 7 8 ∅
          = Return (Success note) (<[MESSAGES_KEY := Messages [note]]> ∅)) as Hsent
    by reflexivity.
  destruct (sent_message_views (N:=binary64) bob_session "hi" (Some "u_1") 7 8 ∅
              (<[MESSAGES_KEY := Messages [note]]> ∅) note [note] Hsent
              (list_elem_of_here _ _)) as [_ Hdirect].
  destruct (Hdirect "u_1" eq_refl ltac:(discriminate)) as (Hsender & Hreader & _).
  split; [exact Hsender|].
  apply (Hreader alice_session eq_refl). discriminate.
Defined.

(** Alice and bob see the same conversation. *)
Lemma filteredMsgs_symmetric_witness :
  filteredMsgs [note] "u_bob" (Some alice_session)
  = filteredMsgs [note] "u_1" (Some bob_session).
Proof.
  apply (proj1 (filteredMsgs_symmetric [note] alice_session bob_session
                  ltac:(discriminate) ltac:(discriminate))).
Defined.

(** Alice, a host, is listed the request approved for bob. *)
Lemma listedRequests_after_sync_witness :
  exists state',
    sync (Some alice_session) unsynchronised one_approved = Return state' one_approved /\
    (Session.role alice_session = HOST ->
       listedRequests (Cluster.reqs state') alice_session = [approved_request]) /\
    (Session.role alice_session = MEMBER ->
       forall r, r ∈ listedRequests (Cluster.reqs state') alice_session <->
                 r ∈ [approved_request] /\
                 MoneyRequest.childId r = Session.userId alice_session).
Proof.
  apply (listedRequests_after_sync alice_session unsynchronised one_approved
           [] [] [approved_request] []); reflexivity.
Defined.

(** Bob, who is no host, presses 'Approve': the update is refused and the
    credit of 500 is stored. *)
Lemma approve_credits_whatever_the_update_witness :
  exists ls',
    approve bob_session approved_request 6000 6000 one_approved
    = Return (Some ("Capital Ratified", ToastSuccess)) ls' /\
    getTransactions ls' = Return [ratified approved_request 6000 6000] ls' /\
    ((Session.role bob_session <> HOST \/
      forall r, r ∈ [approved_request] ->
                MoneyRequest.id r <> MoneyRequest.id approved_request) ->
     getRequests ls' = Return [approved_request] ls').
Proof.
  apply (approve_credits_whatever_the_update bob_session approved_request 6000 6000
           one_approved [approved_request] []); reflexivity.
Defined.

(** Alice presses 'Approve' twice. *)
Lemma approve_twice_credits_twice_witness :
  exists ls' c1 c2,
    (approve alice_session approved_request 6000 6000;;;
     approve alice_session approved_request 6001 6001)%js one_approved
    = Return (Some ("Capital Ratified", ToastSuccess)) ls' /\
    getTransactions ls' = Return [c2; c1] ls' /\
    Forall (fun c => Transaction.type c = CREDIT /\
                     Transaction.userId c = MoneyRequest.childId approved_request /\
                     Transaction.amount c = MoneyRequest.amount approved_request)
      [c1; c2].
Proof.
  apply (approve_twice_credits_twice alice_session approved_request 6000 6000 6001 6001
           one_approved [approved_request] []); reflexivity.
Defined.

(** Bob asks for 5 for books, and alice approves. *)
Lemma request_round_trip_witness :
  exists ls',
    (dispatchRequest bob_session 5%float "books" 5000 5000;;;
     approve alice_session
       {| MoneyRequest.id := "req_5000"; MoneyRequest.childId := "u_bob";
          MoneyRequest.amount := 5%float; MoneyRequest.reason := "books";
          MoneyRequest.status := PENDING; MoneyRequest.timestamp := 5000 |}
       6000 6000)%js ∅
    = Return (Some ("Capital Ratified", ToastSuccess)) ls' /\
    getRequests ls'
    = Return [{| MoneyRequest.id := "req_5000"; MoneyRequest.childId := "u_bob";
                 MoneyRequest.amount := 5%float; MoneyRequest.reason := "books";
                 MoneyRequest.status := APPROVED; MoneyRequest.timestamp := 5000 |}]
        ls' /\
    getTransactions ls'
    = Return [{| Transaction.id := "tx_appr_6000"; Transaction.userId := "u_bob";
                 Transaction.amount := 5%float; Transaction.type := CREDIT;
                 Transaction.category := GIFT;
                 Transaction.description := "Funding Ratified: books";
                 Transaction.timestamp := 6000 |}] ls'.
Proof.
  apply (request_round_trip (N:=binary64) bob_session alice_session 5%float "books"
           5000 5000 6000 6000 ∅ [] []); (reflexivity || discriminate).
Defined.

(** Bob's debit of 40, recorded on scenario 5, leaves his balance at 460 and
    alice's as it was. *)
Lemma saveTransaction_moves_one_balance_witness :
  exists ls' new,
    saveTransaction bob_session bob_lunch
      {[ TRANSACTIONS_KEY := Transactions scenario5 ]}
    = Return (Success bob_lunch) ls' /\
    getTransactions ls' = Return new ls' /\
    currentBalance new (Some bob_session) = 460%float /\
    currentBalance new (Some alice_session)
    = currentBalance scenario5 (Some alice_session).
Proof.
  assert (getTransactions {[ TRANSACTIONS_KEY := Transactions scenario5 ]}
          = Return scenario5 {[ TRANSACTIONS_KEY := Transactions scenario5 ]})
    as Hstored by reflexivity.
  destruct (saveTransaction_moves_one_balance bob_session bob_lunch
              {[ TRANSACTIONS_KEY := Transactions scenario5 ]} scenario5 Hstored)
    as (ls' & new & Hsave & Hread & Hother & Hown).
  exists ls', new. split; [exact Hsave|]. split; [exact Hread|]. split.
  - rewrite (Hown bob_session eq_refl); [vm_compute; reflexivity|whole_sample].
  - apply Hother. discriminate.
Defined.

(** Bob commits a debit of 600 on scenario 5, where his balance is 500, and
    alice credits 600 on bob's card. *)
Lemma forms_move_one_balance_witness :
  (exists new,
     commitLog bob_session 600%float "rent" OTHER 7 7
       {[ TRANSACTIONS_KEY := Transactions scenario5 ]}
     = Return (Some ("Ledger Record Post Successful", ToastSuccess))
         (<[TRANSACTIONS_KEY := Transactions new]>
            {[ TRANSACTIONS_KEY := Transactions scenario5 ]}) /\
     currentBalance new (Some bob_session) = (-100)%float) /\
  (exists new,
     creditNode alice_session bob_card "u_bob" 600%float "rent" 7 7
       {[ TRANSACTIONS_KEY := Transactions scenario5 ]}
     = Return (Some ("Capital Injection Successful", ToastSuccess))
         (<[TRANSACTIONS_KEY := Transactions new]>
            {[ TRANSACTIONS_KEY := Transactions scenario5 ]}) /\
     currentBalance new (Some bob_session) = 1100%float /\
     currentBalance new (Some alice_session) = 0%float).
Proof.
  assert (getTransactions {[ TRANSACTIONS_KEY := Transactions scenario5 ]}
          = Return scenario5 {[ TRANSACTIONS_KEY := Transactions scenario5 ]})
    as Hstored by reflexivity.
  assert (@truthy binary64 600%float = true) as Htruthy by reflexivity.
  destruct (forms_move_one_balance bob_session 600%float "rent" OTHER bob_card
              7 7 {[ TRANSACTIONS_KEY := Transactions scenario5 ]} scenario5
              Hstored Htruthy) as [Hdebit _].
  destruct (forms_move_one_balance alice_session 600%float "rent" OTHER bob_card
              7 7 {[ TRANSACTIONS_KEY := Transactions scenario5 ]} scenario5
              Hstored Htruthy) as [_ (Hrun & Hother & Hmember)].
  split.
  - destruct (Hdebit ltac:(discriminate)) as (Hrun' & _ & Hown).
    eexists. split; [exact Hrun'|].
    rewrite Hown; [vm_compute; reflexivity|whole_sample].
  - eexists. split; [exact Hrun|]. split.
    + rewrite (Hmember bob_session eq_refl); [vm_compute; reflexivity|whole_sample].
    + rewrite (Hother alice_session ltac:(discriminate)). vm_compute; reflexivity.
Defined.

(** Bob's debit of 40 lowers the total of the registry of alice and bob from
    500 to 460. *)
Lemma clusterLiquidity_counts_members_witness :
  clusterLiquidity [alice; bob_card] (bob_lunch :: scenario5) = 460%float.
Proof.
  rewrite (proj2 (clusterLiquidity_counts_members [alice; bob_card] scenario5
                    bob_lunch) bob_card).
  - vm_compute; reflexivity.
  - apply list_elem_of_further, list_elem_of_here.
  - reflexivity.
  - reflexivity.
  - apply NoDup_singleton.
  - whole_sample.
Defined.

(** The two debits of scenario 5 add up to 500, per category and in all. *)
Lemma totalSpending_is_totalDebits_witness :
  totalSpending
    (categoryTotals (List.filter (fun t => bool_decide (Transaction.type t = DEBIT))
                       scenario5))
  = 500%float.
Proof.
  rewrite totalSpending_is_totalDebits; [vm_compute; reflexivity|whole_sample].
Defined.

(** Three credits and no debit. *)
Lemma credits_only_no_liquidity_witness :
  exists i,
    insights_of tenths 1000%float 5 = Some i /\
    PrimFloat.ltb 0%float (Insights.burnRate i) = false /\
    Insights.liquidityIndex i = 0%float /\
    Insights.categoryTotals i = [].
Proof.
  apply (credits_only_no_liquidity tenths 1000%float 5); [discriminate|].
  repeat constructor.
Defined.
